(** * sncosmo.plotting: light curves, posterior samples and SED animation

    A shallow embedding of [sncosmo/plotting.py] and the properties of its
    three entry points [plot_lc], [plot_param_samples] and [animate_model].

    Conventions.
    - Python floats are idealised: rationals ([Q], compared with [==])
      for [plot_lc] and [animate_model], whose arithmetic stays in the
      field operations, and reals ([R]) for [plot_param_samples], which
      takes square roots.  Rounding, NaN and infinities are not modelled.
    - Python ints are [Z]; [//] is [Z.div] (floor division), [/] is true
      division (the module starts with [from __future__ import division]).
    - matplotlib is modelled by the list of drawing commands a call issues,
      in order; a raised exception ends the list where it happens.
    - Objects the caller passes in live in a store that the call returns,
      so that writes through an alias are visible. *)

From Stdlib Require Import ZArith QArith Qminmax Qround Reals Lqa Lra Lia List.
From stdpp Require Import gmap strings list sorting.

(** ** Python values shared by the three functions *)

Module Py.

Inductive exn : Type :=
| ValueError (msg : string)
| TypeError (msg : string)
| ZeroDivisionError
| IndexError
| KeyError
| NameError (msg : string)
| RuntimeError (msg : string).

Inductive outcome (A : Type) : Type :=
| Returned (a : A)
| Raised (e : exn).
Arguments Returned {A} a.
Arguments Raised {A} e.

Definition is_returned {A} (r : outcome A) : bool :=
  match r with Returned _ => true | Raised _ => false end.

(** Sequencing of code that may raise. *)
Definition obind {A B} (r : outcome A) (k : A → outcome B) : outcome B :=
  match r with
  | Returned a => k a
  | Raised e => Raised e
  end.

(** [a / b] on floats: Python raises where the divisor is zero. *)
Definition truediv (a b : Q) : outcome Q :=
  if Qeq_bool b 0 then Raised ZeroDivisionError else Returned (a / b)%Q.

(** [l[i]] on a list. *)
Definition getitem {A} (l : list A) (i : nat) : outcome A :=
  match l !! i with
  | Some a => Returned a
  | None => Raised IndexError
  end.

(** [a.min()] and [a.max()] of a numpy array: a zero-size array has no
    minimum and the reduction raises. *)
Definition array_min (a : list Q) : outcome Q :=
  match a with
  | [] => Raised (ValueError "zero-size array to reduction operation minimum which has no identity")
  | x :: l => Returned (foldl Qmin x l)
  end.

Definition array_max (a : list Q) : outcome Q :=
  match a with
  | [] => Raised (ValueError "zero-size array to reduction operation maximum which has no identity")
  | x :: l => Returned (foldl Qmax x l)
  end.

(** ['\n'.join(lines)]. *)
Definition newline : string := String (Ascii.ascii_of_nat 10) EmptyString.

Fixpoint join (sep : string) (l : list string) : string :=
  match l with
  | [] => EmptyString
  | [s] => s
  | s :: l' => s +:+ sep +:+ join sep l'
  end.

End Py.
Export Py.

(** ** Bandpasses ([sncosmo.spectral])

    A [Bandpass] is an object of another module; this file reads its
    [name] and [wave_eff].  The class defines no equality, so two
    bandpasses are equal when they are the same object, and Python 2 orders
    them by address: [band_id] stands for that identity. *)

Module Spectral.

Record Bandpass : Type := mkBandpass {
  band_id : positive;
  name : string;
  wave_eff : Q
}.

(** What callers may pass where a band is expected: a registered name or
    a bandpass object. *)
Inductive BandSpec : Type :=
| BandName (s : string)
| BandObj (b : Bandpass).

Definition bandpass_to_tuple (b : Bandpass) : positive * string * (Z * positive) :=
  (band_id b, name b, (Qnum (wave_eff b), Qden (wave_eff b))).

Definition bandpass_of_tuple (t : positive * string * (Z * positive)) : Bandpass :=
  let '(i, s, (n, d)) := t in mkBandpass i s (Qmake n d).

Definition bandspec_to_sum (s : BandSpec) : string + Bandpass :=
  match s with BandName n => inl n | BandObj b => inr b end.

Definition bandspec_of_sum (s : string + Bandpass) : BandSpec :=
  match s with inl n => BandName n | inr b => BandObj b end.

End Spectral.
Export Spectral.

Global Instance Q_eq_dec : EqDecision Q.
Proof. solve_decision. Defined.

Global Instance Bandpass_eq_dec : EqDecision Bandpass.
Proof. solve_decision. Defined.

Global Instance BandSpec_eq_dec : EqDecision BandSpec.
Proof. solve_decision. Defined.

Global Instance Bandpass_countable : Countable Bandpass.
Proof.
  apply (inj_countable' bandpass_to_tuple bandpass_of_tuple).
  intros [i s [n d]]. reflexivity.
Defined.

Global Instance BandSpec_countable : Countable BandSpec.
Proof.
  apply (inj_countable' bandspec_to_sum bandspec_of_sum).
  intros [n|b]; reflexivity.
Defined.


Global Instance outcome_ret : MRet outcome := λ A a, Returned a.
Global Instance outcome_bind : MBind outcome := λ A B k r, obind r k.

(** ** [plot_lc] *)

Module LC.

(** *** The objects [plot_lc] is called with *)

(** [sncosmo.models.ObsModel], as far as this module uses it.  [bandflux]
    takes the band, a time, [zp] and [zpsys]; called on an array of times it
    gives the array of fluxes, and called without times it uses
    [model.times]. *)
Record ObsModel : Type := mkObsModel {
  model_name : string;
  param_names : list string;
  param_names_latex : list string;
  parameters : list Q;
  times : list Q;
  bandoverlap : Bandpass → bool;
  bandflux : Bandpass → Q → Q → string → Q
}.

(** A value passed as [model]: an [ObsModel] instance or anything else. *)
Inductive PyObj : Type :=
| Obs (m : ObsModel)
| NotObs (repr : string).

Inductive ModelArg : Type :=
| ModelNone
| ModelOne (o : PyObj)
| ModelSeq (l : list PyObj).

(** Photometric data: rows of time, band, flux and flux error. *)
Record Row : Type := mkRow {
  time : Q;
  band : BandSpec;
  flux : Q;
  fluxerr : Q
}.

Definition Data : Type := list Row.

(** [figtext]: [None], a string, or a list whose items are strings or
    [None]. *)
Inductive FigTextArg : Type :=
| FigNone
| FigStr (s : string)
| FigList (l : list (option string)).

(** The objects of the caller that a call holds references to. *)
Record Objects : Type := mkObjects {
  o_data : option Data;
  o_model : ModelArg;
  o_bands : option (list BandSpec);
  o_offsets : option (gmap BandSpec Q);
  o_figtext : FigTextArg;
  o_errors : option (gmap string Q)
}.

(** The arguments passed by value. *)
Record Options : Type := mkOptions {
  zp : Q;
  zpsys : string;
  pulls : bool;
  xfigsize : option Q;
  yfigsize : option Q;
  figtextsize : Q;
  fname : option string;
  kwargs : list (string * string)
}.

Definition default_options : Options :=
  mkOptions 25 "ab" true None None 1 None [].

(** *** matplotlib, as the commands it receives *)

Definition RGBA : Type := Q * Q * Q * Q.

(** The axes a [plt] call draws into: the subplot numbered [axnum], or the
    axes appended beneath it for the pulls. *)
Inductive Axes : Type :=
| MainAxes (axnum : Z)
| PullAxes (axnum : Z).

Inductive Artist : Type :=
| Ylabel (s : string)
| Xlabel (s : string)
| Errorbar (x y yerr : list Q) (color : RGBA)
| Line (x y : list Q) (ls marker : string) (color : RGBA) (label : option string)
| Ylim (ymin ymax : Q)
| LegendBox
| AxText (x y : Q) (s : string) (ha : string)
| Axhline (y : Q)
| HideXTickLabels.

(** [Subplot] records, next to the arguments of [plt.subplot], the band
    the new axes are drawn for. *)
Inductive Cmd : Type :=
| Figure (w h : Q)
| FigText (x y : Q) (s : string)
| Subplot (nrow ncol axnum : Z) (b : Bandpass)
| AppendAxes (axnum : Z)
| Draw (ax : Axes) (a : Artist)
| TightLayout (top : Q)
| Show
| Savefig (f : string) (kw : list (string * string))
| Close.

(** *** What the module imports *)

Record Extern : Type := mkExtern {
  get_bandpass : BandSpec → Bandpass;
  standardize_data : Data → Data;
  normalize_data : Data → Q → string → Data;
  magsystem_name_upper : string → string;
  value_error_str : Q → Q → string;
  str_float : Q → string;
  format_4f : Q → string;
  format_2f : Q → string;
  cmap_lut : Z → RGBA;
  get_ylim : list Cmd → Q * Q
}.

(** *** The two effects of a call *)

(** Before the figure exists: reads and writes of the caller's objects. *)
Definition Prep (A : Type) : Type := Objects → Objects * outcome A.

Definition prep_bind {A B} (m : Prep A) (k : A → Prep B) : Prep B :=
  λ o, match m o with
       | (o1, Returned a) => k a o1
       | (o1, Raised e) => (o1, Raised e)
       end.

Definition arg {A} (f : Objects → A) : Prep A := λ o, (o, Returned (f o)).
Definition prep_lift {A} (r : outcome A) : Prep A := λ o, (o, r).
Definition prep_raise {A} (e : exn) : Prep A := λ o, (o, Raised e).

Definition with_offsets (o : Objects) (d : gmap BandSpec Q) : Objects :=
  mkObjects (o_data o) (o_model o) (o_bands o) (Some d) (o_figtext o) (o_errors o).

Definition with_figtext (o : Objects) (l : list (option string)) : Objects :=
  mkObjects (o_data o) (o_model o) (o_bands o) (o_offsets o) (FigList l) (o_errors o).

(** While drawing: commands are issued in order; [ax.get_ylim()] reads what
    has been drawn so far. *)
Definition Drawing (A : Type) : Type := list Cmd → list Cmd * outcome A.

Definition draw_bind {A B} (m : Drawing A) (k : A → Drawing B) : Drawing B :=
  λ t, match m t with
       | (c1, Returned a) =>
           match k a (t ++ c1) with (c2, r) => (c1 ++ c2, r) end
       | (c1, Raised e) => (c1, Raised e)
       end.

Definition emit (c : Cmd) : Drawing unit := λ _, ([c], Returned tt).
Definition draw_lift {A} (r : outcome A) : Drawing A := λ _, ([], r).
Definition drawn_so_far : Drawing (list Cmd) := λ t, ([], Returned t).

End LC.
Export LC.

Global Instance Prep_ret : MRet Prep := λ A a o, (o, Returned a).
Global Instance Prep_bind : MBind Prep := λ A B k m, prep_bind m k.
Global Instance Drawing_ret : MRet Drawing := λ A a _, ([], Returned a).
Global Instance Drawing_bind : MBind Drawing := λ A B k m, draw_bind m k.

(** *** The function, from the source *)

Section PlotLc.

Variable E : Extern.
Variable opts : Options.

Local Open Scope Q_scope.

(** Lines 108-110: the colour map and the wavelengths of its two ends.
    [cmap] is matplotlib's [Colormap.__call__] on a float, with the default
    under and over colours: the float is scaled by the [N = 256] entries of
    the lookup table, truncated, and indices below and above the table
    take its first and last entry. *)
Definition cm_wave_range : Q * Q := (3000, 10000).

Definition cmap_N : Z := 256.

Definition cmap (x : Q) : RGBA :=
  cmap_lut E (Z.max 0 (Z.min (cmap_N - 1) (Qfloor (x * inject_Z cmap_N)))).

(** Lines 219-220. *)
Definition color_fraction (wave : Q) : Q :=
  (snd cm_wave_range - wave) / (snd cm_wave_range - fst cm_wave_range).

Definition band_color (wave : Q) : RGBA := cmap (color_fraction wave).

Definition _model_ls : list string := ["-"; "--"; ":"; "-."].

(** Lines 112-115. *)
Definition check_arguments : Prep unit :=
  data ← arg o_data;
  model ← arg o_model;
  bands ← arg o_bands;
  match data, model with
  | None, ModelNone =>
      prep_raise (ValueError "must specify at least one of: data, model")
  | _, _ =>
      match data, bands with
      | None, None =>
          prep_raise (ValueError "must specify bands to plot for model(s)")
      | _, _ => mret tt
      end
  end.

(** Lines 117-125. *)
Definition isinstance_ObsModel (o : PyObj) : bool :=
  match o with Obs _ => true | NotObs _ => false end.

Definition model_list (model : ModelArg) : list PyObj :=
  match model with
  | ModelNone => []
  | ModelSeq l => l
  | ModelOne m => [m]
  end.

Definition obs_models (models : list PyObj) : list ObsModel :=
  omap (λ o, match o with Obs m => Some m | NotObs _ => None end) models.

Definition get_models : Prep (list ObsModel) :=
  model ← arg o_model;
  let models := model_list model in
  if forallb isinstance_ObsModel models
  then mret (obs_models models)
  else prep_raise (TypeError "model(s) must be ObsModel instance(s)").

(** Lines 127-130. *)
Definition get_data : Prep (option Data) :=
  data ← arg o_data;
  mret ((λ d, normalize_data E (standardize_data E d) (zp opts) (zpsys opts)) <$> data).

(** Lines 132-143.  Iterating [None] is a [TypeError]; line 114 has
    excluded it. *)
Definition bandpass_set (bands : list BandSpec) : gset Bandpass :=
  list_to_set (get_bandpass E <$> bands).

Definition select_bands (data : option Data) (bands : option (list BandSpec))
  : outcome (gset Bandpass) :=
  match data with
  | None =>
      match bands with
      | Some bs => Returned (bandpass_set bs)
      | None => Raised (TypeError "'NoneType' object is not iterable")
      end
  | Some d =>
      let data_bands := get_bandpass E <$> (band <$> d) in
      let unique_data_bands : gset Bandpass := list_to_set data_bands in
      match bands with
      | None => Returned unique_data_bands
      | Some bs => Returned (bandpass_set bs ∩ unique_data_bands)
      end
  end.

(** Lines 147-152.  The first loop is taken over the items the mapping has
    when the loop starts ([items]).  Each step pops the key and assigns the
    value under the bandpass; where the mapping still has that bandpass as a
    key the assignment replaces an item, the mapping is one item shorter
    than when the loop started, and the iterator raises [RuntimeError] when
    it is next asked for an item.  The second loop gives every selected band
    an entry. *)
Fixpoint rekey_offsets (items : list (BandSpec * Q)) (offsets : gmap BandSpec Q)
  : gmap BandSpec Q * outcome unit :=
  match items with
  | [] => (offsets, Returned tt)
  | (key, _) :: rest =>
      match offsets !! key with
      | None => (offsets, Raised KeyError)
      | Some v =>
          let popped := delete key offsets in
          let band := BandObj (get_bandpass E key) in
          match popped !! band with
          | Some _ =>
              (<[band := v]> popped,
               Raised (RuntimeError "dictionary changed size during iteration"))
          | None => rekey_offsets rest (<[band := v]> popped)
          end
      end
  end.

Definition fill_offsets (bands : list Bandpass) (offsets : gmap BandSpec Q)
  : gmap BandSpec Q :=
  foldl (λ d b, match d !! BandObj b with
                | Some _ => d
                | None => <[BandObj b := 0]> d
                end) offsets bands.

Definition normalise_offsets (bands : list Bandpass) : Prep unit :=
  λ o, match o_offsets o with
       | None => (o, Returned tt)
       | Some d =>
           match rekey_offsets (map_to_list d) d with
           | (d1, Returned _) => (with_offsets o (fill_offsets bands d1), Returned tt)
           | (d1, Raised e) => (with_offsets o d1, Raised e)
           end
       end.

(** Lines 154-180. *)
Definition param_line (model : ObsModel) (errors : gmap string Q) (i : nat)
  : outcome string :=
  pname ← getitem (param_names model) i;
  lname ← getitem (param_names_latex model) i;
  p ← getitem (parameters model) i;
  let v := match errors !! pname with
           | Some err => value_error_str E p err
           | None => format_4f E p
           end in
  mret ("$" +:+ lname +:+ " = " +:+ v +:+ "$").

Definition figtext_append (s : string) (figtext : list (option string))
  : Prep (list (option string)) :=
  λ o, let l := figtext ++ [Some s] in
       match o_figtext o with
       | FigList _ => (with_figtext o l, Returned l)
       | _ => (o, Returned l)
       end.

Definition build_figtext (models : list ObsModel) : Prep (list (option string)) :=
  errors ← arg o_errors;
  let errors := default ∅ errors in
  figtext ← arg o_figtext;
  let figtext :=
    match figtext with
    | FigNone => []
    | FigStr s => [Some s]
    | FigList l => l
    end in
  match models with
  | [model] =>
      lines ← prep_lift (mapM (param_line model errors)
                              (seq 0 (length (param_names model))));
      let n := (length (param_names model) - length (param_names model) / 2)%nat in
      figtext ← figtext_append (join newline (take n lines)) figtext;
      figtext_append (join newline (drop n lines)) figtext
  | _ => mret figtext
  end.

(** Lines 182-200. *)
Definition ncol : Z := 2.

Definition nrow_of (nsubplots : Z) : Z := ((nsubplots - 1) `div` ncol + 1)%Z.

Definition figure_size (nrow : Z) : outcome (Q * Q) :=
  match xfigsize opts, yfigsize opts with
  | None, None => Returned (4 * inject_Z ncol, 3 * inject_Z nrow)
  | Some x, None => Returned (x, 3 / 4 * inject_Z nrow / inject_Z ncol * x)
  | None, Some y =>
      w ← truediv (4 / 3 * inject_Z ncol) (inject_Z nrow);
      Returned (w * y, y)
  | Some _, Some _ =>
      Raised (ValueError "cannot specify both xfigsize and yfigsize")
  end.

(** What the drawing part of the function works from. *)
Record Plan : Type := mkPlan {
  p_models : list ObsModel;
  p_data : option Data;
  p_bands : list Bandpass;
  p_offsets : option (gmap BandSpec Q);
  p_figtext : list (option string);
  p_nrow : Z;
  p_figsize : Q * Q;
  p_figtextsize : Q
}.

(** Lines 112-200: everything before [plt.figure].  [list(bands)] lists a
    set in an order Python does not specify; [elements] is one such order,
    and no property below depends on which. *)
Definition prepare : Prep Plan :=
  check_arguments;;
  models ← get_models;
  data ← get_data;
  bands ← arg o_bands;
  bands ← prep_lift (select_bands data bands);
  let bands := elements bands in
  normalise_offsets bands;;
  offsets ← arg o_offsets;
  figtext ← build_figtext models;
  let nsubplots := Z.of_nat (length bands) in
  let nrow := nrow_of nsubplots in
  figsize ← prep_lift (figure_size nrow);
  let '(figsize, figtextsize) :=
    if bool_decide (0 < length figtext)%nat
    then ((fst figsize, snd figsize + figtextsize opts), figtextsize opts)
    else (figsize, 0) in
  mret (mkPlan models data bands offsets figtext nrow figsize figtextsize).

End PlotLc.

Section Render.

Variable E : Extern.
Variable opts : Options.
Variable plan : Plan.

Local Open Scope Q_scope.

Let models := p_models plan.
Let offsets := p_offsets plan.

Fixpoint for_each {A} (l : list A) (body : A → Drawing unit) : Drawing unit :=
  match l with
  | [] => mret tt
  | x :: l' => body x;; for_each l' body
  end.

(** Lines 205-212. *)
Definition write_figtext (figtext : list (option string)) : Drawing unit :=
  for_each (imap pair figtext)
    (λ it, match snd it with
           | None => mret tt
           | Some s =>
               let xpos := (5 # 100) + (9 # 10) *
                 (inject_Z (Z.of_nat (fst it)) / inject_Z (Z.of_nat (length figtext))) in
               emit (FigText xpos (95 # 100) s)
           end).

(** [models[0].parameters[1]]. *)
Definition first_model_t0 : outcome Q :=
  m ← getitem models 0;
  getitem (parameters m) 1.

(** Lines 257-258 and 300-301. *)
Definition add_offset (b : Bandpass) (mflux : list Q) : list Q :=
  match offsets with
  | Some d =>
      match d !! BandObj b with
      | Some off => (λ f, f + off) <$> mflux
      | None => mflux
      end
  | None => mflux
  end.

(** Lines 227-229. *)
Definition xlabel_text : outcome string :=
  match models with
  | [] => Returned "time"
  | _ :: _ =>
      t0 ← first_model_t0;
      if Qeq_bool t0 0 then Returned "time"
      else Returned ("time" +:+ " - " +:+ format_2f E t0)
  end.

(** Lines 231-244: the rows of the band, drawn with error bars. *)
Definition band_rows (b : Bandpass) (data : Data) : list Row :=
  filter (λ r, get_bandpass E (band r) = b) data.

Definition plot_data (axnum : Z) (b : Bandpass) (color : RGBA) (data : Data)
  : Drawing (list Row) :=
  let rows := band_rows b data in
  plotted_time ←
    match models with
    | [] => mret (time <$> rows)
    | _ :: _ => t0 ← draw_lift first_model_t0; mret ((λ r, time r - t0) <$> rows)
    end;
  emit (Draw (MainAxes axnum)
          (Errorbar plotted_time (flux <$> rows) (fluxerr <$> rows) color));;
  mret rows.

(** Lines 250-264. *)
Fixpoint plot_models (axnum : Z) (b : Bandpass) (color : RGBA)
    (i : nat) (ms : list ObsModel) (mflux_mins mflux_maxes : list Q)
  : Drawing (list Q * list Q) :=
  match ms with
  | [] => mret (mflux_mins, mflux_maxes)
  | model :: rest =>
      if bandoverlap model b then
        t0 ← draw_lift first_model_t0;
        let plotted_time := (λ t, t - t0) <$> times model in
        let mflux := (λ t, bandflux model b t (zp opts) (zpsys opts)) <$> times model in
        let mflux := add_offset b mflux in
        emit (Draw (MainAxes axnum)
                (Line plotted_time mflux
                   (nth (i mod length _model_ls) _model_ls "-") "None"
                   color (Some (model_name model))));;
        lo ← draw_lift (array_min mflux);
        hi ← draw_lift (array_max mflux);
        plot_models axnum b color (S i) rest (mflux_mins ++ [lo]) (mflux_maxes ++ [hi])
      else plot_models axnum b color (S i) rest mflux_mins mflux_maxes
  end.

(** Lines 266-273. *)
Definition reset_ylim (axnum : Z) (mflux_mins mflux_maxes : list Q) : Drawing unit :=
  match mflux_mins, mflux_maxes with
  | lo :: los, hi :: his =>
      let mflux_min := foldl Qmin lo los in
      let mflux_max := foldl Qmax hi his in
      t ← drawn_so_far;
      let '(ymin, ymax) := get_ylim E t in
      let ymax := Qmin ymax (2 * mflux_max) in
      let ymin := Qmax ymin (mflux_min - (ymax - mflux_max)) in
      emit (Draw (MainAxes axnum) (Ylim ymin ymax))
  | _, _ => mret tt
  end.

(** Lines 293-308. *)
Definition pull (model : ObsModel) (b : Bandpass) (rows : list Row) : list Q :=
  let mflux := (λ r, bandflux model b (time r) (zp opts) (zpsys opts)) <$> rows in
  let mflux := add_offset b mflux in
  zip_with (λ fm err, (fst fm - snd fm) / err)
           (zip (flux <$> rows) mflux) (fluxerr <$> rows).

Definition plot_pulls (axnum : Z) (b : Bandpass) (color : RGBA)
    (rows : option (list Row)) : Drawing unit :=
  match rows, models with
  | Some rows, [model] =>
      if pulls opts && bandoverlap model b then
        emit (AppendAxes axnum);;
        let fluxpulls := pull model b rows in
        t0 ← draw_lift first_model_t0;
        emit (Draw (PullAxes axnum)
                (Line ((λ r, time r - t0) <$> rows) fluxpulls "None" "." color None));;
        emit (Draw (PullAxes axnum) (Axhline 0));;
        emit (Draw (MainAxes axnum) HideXTickLabels);;
        if bool_decide (axnum `mod` 2 ≠ 0)%Z
        then emit (Draw (PullAxes axnum) (Ylabel "pull"))
        else mret tt
      else mret tt
  | _, _ => mret tt
  end.

(** Lines 217-311: one band. *)
Definition has_pulls (b : Bandpass) : bool :=
  match p_data plan, models with
  | Some _, [model] => pulls opts && bandoverlap model b
  | _, _ => false
  end.

Definition plot_band (axnum : Z) (wave : Q) (b : Bandpass) : Drawing unit :=
  let color := band_color E wave in
  emit (Subplot (p_nrow plan) ncol axnum b);;
  (if bool_decide (axnum `mod` 2 ≠ 0)%Z
   then emit (Draw (MainAxes axnum)
                (Ylabel ("flux ($ZP_{" +:+ magsystem_name_upper E (zpsys opts) +:+
                         "} = " +:+ str_float E (zp opts) +:+ "$)")))
   else mret tt);;
  xlabel ← draw_lift xlabel_text;
  rows ← match p_data plan with
         | Some data => rs ← plot_data axnum b color data; mret (Some rs)
         | None => mret (@None (list Row))
         end;
  match models with
  | [] => mret tt
  | _ :: _ =>
      mm ← plot_models axnum b color 0 models [] [];
      reset_ylim axnum (fst mm) (snd mm);;
      if bool_decide (axnum = 1%Z) && bool_decide (2 ≤ length models)%nat
      then emit (Draw (MainAxes axnum) LegendBox)
      else mret tt
  end;;
  (if bool_decide (axnum = 1%Z) && bool_decide (1 < length models)%nat
   then emit (Draw (MainAxes axnum) (AxText (8 # 100) (92 # 100) (name b) "left"))
   else emit (Draw (MainAxes axnum) (AxText (92 # 100) (92 # 100) (name b) "right")));;
  emit (Draw (MainAxes axnum) (Axhline 0));;
  plot_pulls axnum b color rows;;
  emit (Draw (if has_pulls b then PullAxes axnum else MainAxes axnum) (Xlabel xlabel)).

(** Lines 214-217: [sorted(zip(waves, bands))] compares the pairs by
    wavelength and, for equal wavelengths, by band. *)
Definition pair_le (x y : Q * Bandpass) : Prop :=
  fst x < fst y ∨ (fst x == fst y ∧ (band_id (snd x) ≤ band_id (snd y))%positive).

Fixpoint plot_bands (axnum : Z) (l : list (Q * Bandpass)) : Drawing unit :=
  match l with
  | [] => mret tt
  | (wave, b) :: l' =>
      let axnum := (axnum + 1)%Z in
      plot_band axnum wave b;;
      plot_bands axnum l'
  end.

End Render.

Global Instance pair_le_dec (x y : Q * Bandpass) : Decision (pair_le x y).
Proof.
  unfold pair_le.
  destruct (Qlt_le_dec (fst x) (fst y)) as [Hlt|Hge].
  - left. left. exact Hlt.
  - destruct (Qeq_dec (fst x) (fst y)) as [Heq|Hne].
    + destruct (decide (band_id (snd x) ≤ band_id (snd y))%positive) as [Hid|Hid].
      * left. right. split; assumption.
      * right. intros [Hlt|[_ Hle]]; [exact (Qlt_not_le _ _ Hlt Hge) | exact (Hid Hle)].
    + right. intros [Hlt|[Heq _]]; [exact (Qlt_not_le _ _ Hlt Hge) | exact (Hne Heq)].
Defined.

Section Call.

Variable E : Extern.
Variable opts : Options.

(** What a call leaves behind: the caller's objects, the commands matplotlib
    received, and whether the call returned or raised. *)
Record Result : Type := mkResult {
  objects : Objects;
  commands : list Cmd;
  result : outcome unit
}.

(** Lines 214-216: the bands in plotting order. *)
Definition sorted_bands (bands : list Bandpass) : list (Q * Bandpass) :=
  let waves := wave_eff <$> bands in
  merge_sort pair_le (zip waves bands).

(** Lines 202-319. *)
Definition render (plan : Plan) : Drawing unit :=
  emit (Figure (fst (p_figsize plan)) (snd (p_figsize plan)));;
  (if bool_decide (0 < length (p_figtext plan))%nat
   then write_figtext (p_figtext plan)
   else mret tt);;
  plot_bands E opts plan 0 (sorted_bands (p_bands plan));;
  top ← draw_lift (truediv (p_figtextsize plan) (snd (p_figsize plan)));
  emit (TightLayout (1 - top));;
  match fname opts with
  | None => emit Show
  | Some f => emit (Savefig f (kwargs opts))
  end;;
  emit Close.

Definition plot_lc (o : Objects) : Result :=
  match prepare E opts o with
  | (o', Raised e) => mkResult o' [] (Raised e)
  | (o', Returned plan) =>
      match render plan [] with
      | (cmds, r) => mkResult o' cmds r
      end
  end.

End Call.

(** ** [plot_param_samples] *)

Module Samples.

Local Open Scope R_scope.

(** [samples] has one row per draw and one column per parameter;
    [samples[:, i]] is column [i]. *)
Definition column (samples : list (list R)) (i : nat) : list R :=
  (λ row, nth i row 0) <$> samples.

Definition total (l : list R) : R := foldr Rplus 0 l.

(** Line 350, [np.average(samples, weights=weights, axis=0)[i]]: numpy
    divides the weighted sum by the sum of the weights. *)
Definition average (col : list R) (weights : option (list R)) : R :=
  match weights with
  | None => total col / INR (length col)
  | Some w => total (zip_with Rmult col w) / total w
  end.

(** Lines 351-355.  [np.std] is the square root of the mean squared
    deviation from the mean. *)
Definition np_std (col : list R) : R :=
  let mean := total col / INR (length col) in
  sqrt (total ((λ x, (x - mean) * (x - mean)) <$> col) / INR (length col)).

Definition std (col : list R) (weights : option (list R)) : R :=
  match weights with
  | None => np_std col
  | Some w =>
      sqrt (total (zip_with Rmult w ((λ x, x * x) <$> col))
            - average col weights * average col weights)
  end.

(** Lines 362 and 364. *)
Definition lims (samples : list (list R)) (weights : option (list R)) (i : nat)
  : R * R :=
  let avg := average (column samples i) weights in
  let sd := std (column samples i) weights in
  (avg - 5 * sd, avg + 5 * sd).

Inductive PanelKind : Type := Histogram | Contour.

(** One cell of the grid: [plt.subplot(npar, npar, j * npar + i + 1)], what is
    drawn in it, the window given to [plt.xlim] and, off the diagonal, to
    [plt.ylim]. *)
Record Panel : Type := mkPanel {
  panel_row : nat;
  panel_col : nat;
  panel_number : nat;
  panel_kind : PanelKind;
  panel_xlim : R * R;
  panel_ylim : option (R * R)
}.

(** Lines 347-397. *)
Definition plot_param_samples (param_names : list string)
    (samples : list (list R)) (weights : option (list R)) : list Panel :=
  let npar := length param_names in
  j ← seq 0 npar;
  let ylims := lims samples weights j in
  i ← seq 0 (j + 1);
  let xlims := lims samples weights i in
  [ if bool_decide (i = j)
    then mkPanel j i (j * npar + i + 1) Histogram xlims None
    else mkPanel j i (j * npar + i + 1) Contour xlims (Some ylims) ].

(** The statistics the specification names: the weighted mean and the
    weighted standard deviation of a column (the unweighted ones are the
    case of equal weights). *)
Definition weighted_mean (col w : list R) : R :=
  total (zip_with Rmult w col) / total w.

Definition weighted_std (col w : list R) : R :=
  let mu := weighted_mean col w in
  sqrt (total (zip_with Rmult w ((λ x, (x - mu) * (x - mu)) <$> col)) / total w).

End Samples.

(** ** [animate_model] *)

Module Animate.

Local Open Scope Q_scope.

(** [sncosmo.models.Model], as far as [animate_model] uses it:
    [refband_flux] is [model.bandflux(model.refband, model.refphase)]. *)
Record Model : Type := mkModel {
  model_name : string;
  refphase : Q;
  times : list Q;
  disp : list Q;
  flux : Q → list Q;
  refband_flux : Q
}.

(** A model given by name or as an instance. *)
Inductive ModelSpec : Type :=
| ByName (s : string)
| ByInstance (m : Model).

(** [model_or_models]: one model (a name is a string, and a string is not
    taken as an iterable) or an iterable of them. *)
Inductive ModelsArg : Type :=
| Single (m : ModelSpec)
| Several (l : list ModelSpec).

Record Options : Type := mkOptions {
  fps : Z;
  length_ : Q;
  time_range : option Q * option Q;
  disp_range : option Q * option Q;
  match_refphase : bool;
  match_flux : bool
}.

Definition default_options : Options :=
  mkOptions 30 20 (None, None) (None, None) true true.

(** What the animation driver is handed. *)
Record Frame : Type := mkFrame {
  frame_time : Q;
  frame_lines : list (list Q * list Q)
}.

Record Animation : Type := mkAnimation {
  xlim : Q * Q;
  ylim : Q * Q;
  labels : list string;
  frames : Z;
  animate : Z → Frame
}.

Section AnimateModel.

Variable opts : Options.

(** Lines 495-498. *)
Definition time_offsets (models : list Model) : list Q :=
  let time_offsets :=
    match models with
    | [] => []
    | first :: _ => (λ model, refphase model - refphase first) <$> models
    end in
  if negb (match_refphase opts) then replicate (length models) 0 else time_offsets.

(** [min(l)] and [max(l)] of a Python list. *)
Definition list_min (l : list Q) : outcome Q :=
  match l with
  | [] => Raised (ValueError "min() arg is an empty sequence")
  | x :: l' => Returned (foldl Qmin x l')
  end.

Definition list_max (l : list Q) : outcome Q :=
  match l with
  | [] => Raised (ValueError "max() arg is an empty sequence")
  | x :: l' => Returned (foldl Qmax x l')
  end.

Definition or_else (given : option Q) (auto : outcome Q) : outcome Q :=
  match given with
  | Some x => Returned x
  | None => auto
  end.

(** [int(x)] of a float. *)
Definition int (x : Q) : Z := if Qle_bool 0 x then Qfloor x else Qceiling x.

(** Lines 490-492. *)
Definition model_specs (model_or_models : ModelsArg) : list ModelSpec :=
  match model_or_models with
  | Single m => [m]
  | Several l => l
  end.

(** Line 493 calls [get_model] on each item.  [get_model] is a global name
    that plotting.py neither imports nor defines, so that the call raises
    [NameError]. *)
Definition get_model (m : ModelSpec) : outcome Model :=
  Raised (NameError "global name 'get_model' is not defined").

Definition get_models (model_or_models : ModelsArg) : outcome (list Model) :=
  mapM get_model (model_specs model_or_models).

(** Lines 495-570, from the list of models. *)
Definition animate_models (models : list Model) : outcome Animation :=
  let time_offsets := time_offsets models in
  model_min_times ←
    mapM (λ mo, t ← getitem (times (fst mo)) 0; mret (t - snd mo))
         (zip models time_offsets);
  model_max_times ←
    mapM (λ mo, t ← getitem (times (fst mo)) (length (times (fst mo)) - 1);
                mret (t - snd mo))
         (zip models time_offsets);
  min_time ← or_else (fst (time_range opts)) (list_min model_min_times);
  max_time ← or_else (snd (time_range opts)) (list_max model_max_times);
  let disps := disp <$> models in
  min_disp ← or_else (fst (disp_range opts))
                 (firsts ← mapM (λ d, getitem d 0) disps; list_min firsts);
  max_disp ← or_else (snd (disp_range opts))
                 (lasts ← mapM (λ d : list Q, getitem d (length d - 1)) disps;
                  list_max lasts);
  time_interval ← truediv (max_time - min_time) (length_ opts * inject_Z (fps opts));
  max_fluxes ← mapM (λ model, array_max (flux model (refphase model))) models;
  sg ←
    (if match_flux opts then
       let max_bandfluxes := refband_flux <$> models in
       first ← getitem max_bandfluxes 0;
       global_max_flux ← getitem max_fluxes 0;
       mret ((λ f, first / f) <$> max_bandfluxes, global_max_flux)
     else
       global_max_flux ← list_max max_fluxes;
       mret (replicate (length models) 1, global_max_flux));
  let scaling_factors := fst sg in
  let global_max_flux := snd sg in
  let ymin := - (6 # 100) * global_max_flux in
  let ymax := (11 # 10) * global_max_flux in
  mret (mkAnimation (min_disp, max_disp) (ymin, ymax)
          (model_name <$> models)
          (int (inject_Z (fps opts) * length_ opts))
          (λ i, let current_time := min_time + time_interval * inject_Z i in
                mkFrame current_time
                  (zip_with (λ mo s, (disp (fst mo),
                                      (λ y, y * s) <$> flux (fst mo) (current_time + snd mo)))
                            (zip models time_offsets) scaling_factors))).

(** Lines 489-570. *)
Definition animate_model (model_or_models : ModelsArg) : outcome Animation :=
  models ← get_models model_or_models;
  animate_models models.

End AnimateModel.

End Animate.

(** * Reading a call's outcome *)

Section Outcome.

Variable E : Extern.
Variable opts : Options.

(** The data as [plot_lc] uses them (line 130). *)
Definition normalised (o : Objects) : option Data :=
  (λ d, normalize_data E (standardize_data E d) (zp opts) (zpsys opts)) <$> o_data o.

(** The bands of the rows of a data set and of a list of requested bands. *)
Definition bands_in (d : Data) : list Bandpass := get_bandpass E <$> (band <$> d).
Definition bands_requested (bs : list BandSpec) : list Bandpass := get_bandpass E <$> bs.

(** The bands line 143 selects; no band when line 134 cannot iterate. *)
Definition selected_bands (o : Objects) : gset Bandpass :=
  match select_bands E (normalised o) (o_bands o) with
  | Returned s => s
  | Raised _ => ∅
  end.

(** The bands a subplot was made for, in the order of the commands. *)
Definition rendered_bands (cmds : list Cmd) : list Bandpass :=
  omap (λ c, match c with Subplot _ _ _ b => Some b | _ => None end) cmds.

(** The caller's objects that a call only reads. *)
Definition same_inputs (o o' : Objects) : Prop :=
  o_data o' = o_data o ∧ o_model o' = o_model o ∧
  o_bands o' = o_bands o ∧ o_errors o' = o_errors o.

(** The band's entry in the offsets mapping, once the call has rewritten
    the mapping. *)
Definition offset_of (o : Objects) (b : Bandpass) : option Q :=
  d ← o_offsets o; d !! BandObj b.

End Outcome.

(** ** Reasoning about [Drawing] and [Prep] *)

(** Every command [m] issues satisfies [P], and a value it returns
    satisfies [Q]. *)
Definition draws {A} (m : Drawing A) (P : Cmd → Prop) (Q : A → Prop) : Prop :=
  ∀ t, Forall P (fst (m t)) ∧ ∀ a, snd (m t) = Returned a → Q a.

(** [m] issues [c] whenever it returns. *)
Definition issues {A} (m : Drawing A) (c : Cmd) : Prop :=
  ∀ t, is_returned (snd (m t)) = true → c ∈ fst (m t).

(** What a call may change in the caller's objects: nothing but an offsets
    mapping that was given and a figtext that was given as a list. *)
Definition writes_within (o o' : Objects) : Prop :=
  same_inputs o o' ∧
  (o_offsets o = None → o_offsets o' = None) ∧
  match o_figtext o with
  | FigList _ => ∃ l, o_figtext o' = FigList l
  | f => o_figtext o' = f
  end.

Definition confined {A} (m : Prep A) : Prop :=
  ∀ o, writes_within o (fst (m o)).

(** What the commands of one band look like: [band_cmd plan axnum wave b c]
    holds of the commands issued for band [b] in subplot [axnum]. *)
Section BandCmd.

Variable E : Extern.
Variable opts : Options.
Variable plan : Plan.

Definition pull_line (b : Bandpass) (y : list Q) : Prop :=
  ∃ model data,
    p_models plan = [model] ∧ p_data plan = Some data ∧
    pulls opts = true ∧ bandoverlap model b = true ∧
    y = pull opts plan model b (band_rows E b data).

Definition artist_of (wave : Q) (b : Bandpass) (ax : Axes) (a : Artist) : Prop :=
  match a with
  | Errorbar _ _ _ color => color = band_color E wave
  | Line _ y _ _ color _ =>
      color = band_color E wave ∧
      match ax with
      | PullAxes _ => pull_line b y
      | MainAxes _ => True
      end
  | _ => True
  end.

Definition axes_number (ax : Axes) : Z :=
  match ax with MainAxes n => n | PullAxes n => n end.

Definition band_cmd (axnum : Z) (wave : Q) (b : Bandpass) (c : Cmd) : Prop :=
  match c with
  | Subplot r cols n b' => r = p_nrow plan ∧ cols = ncol ∧ n = axnum ∧ b' = b
  | AppendAxes n => n = axnum
  | Draw ax a => axes_number ax = axnum ∧ artist_of wave b ax a
  | _ => False
  end.

(** The pulls of a band, as lines 299-304 draw them beneath subplot
    [axnum] (a band is only plotted once [models[0].parameters[1]] has been
    read). *)
Definition pulls_line (axnum : Z) (wave : Q) (b : Bandpass)
    (model : ObsModel) (data : Data) : Cmd :=
  let t0 := match first_model_t0 plan with
            | Returned t0 => t0
            | Raised _ => 0%Q
            end in
  Draw (PullAxes axnum)
    (Line ((λ r, time r - t0)%Q <$> band_rows E b data)
          (pull opts plan model b (band_rows E b data))
          "None" "." (band_color E wave) None).

(** The commands of the loop over [l], entered with counter [axnum]. *)
Definition loop_cmd (axnum : Z) (l : list (Q * Bandpass)) (c : Cmd) : Prop :=
  ∃ k wave b, l !! k = Some (wave, b) ∧
              band_cmd (axnum + Z.of_nat k + 1) wave b c.

(** The commands of the whole figure. *)
Definition figure_cmd (c : Cmd) : Prop :=
  match c with
  | Subplot _ _ _ _ | AppendAxes _ | Draw _ _ =>
      loop_cmd 0 (sorted_bands (p_bands plan)) c
  | _ => True
  end.

End BandCmd.

(** ** Sample calls *)

Module Demo.

Local Open Scope Q_scope.

Definition sdssg : Bandpass := mkBandpass 1 "sdssg" 4700.
Definition sdssr : Bandpass := mkBandpass 2 "sdssr" 6200.
Definition sdssz : Bandpass := mkBandpass 3 "sdssz" 8900.

(** [get_bandpass]: an object is returned as it is, a name is looked up. *)
Definition registry (s : BandSpec) : Bandpass :=
  match s with
  | BandObj b => b
  | BandName n =>
      if String.eqb n "sdssg" then sdssg
      else if String.eqb n "sdssr" then sdssr
      else sdssz
  end.

Definition extern : Extern :=
  mkExtern registry (λ d, d) (λ d _ _, d) (λ s, s)
           (λ _ _, "v +/- e") (λ _, "25.0") (λ _, "0.0000") (λ _, "0.00")
           (λ i, (inject_Z i / 255, 1 - inject_Z i / 255, 0, 1))
           (λ _, (0, 10)).

(** A model with constant band flux 3 that overlaps [sdssg] and [sdssr]. *)
Definition salt2 : ObsModel :=
  mkObsModel "salt2" ["z"; "t0"; "x0"] ["z"; "t_0"; "x_0"] [1 # 2; 0; 1]
             [0; 10] (λ b, negb (Pos.eqb (band_id b) 3)) (λ _ _ _ _, 3).

Definition photometry : Data :=
  [ mkRow 0 (BandName "sdssr") 5 1;
    mkRow 1 (BandName "sdssg") 4 2;
    mkRow 2 (BandName "sdssr") 7 1 ].

(** [plot_lc(data)] *)
Definition call_data : Objects :=
  mkObjects (Some photometry) ModelNone None None FigNone None.

(** [plot_lc(data, model=model)] *)
Definition call_data_model : Objects :=
  mkObjects (Some photometry) (ModelOne (Obs salt2)) None None FigNone None.

(** [plot_lc(data, model=model, offsets={'sdssr': 1.})] *)
Definition call_offsets : Objects :=
  mkObjects (Some photometry) (ModelOne (Obs salt2)) None
            (Some {[ BandName "sdssr" := 1 ]}) FigNone None.

(** [plot_lc(data, offsets={})] *)
Definition call_empty_offsets : Objects :=
  mkObjects (Some photometry) ModelNone None (Some ∅) FigNone None.

(** [plot_lc()] and [plot_lc(model=model)] *)
Definition call_nothing : Objects :=
  mkObjects None ModelNone None None FigNone None.

Definition call_model_only : Objects :=
  mkObjects None (ModelOne (Obs salt2)) None None FigNone None.

(** [plot_lc(data, model=model, bands=['sdssz'])]: no row of the data is in
    the requested band. *)
Definition call_no_band : Objects :=
  mkObjects (Some photometry) (ModelOne (Obs salt2)) (Some [BandName "sdssz"])
            None FigNone None.

Definition opts_yfigsize : LC.Options :=
  LC.mkOptions 25 "ab" true None (Some 6) 1 None [].

Definition opts_xfigsize : LC.Options :=
  LC.mkOptions 25 "ab" true (Some 8) None 1 None [].

(** [plot_param_samples(['p'], samples, weights)]: two draws of one
    parameter, with equal weights that do not sum to one. *)
Definition samples : list (list R) := [[0%R]; [2%R]].
Definition weights : list R := [1%R; 1%R].

(** Two models whose reference phases are 0 and 5. *)
Definition hsiao : Animate.Model :=
  Animate.mkModel "hsiao" 0 [-20; 80] [1000; 9000] (λ t, [t; 2]) 1.

Definition nugent : Animate.Model :=
  Animate.mkModel "nugent" 5 [-10; 90] [2000; 8000] (λ t, [t; 4]) 2.

(** [animate_model(['hsiao', 'nugent'])] *)
Definition both_models : Animate.ModelsArg :=
  Animate.Several [Animate.ByName "hsiao"; Animate.ByName "nugent"].

(** [plot_lc(data, model=[model, 'salt2'])]: the second model is a string. *)
Definition call_not_a_model : Objects :=
  mkObjects (Some photometry) (ModelSeq [Obs salt2; NotObs "salt2"]) None None FigNone None.

(** [plot_lc(data, model=model, figtext=['SN 2011fe'])] *)
Definition call_captions : Objects :=
  mkObjects (Some photometry) (ModelOne (Obs salt2)) None None
            (FigList [Some "SN 2011fe"]) None.

(** [plot_lc(data, bands=['sdssz'])]: no model, and no row in the band. *)
Definition call_no_band_no_model : Objects :=
  mkObjects (Some photometry) ModelNone (Some [BandName "sdssz"]) None FigNone None.

(** Equal weights that sum to one, for [samples]. *)
Definition half_weights : list R := [(/ 2)%R; (/ 2)%R].


End Demo.
(** ** The rest of the module *)

(** *** The commands of one band, in full *)

Section BandDetail.

Variable E : Extern.
Variable opts : Options.
Variable plan : Plan.

(** Lines 232-244: the error bars of band [b]. *)
Definition data_points (b : Bandpass) (x y yerr : list Q) : Prop :=
  ∃ data, p_data plan = Some data ∧
    y = flux <$> band_rows E b data ∧
    yerr = fluxerr <$> band_rows E b data ∧
    match p_models plan with
    | [] => x = time <$> band_rows E b data
    | _ :: _ => ∃ t0, first_model_t0 plan = Returned t0 ∧
                      x = (λ r, time r - t0)%Q <$> band_rows E b data
    end.

(** Lines 250-261: the curve of the model at index [i]. *)
Definition model_curve (b : Bandpass) (x y : list Q) (ls marker : string)
    (label : option string) : Prop :=
  ∃ i model t0,
    p_models plan !! i = Some model ∧ bandoverlap model b = true ∧
    first_model_t0 plan = Returned t0 ∧
    x = (λ t, t - t0)%Q <$> times model ∧
    y = add_offset plan b ((λ t, bandflux model b t (zp opts) (zpsys opts)) <$> times model) ∧
    ls = nth (i mod length _model_ls) _model_ls "-" ∧
    marker = "None" ∧ label = Some (model_name model).

Definition legend_shown (axnum : Z) : Prop :=
  axnum = 1%Z ∧ (2 ≤ length (p_models plan))%nat.

Definition artist_detail (axnum : Z) (b : Bandpass) (ax : Axes) (a : Artist) : Prop :=
  match ax, a with
  | MainAxes _, Ylabel s =>
      (axnum `mod` 2 ≠ 0)%Z ∧
      s = "flux ($ZP_{" +:+ magsystem_name_upper E (zpsys opts) +:+
          "} = " +:+ str_float E (zp opts) +:+ "$)"
  | PullAxes _, Ylabel s => (axnum `mod` 2 ≠ 0)%Z ∧ s = "pull"
  | MainAxes _, Errorbar x y yerr _ => data_points b x y yerr
  | MainAxes _, Line x y ls marker _ label => model_curve b x y ls marker label
  | PullAxes _, Line _ _ ls marker _ label =>
      ls = "None" ∧ marker = "." ∧ label = None
  | MainAxes _, LegendBox => legend_shown axnum
  | MainAxes _, AxText x y s ha =>
      s = name b ∧ y = (92 # 100)%Q ∧
      ((legend_shown axnum ∧ x = (8 # 100)%Q ∧ ha = "left") ∨
       (¬ legend_shown axnum ∧ x = (92 # 100)%Q ∧ ha = "right"))
  | MainAxes _, Axhline y => y = 0%Q
  | PullAxes _, Axhline y => y = 0%Q
  | MainAxes _, HideXTickLabels => has_pulls opts plan b = true
  | ax, Xlabel s =>
      xlabel_text E plan = Returned s ∧
      ax = (if has_pulls opts plan b then PullAxes axnum else MainAxes axnum)
  | MainAxes _, Ylim _ _ => p_models plan ≠ []
  | PullAxes _, _ => False
  end.

Definition band_detail (axnum : Z) (b : Bandpass) (c : Cmd) : Prop :=
  match c with
  | Subplot _ _ n _ => n = axnum
  | AppendAxes n => n = axnum ∧ has_pulls opts plan b = true
  | Draw ax a =>
      axes_number ax = axnum ∧
      (match ax with PullAxes _ => has_pulls opts plan b = true | MainAxes _ => True end) ∧
      artist_detail axnum b ax a
  | _ => False
  end.

Definition loop_detail (axnum : Z) (l : list (Q * Bandpass)) (c : Cmd) : Prop :=
  ∃ k wave b, l !! k = Some (wave, b) ∧ band_detail (axnum + Z.of_nat k + 1) b c.

Definition figure_detail (c : Cmd) : Prop :=
  match c with
  | Subplot _ _ _ _ | AppendAxes _ | Draw _ _ =>
      loop_detail 0 (sorted_bands (p_bands plan)) c
  | _ => True
  end.

End BandDetail.

(** *** [animate_model]: the files written *)

Module Movie.

Import Animate.

Local Open Scope Q_scope.

(** [s.rfind(c)]: the highest index of [c] in [s], or -1. *)
Fixpoint rfind (c : Ascii.ascii) (s : string) : Z :=
  match s with
  | EmptyString => (-1)%Z
  | String a s' =>
      let r := rfind c s' in
      if (0 <=? r)%Z then (r + 1)%Z
      else if Ascii.eqb a c then 0%Z else (-1)%Z
  end.

Fixpoint take_chars (n : nat) (s : string) : string :=
  match n, s with
  | S n', String a s' => String a (take_chars n' s')
  | _, _ => EmptyString
  end.

Fixpoint drop_chars (n : nat) (s : string) : string :=
  match n, s with
  | S n', String _ s' => drop_chars n' s'
  | _, _ => s
  end.

(** [s[:i]]: a negative [i] counts from the end. *)
Definition slice_to (s : string) (i : Z) : string :=
  if (i <? 0)%Z then take_chars (Z.to_nat (Z.of_nat (String.length s) + i)) s
  else take_chars (Z.to_nat i) s.

(** [s[j:]] for [j >= 0]. *)
Definition slice_from (s : string) (j : Z) : string := drop_chars (Z.to_nat j) s.

Definition dot : Ascii.ascii := Ascii.ascii_of_nat 46.

(** Lines 574-579: the name of the still image, the extension and the
    codec. *)
Definition stillfname (fname : string) : string :=
  slice_to fname (rfind dot fname) +:+ ".png".

Definition ext (fname : string) : string :=
  slice_from fname (rfind dot fname + 1).

Definition codec (fname : string) : string :=
  if String.eqb (ext fname) "mp4" then "libx264"
  else if String.eqb (ext fname) "webm" then "libvpx"
  else "mpeg4".

End Movie.

(** *** [plot_param_samples]: ticks and labels *)

Module Ticks.

Inductive Formatter : Type := NullFormatter | ScalarFormatter.
Inductive Locator : Type := NullLocator | AutoLocator (nbins : Z).

(** Lines 399-422, for the panel in row [j] and column [i]. *)
Record AxisSetup : Type := mkAxisSetup {
  x_locator : Locator;
  y_locator : Locator;
  x_formatter : Formatter;
  x_label : option string;
  y_formatter : Formatter;
  y_label : option string
}.

Definition axis_setup (param_names : list string) (j i : nat) : outcome AxisSetup :=
  let npar := length param_names in
  let ylocator := if bool_decide (i = j) then NullLocator else AutoLocator 6 in
  xf ← (if bool_decide (j < npar - 1)%nat then Returned (NullFormatter, None)
        else name ← getitem param_names i; Returned (ScalarFormatter, Some name));
  yf ← (if bool_decide (j = 0%nat) || bool_decide (0 < i)%nat
        then Returned (NullFormatter, None)
        else name ← getitem param_names j; Returned (ScalarFormatter, Some name));
  Returned (mkAxisSetup (AutoLocator 6) ylocator (fst xf) (snd xf) (fst yf) (snd yf)).

End Ticks.

(** *** The commands around the bands *)

Section FigureHead.

Variable opts : Options.
Variable plan : Plan.

(** Lines 206-212: the caption at index [i] of [figtext]. *)
Definition caption (x y : Q) (s : string) : Prop :=
  ∃ i, p_figtext plan !! i = Some (Some s) ∧ y = (95 # 100)%Q ∧
       x = ((5 # 100) + (9 # 10) *
            (inject_Z (Z.of_nat i) / inject_Z (Z.of_nat (length (p_figtext plan)))))%Q.

(** What is issued before [plt.tight_layout]. *)
Definition before_layout (c : Cmd) : Prop :=
  match c with
  | Figure w h => (w, h) = p_figsize plan
  | FigText x y s => caption x y s
  | Subplot _ _ _ _ | AppendAxes _ | Draw _ _ => True
  | TightLayout _ | Show | Savefig _ _ | Close => False
  end.

(** Lines 313-319. *)
Definition closing (top : Q) : list Cmd :=
  [ TightLayout (1 - top)%Q;
    match fname opts with
    | None => Show
    | Some f => Savefig f (kwargs opts)
    end;
    Close ].

End FigureHead.

(** *** What a band is sure to get *)

Section BandDrawn.

Variable E : Extern.
Variable opts : Options.
Variable plan : Plan.

(** [models[0].parameters[1]], once it has been read. *)
Definition plotted_t0 : Q :=
  match first_model_t0 plan with
  | Returned t0 => t0
  | Raised _ => 0%Q
  end.

(** The error bars of lines 243-244 for band [b]. *)
Definition errorbar_cmd (axnum : Z) (wave : Q) (b : Bandpass) (data : Data) : Cmd :=
  let rows := band_rows E b data in
  Draw (MainAxes axnum)
    (Errorbar match p_models plan with
              | [] => time <$> rows
              | _ :: _ => (λ r, time r - plotted_t0)%Q <$> rows
              end
              (flux <$> rows) (fluxerr <$> rows) (band_color E wave)).

(** The curve of lines 260-261 for the model at index [i]. *)
Definition curve_cmd (axnum : Z) (wave : Q) (b : Bandpass) (i : nat) (model : ObsModel)
  : Cmd :=
  Draw (MainAxes axnum)
    (Line ((λ t, t - plotted_t0)%Q <$> times model)
          (add_offset plan b
             ((λ t, bandflux model b t (zp opts) (zpsys opts)) <$> times model))
          (nth (i mod length _model_ls) _model_ls "-") "None"
          (band_color E wave) (Some (model_name model))).

End BandDrawn.

(** * Rules for [Drawing] *)

Section DrawingRules.

Context {A B : Type}.

Lemma draws_ret (a : A) (P : Cmd → Prop) (Q : A → Prop) :
  Q a → draws (mret a : Drawing A) P Q.
Proof. intros Ha t. split; [constructor|]. simpl. intros a' [= <-]. exact Ha. Qed.

Lemma draws_lift (r : outcome A) (P : Cmd → Prop) (Q : A → Prop) :
  (∀ a, r = Returned a → Q a) → draws (draw_lift r) P Q.
Proof. intros Hr t. split; [constructor|]. exact Hr. Qed.

Lemma draws_bind (m : Drawing A) (k : A → Drawing B) P (Q : A → Prop) (R : B → Prop) :
  draws m P Q → (∀ a, Q a → draws (k a) P R) → draws (m ≫= k) P R.
Proof.
  intros Hm Hk t. unfold mbind, Drawing_bind, draw_bind.
  destruct (Hm t) as [Hc Hq]. destruct (m t) as [c1 [a|e]]; simpl in *.
  - destruct (Hk a (Hq a eq_refl) (t ++ c1)) as [Hc2 Hr].
    destruct (k a (t ++ c1)) as [c2 r]. simpl in *. split.
    + apply Forall_app. split; assumption.
    + exact Hr.
  - split; [exact Hc|]. intros b [=].
Qed.

Lemma draws_seq (m : Drawing A) (k : A → Drawing B) P (R : B → Prop) :
  draws m P (λ _, True) → (∀ a, draws (k a) P R) → draws (m ≫= k) P R.
Proof. intros Hm Hk. apply draws_bind with (Q := λ _, True); auto. Qed.

Lemma draws_weaken (m : Drawing A) (P P' : Cmd → Prop) (Q Q' : A → Prop) :
  draws m P Q → (∀ c, P c → P' c) → (∀ a, Q a → Q' a) → draws m P' Q'.
Proof.
  intros Hm HP HQ t. destruct (Hm t) as [Hc Hq]. split.
  - eapply Forall_impl; [exact Hc | exact HP].
  - intros a Ha. apply HQ, Hq, Ha.
Qed.

Lemma issues_bind_l (m : Drawing A) (k : A → Drawing B) c :
  issues m c → issues (m ≫= k) c.
Proof.
  intros Hm t. specialize (Hm t). unfold mbind, Drawing_bind, draw_bind.
  destruct (m t) as [c1 [a|e]]; simpl in *; [|discriminate].
  destruct (k a (t ++ c1)) as [c2 r]. simpl. intros _.
  apply elem_of_app. left. apply Hm. reflexivity.
Qed.

Lemma issues_bind_r (m : Drawing A) (k : A → Drawing B) c :
  (∀ a, issues (k a) c) → issues (m ≫= k) c.
Proof.
  intros Hk t. unfold mbind, Drawing_bind, draw_bind.
  destruct (m t) as [c1 [a|e]]; simpl in *; [|discriminate].
  specialize (Hk a (t ++ c1)). destruct (k a (t ++ c1)) as [c2 r]. simpl in *.
  intros Hr. apply elem_of_app. right. apply Hk, Hr.
Qed.

Lemma issues_bind_val (m : Drawing A) (k : A → Drawing B) P (Q : A → Prop) c :
  draws m P Q → (∀ a, Q a → issues (k a) c) → issues (m ≫= k) c.
Proof.
  intros Hm Hk t. unfold mbind, Drawing_bind, draw_bind.
  destruct (Hm t) as [_ Hq]. destruct (m t) as [c1 [a|e]]; simpl in *; [|discriminate].
  specialize (Hk a (Hq a eq_refl) (t ++ c1)).
  destruct (k a (t ++ c1)) as [c2 r]. simpl in *.
  intros Hr. apply elem_of_app. right. apply Hk, Hr.
Qed.

End DrawingRules.

Lemma draws_emit (c : Cmd) (P : Cmd → Prop) (Q : unit → Prop) :
  P c → Q tt → draws (emit c) P Q.
Proof.
  intros Hc Hq t. split; [repeat constructor; exact Hc|].
  simpl. intros [] _. exact Hq.
Qed.

Lemma draws_drawn_so_far (P : Cmd → Prop) (Q : list Cmd → Prop) :
  (∀ t, Q t) → draws drawn_so_far P Q.
Proof. intros Hq t. split; [constructor|]. simpl. intros a [= <-]. apply Hq. Qed.

Lemma issues_emit (c : Cmd) : issues (emit c) c.
Proof. intros t _. simpl. apply list_elem_of_here. Qed.

(** One step of a proof that a drawing routine issues only commands of a
    given kind, when the values passed along do not matter. *)
Ltac draws_step :=
  lazymatch goal with
  | |- draws (mret _) _ _ => apply draws_ret
  | |- draws (emit _) _ _ => apply draws_emit
  | |- draws (draw_lift _) _ _ => apply draws_lift; intros ? ?
  | |- draws drawn_so_far _ _ => apply draws_drawn_so_far; intros ?
  | |- draws (_ ≫= _) _ _ => apply draws_seq; [|intros ?]
  | |- draws (if ?c then _ else _) _ _ => destruct c eqn:?
  | |- draws (match ?x with _ => _ end) _ _ => destruct x eqn:?
  end.

(** * The commands of [plot_lc] *)

Section BandFacts.

Variable E : Extern.
Variable opts : Options.
Variable plan : Plan.

Ltac draws_band := repeat (draws_step; simpl; try done).

Lemma for_each_draws {A} (l : list A) (body : A → Drawing unit) (P : Cmd → Prop) :
  (∀ x, draws (body x) P (λ _, True)) → draws (for_each l body) P (λ _, True).
Proof.
  intros Hbody. induction l as [|x l IH]; simpl.
  - apply draws_ret. exact I.
  - apply draws_seq; [apply Hbody | intros _; exact IH].
Qed.

Lemma plot_data_draws axnum wave b data :
  draws (plot_data E plan axnum b (band_color E wave) data)
        (band_cmd E opts plan axnum wave b)
        (λ rows, rows = band_rows E b data).
Proof.
  unfold plot_data. apply draws_seq.
  - draws_band.
  - intros plotted_time. apply draws_seq.
    + apply draws_emit; simpl; auto.
    + intros _. apply draws_ret. reflexivity.
Qed.

Lemma plot_models_draws axnum wave b i ms mins maxes :
  draws (plot_models opts plan axnum b (band_color E wave) i ms mins maxes)
        (band_cmd E opts plan axnum wave b) (λ _, True).
Proof.
  revert i mins maxes. induction ms as [|model ms IH]; intros i mins maxes; simpl.
  - apply draws_ret. exact I.
  - destruct (bandoverlap model b); [|apply IH].
    apply draws_seq; [draws_band|]. intros t0.
    apply draws_seq; [apply draws_emit; simpl; auto|]. intros _.
    apply draws_seq; [draws_band|]. intros lo.
    apply draws_seq; [draws_band|]. intros hi.
    apply IH.
Qed.

Lemma reset_ylim_draws axnum wave b mins maxes :
  draws (reset_ylim E axnum mins maxes) (band_cmd E opts plan axnum wave b) (λ _, True).
Proof.
  unfold reset_ylim. destruct mins as [|lo los]; [draws_band|].
  destruct maxes as [|hi his]; [draws_band|].
  apply draws_seq; [draws_band|]. intros t.
  destruct (get_ylim E t) as [ymin ymax].
  apply draws_emit; simpl; auto.
Qed.

Lemma plot_pulls_draws axnum wave b :
  draws (plot_pulls opts plan axnum b (band_color E wave)
                    (band_rows E b <$> p_data plan))
        (band_cmd E opts plan axnum wave b) (λ _, True).
Proof.
  unfold plot_pulls.
  destruct (p_data plan) as [data|] eqn:Hdata; simpl; [|draws_band].
  destruct (p_models plan) as [|model [|m2 ms]] eqn:Hmodels; try solve [draws_band].
  destruct (pulls opts) eqn:Hpulls; simpl; [|draws_band].
  destruct (bandoverlap model b) eqn:Hoverlap; [|draws_band].
  apply draws_seq; [apply draws_emit; simpl; auto|]. intros _.
  apply draws_seq; [draws_band|]. intros t0.
  apply draws_seq.
  { apply draws_emit; [|exact I]. simpl. split; [reflexivity|].
    split; [reflexivity|]. exists model, data. rewrite Hmodels. auto. }
  intros _. draws_band.
Qed.

Lemma plot_band_draws axnum wave b :
  draws (plot_band E opts plan axnum wave b)
        (band_cmd E opts plan axnum wave b) (λ _, True).
Proof.
  unfold plot_band. cbv zeta.
  apply draws_seq; [apply draws_emit; simpl; auto|]. intros _.
  apply draws_seq; [draws_band|]. intros _.
  apply draws_seq; [draws_band|]. intros xlabel.
  apply draws_bind with (Q := λ rows, rows = band_rows E b <$> p_data plan).
  { destruct (p_data plan) as [data|]; simpl.
    - eapply draws_bind; [apply plot_data_draws|].
      intros rows ->. apply draws_ret. reflexivity.
    - apply draws_ret. reflexivity. }
  intros rows ->.
  apply draws_seq.
  { destruct (p_models plan) as [|m ms] eqn:Hmodels; [draws_band|].
    apply draws_seq; [apply plot_models_draws|]. intros mm.
    apply draws_seq; [apply reset_ylim_draws|]. intros _. draws_band. }
  intros _.
  apply draws_seq; [draws_band|]. intros _.
  apply draws_seq; [draws_band|]. intros _.
  apply draws_seq; [apply plot_pulls_draws|]. intros _.
  apply draws_emit; [|exact I]. simpl. destruct (has_pulls opts plan b); auto.
Qed.

Lemma plot_band_issues axnum wave b :
  issues (plot_band E opts plan axnum wave b) (Subplot (p_nrow plan) ncol axnum b).
Proof. unfold plot_band. cbv zeta. apply issues_bind_l, issues_emit. Qed.

Lemma plot_bands_draws axnum l :
  draws (plot_bands E opts plan axnum l) (loop_cmd E opts plan axnum l) (λ _, True).
Proof.
  revert axnum. induction l as [|[wave b] l IH]; intros axnum; simpl.
  - apply draws_ret. exact I.
  - apply draws_seq.
    + eapply draws_weaken; [apply plot_band_draws| |auto].
      intros c Hc. exists 0%nat, wave, b. split; [reflexivity|].
      replace (axnum + Z.of_nat 0 + 1)%Z with (axnum + 1)%Z by lia. exact Hc.
    + intros _. eapply draws_weaken; [apply IH| |auto].
      intros c (k & w & b' & Hk & Hc). exists (S k), w, b'. split; [exact Hk|].
      replace (axnum + Z.of_nat (S k) + 1)%Z with (axnum + 1 + Z.of_nat k + 1)%Z by lia.
      exact Hc.
Qed.

Lemma plot_bands_issues axnum l k wave b :
  l !! k = Some (wave, b) →
  issues (plot_bands E opts plan axnum l)
         (Subplot (p_nrow plan) ncol (axnum + Z.of_nat k + 1) b).
Proof.
  revert axnum k. induction l as [|[w b'] l IH]; intros axnum k Hk; [discriminate|].
  simpl. destruct k as [|k]; simpl in Hk.
  - injection Hk as -> ->. apply issues_bind_l.
    replace (axnum + Z.of_nat 0 + 1)%Z with (axnum + 1)%Z by lia.
    apply plot_band_issues.
  - apply issues_bind_r. intros _.
    replace (axnum + Z.of_nat (S k) + 1)%Z with (axnum + 1 + Z.of_nat k + 1)%Z by lia.
    apply IH, Hk.
Qed.

Lemma plot_pulls_issues axnum wave b model data :
  p_models plan = [model] → pulls opts = true → bandoverlap model b = true →
  issues (plot_pulls opts plan axnum b (band_color E wave) (Some (band_rows E b data)))
         (pulls_line E opts plan axnum wave b model data).
Proof.
  intros Hmodels Hpulls Hoverlap. unfold plot_pulls. rewrite Hmodels, Hpulls, Hoverlap.
  simpl. apply issues_bind_r. intros _.
  apply issues_bind_val with (P := λ _, True)
                             (Q := λ a, first_model_t0 plan = Returned a).
  { apply draws_lift. auto. }
  intros a Ha. unfold pulls_line. rewrite Ha. apply issues_bind_l, issues_emit.
Qed.

Lemma plot_band_issues_pulls axnum wave b model data :
  p_models plan = [model] → p_data plan = Some data →
  pulls opts = true → bandoverlap model b = true →
  issues (plot_band E opts plan axnum wave b)
         (pulls_line E opts plan axnum wave b model data).
Proof.
  intros Hmodels Hdata Hpulls Hoverlap. unfold plot_band. cbv zeta.
  do 3 (apply issues_bind_r; intros ?).
  apply issues_bind_val with (P := band_cmd E opts plan axnum wave b)
                             (Q := λ rows, rows = Some (band_rows E b data)).
  { rewrite Hdata. eapply draws_bind; [apply plot_data_draws|].
    intros rows ->. apply draws_ret. reflexivity. }
  intros rows ->. do 3 (apply issues_bind_r; intros ?).
  apply issues_bind_l. apply plot_pulls_issues; assumption.
Qed.

Lemma plot_bands_issues_pulls axnum l k wave b model data :
  p_models plan = [model] → p_data plan = Some data →
  pulls opts = true → bandoverlap model b = true →
  l !! k = Some (wave, b) →
  issues (plot_bands E opts plan axnum l)
         (pulls_line E opts plan (axnum + Z.of_nat k + 1) wave b model data).
Proof.
  intros Hmodels Hdata Hpulls Hoverlap.
  revert axnum k. induction l as [|[w b'] l IH]; intros axnum k Hk; [discriminate|].
  simpl. destruct k as [|k]; simpl in Hk.
  - injection Hk as -> ->. apply issues_bind_l.
    replace (axnum + Z.of_nat 0 + 1)%Z with (axnum + 1)%Z by lia.
    apply plot_band_issues_pulls; assumption.
  - apply issues_bind_r. intros _.
    replace (axnum + Z.of_nat (S k) + 1)%Z with (axnum + 1 + Z.of_nat k + 1)%Z by lia.
    apply IH, Hk.
Qed.

Lemma render_issues_pulls k wave b model data :
  p_models plan = [model] → p_data plan = Some data →
  pulls opts = true → bandoverlap model b = true →
  sorted_bands (p_bands plan) !! k = Some (wave, b) →
  issues (render E opts plan)
         (pulls_line E opts plan (Z.of_nat k + 1) wave b model data).
Proof.
  intros Hmodels Hdata Hpulls Hoverlap Hk. unfold render.
  apply issues_bind_r. intros _. apply issues_bind_r. intros _.
  apply issues_bind_l.
  apply (plot_bands_issues_pulls 0 _ k wave b model data); assumption.
Qed.

Lemma render_draws :
  draws (render E opts plan) (figure_cmd E opts plan) (λ _, True).
Proof.
  unfold render.
  apply draws_seq; [apply draws_emit; simpl; auto|]. intros _.
  apply draws_seq.
  { destruct (bool_decide _); [|apply draws_ret; exact I].
    apply for_each_draws. intros [i [s|]]; simpl; [|apply draws_ret; exact I].
    apply draws_emit; simpl; auto. }
  intros _. apply draws_seq.
  { eapply draws_weaken; [apply plot_bands_draws| |auto].
    intros c Hc. destruct c; simpl; auto. }
  intros _. apply draws_seq; [draws_band|]. intros top.
  apply draws_seq; [draws_band|]. intros _.
  apply draws_seq; [draws_band|]. intros _. draws_band.
Qed.

Lemma render_issues k wave b :
  sorted_bands (p_bands plan) !! k = Some (wave, b) →
  issues (render E opts plan) (Subplot (p_nrow plan) ncol (Z.of_nat k + 1) b).
Proof.
  intros Hk. unfold render.
  apply issues_bind_r. intros _. apply issues_bind_r. intros _.
  apply issues_bind_l. apply (plot_bands_issues 0 _ k wave b Hk).
Qed.

End BandFacts.

(** * Before the figure: the caller's objects *)

Lemma writes_within_refl o : writes_within o o.
Proof.
  repeat split; auto. destruct (o_figtext o); eauto.
Qed.

Lemma writes_within_trans o1 o2 o3 :
  writes_within o1 o2 → writes_within o2 o3 → writes_within o1 o3.
Proof.
  intros ((Hd & Hm & Hb & He) & Ho & Hf) ((Hd' & Hm' & Hb' & He') & Ho' & Hf').
  repeat split; try congruence.
  - auto.
  - destruct (o_figtext o1) eqn:H1.
    + rewrite Hf in Hf'. exact Hf'.
    + rewrite Hf in Hf'. exact Hf'.
    + destruct Hf as [l' Hf]. rewrite Hf in Hf'. exact Hf'.
Qed.

Section PrepRules.

Context {A B : Type}.

Lemma confined_bind (m : Prep A) (k : A → Prep B) :
  confined m → (∀ a, confined (k a)) → confined (m ≫= k).
Proof.
  intros Hm Hk o. unfold mbind, Prep_bind, prep_bind.
  specialize (Hm o). destruct (m o) as [o1 [a|e]]; simpl in *; [|exact Hm].
  eapply writes_within_trans; [exact Hm | apply Hk].
Qed.

Lemma confined_ret (a : A) : confined (mret a : Prep A).
Proof. intros o. apply writes_within_refl. Qed.

Lemma confined_arg (f : Objects → A) : confined (arg f).
Proof. intros o. apply writes_within_refl. Qed.

Lemma confined_lift (r : outcome A) : confined (prep_lift r).
Proof. intros o. apply writes_within_refl. Qed.

Lemma confined_raise (e : exn) : confined (prep_raise e : Prep A).
Proof. intros o. apply writes_within_refl. Qed.

End PrepRules.

Ltac confined_step :=
  lazymatch goal with
  | |- confined (mret _) => apply confined_ret
  | |- confined (arg _) => apply confined_arg
  | |- confined (prep_lift _) => apply confined_lift
  | |- confined (prep_raise _) => apply confined_raise
  | |- confined (_ ≫= _) => apply confined_bind; [|intros ?]
  | |- confined (if ?c then _ else _) => destruct c
  | |- confined (match ?x with _ => _ end) => destruct x
  end.

Section PrepFacts.

Variable E : Extern.
Variable opts : Options.

Lemma normalise_offsets_confined bands : confined (normalise_offsets E bands).
Proof.
  intros o. unfold normalise_offsets.
  destruct (o_offsets o) as [d|] eqn:Hd; [|apply writes_within_refl].
  destruct (rekey_offsets E (map_to_list d) d) as [d1 [[]|e]]; simpl;
    (repeat split; simpl; try congruence; destruct (o_figtext o); eauto).
Qed.

Lemma figtext_append_confined s figtext : confined (figtext_append s figtext).
Proof.
  intros o. unfold figtext_append.
  destruct (o_figtext o) eqn:Hf; simpl; try apply writes_within_refl.
  repeat split; simpl; auto. rewrite Hf. eauto.
Qed.

Lemma build_figtext_confined models : confined (build_figtext E models).
Proof.
  unfold build_figtext. do 2 (confined_step; [confined_step|]).
  destruct models as [|model [|m2 ms]]; try apply confined_ret.
  confined_step; [confined_step|].
  confined_step; apply figtext_append_confined.
Qed.

Lemma prepare_confined : confined (prepare E opts).
Proof.
  unfold prepare.
  confined_step. { unfold check_arguments. repeat confined_step. }
  confined_step. { unfold get_models. repeat confined_step. }
  confined_step. { unfold get_data. repeat confined_step. }
  confined_step; [confined_step|].
  confined_step; [confined_step|].
  confined_step; [apply normalise_offsets_confined|].
  confined_step; [confined_step|].
  confined_step; [apply build_figtext_confined|].
  confined_step; [confined_step|].
  destruct (bool_decide _); apply confined_ret.
Qed.

(** Steps that leave the objects as they are. *)
Lemma check_arguments_run o : fst (check_arguments o) = o.
Proof.
  unfold check_arguments, mbind, Prep_bind, prep_bind, arg. simpl.
  destruct (o_data o), (o_model o), (o_bands o); reflexivity.
Qed.

Lemma get_models_run o :
  get_models o =
  (o, if forallb isinstance_ObsModel (model_list (o_model o))
      then Returned (obs_models (model_list (o_model o)))
      else Raised (TypeError "model(s) must be ObsModel instance(s)")).
Proof.
  unfold get_models, mbind, Prep_bind, prep_bind, arg. simpl.
  destruct (forallb _ _); reflexivity.
Qed.

Lemma build_figtext_offsets models o :
  o_offsets (fst (build_figtext E models o)) = o_offsets o.
Proof.
  unfold build_figtext, mbind, Prep_bind, prep_bind, arg. simpl.
  destruct models as [|model [|m2 ms]]; try reflexivity.
  unfold prep_lift. destruct (mapM _ _) as [lines|e]; [|reflexivity].
  unfold figtext_append. destruct (o_figtext o) eqn:Hf; simpl; rewrite ?Hf; reflexivity.
Qed.

Lemma normalise_offsets_inputs bands o :
  o_data (fst (normalise_offsets E bands o)) = o_data o ∧
  o_bands (fst (normalise_offsets E bands o)) = o_bands o.
Proof.
  destruct (normalise_offsets_confined bands o) as ((Hd & _ & Hb & _) & _).
  split; assumption.
Qed.

(** What a returned plan holds. *)
Lemma prepare_returned o o' plan :
  prepare E opts o = (o', Returned plan) →
  select_bands E (normalised E opts o) (o_bands o)
    = Returned (selected_bands E opts o) ∧
  p_bands plan = elements (selected_bands E opts o) ∧
  p_data plan = normalised E opts o ∧
  p_models plan = obs_models (model_list (o_model o)) ∧
  p_offsets plan = o_offsets o' ∧
  p_nrow plan = nrow_of (Z.of_nat (length (p_bands plan))).
Proof.
  unfold prepare, mbind, Prep_bind, prep_bind. intros H.
  pose proof (check_arguments_run o) as Hck.
  destruct (check_arguments o) as [o1 [[]|e]]; [|discriminate].
  simpl in Hck. subst o1. rewrite get_models_run in H.
  destruct (forallb _ _); [|discriminate].
  unfold get_data, mbind, Prep_bind, prep_bind, arg, prep_lift in H. simpl in H.
  fold (normalised E opts o) in H.
  unfold selected_bands.
  destruct (select_bands E (normalised E opts o) (o_bands o)) as [s|e]; [|discriminate].
  destruct (normalise_offsets E (elements s) o) as [o1 [[]|e]]; [|discriminate].
  pose proof (build_figtext_offsets (obs_models (model_list (o_model o))) o1) as Hoff.
  destruct (build_figtext E _ o1) as [o2 [figtext|e]]; [|discriminate].
  simpl in Hoff.
  destruct (figure_size opts _) as [figsize|e]; [|discriminate].
  destruct (bool_decide _); injection H as <- <-; simpl; repeat split; congruence.
Qed.

End PrepFacts.

(** * The order of the bands *)

Global Instance pair_le_total : Total pair_le.
Proof.
  intros [w1 b1] [w2 b2]. unfold pair_le. simpl.
  destruct (Q_dec w1 w2) as [[Hlt|Hgt]|Heq]; [left; left; exact Hlt|right; left; exact Hgt|].
  destruct (decide (band_id b1 ≤ band_id b2)%positive) as [Hle|Hge].
  - left. right. split; [exact Heq | exact Hle].
  - right. right. split; [symmetry; exact Heq | lia].
Qed.

Global Instance pair_le_trans : Transitive pair_le.
Proof.
  intros [w1 b1] [w2 b2] [w3 b3]. unfold pair_le. simpl.
  intros [H12|[H12 Hi12]] [H23|[H23 Hi23]].
  - left. eapply Qlt_trans; eassumption.
  - left. rewrite <- H23. exact H12.
  - left. rewrite H12. exact H23.
  - right. split; [rewrite H12; exact H23 | lia].
Qed.

Lemma zip_waves (bands : list Bandpass) :
  zip (wave_eff <$> bands) bands = (λ b, (wave_eff b, b)) <$> bands.
Proof. induction bands as [|b l IH]; simpl; [reflexivity|]. f_equal. exact IH. Qed.

Lemma sorted_bands_elem w b bands :
  (w, b) ∈ sorted_bands bands ↔ w = wave_eff b ∧ b ∈ bands.
Proof.
  unfold sorted_bands. rewrite merge_sort_Permutation, zip_waves, list_elem_of_fmap.
  split.
  - intros (b' & [= -> ->] & Hb). auto.
  - intros [-> Hb]. exists b. auto.
Qed.

Lemma sorted_bands_length bands : length (sorted_bands bands) = length bands.
Proof.
  unfold sorted_bands. rewrite merge_sort_Permutation, zip_waves. apply length_fmap.
Qed.

Lemma sorted_bands_sorted bands : StronglySorted pair_le (sorted_bands bands).
Proof. apply StronglySorted_merge_sort; apply _. Qed.

Lemma StronglySorted_lookup_le {A} (R : relation A) (l : list A) i j x y :
  StronglySorted R l → (i < j)%nat → l !! i = Some x → l !! j = Some y → R x y.
Proof.
  intros Hs. revert i j. induction Hs as [|a l Hs IH Hall]; intros i j Hij Hi Hj.
  - discriminate.
  - destruct j as [|j]; [lia|]. simpl in Hj. destruct i as [|i]; simpl in Hi.
    + injection Hi as ->. rewrite Forall_forall in Hall.
      apply Hall. eapply list_elem_of_lookup_2, Hj.
    + apply (IH i j); [lia|assumption|assumption].
Qed.

(** * The commands of a call *)

Section CallFacts.

Variable E : Extern.
Variable opts : Options.

Lemma plot_lc_command o c :
  c ∈ commands (plot_lc E opts o) →
  ∃ plan, prepare E opts o = (objects (plot_lc E opts o), Returned plan) ∧
          figure_cmd E opts plan c.
Proof.
  unfold plot_lc. destruct (prepare E opts o) as [o' [plan|e]]; simpl.
  - pose proof (render_draws E opts plan []) as [Hall _].
    destruct (render E opts plan []) as [cmds r]. simpl in *.
    intros Hc. exists plan. split; [reflexivity|].
    rewrite Forall_forall in Hall. apply Hall, Hc.
  - intros Hc. apply elem_of_nil in Hc. contradiction.
Qed.

Lemma plot_lc_returned o :
  result (plot_lc E opts o) = Returned tt →
  ∃ plan, prepare E opts o = (objects (plot_lc E opts o), Returned plan) ∧
    ∀ k wave b, sorted_bands (p_bands plan) !! k = Some (wave, b) →
      Subplot (p_nrow plan) ncol (Z.of_nat k + 1) b ∈ commands (plot_lc E opts o).
Proof.
  unfold plot_lc. destruct (prepare E opts o) as [o' [plan|e]]; simpl; [|discriminate].
  pose proof (λ k wave b H, render_issues E opts plan k wave b H []) as Hiss.
  destruct (render E opts plan []) as [cmds r]. simpl in *.
  intros ->. exists plan. split; [reflexivity|].
  intros k wave b Hk. apply (Hiss k wave b Hk). reflexivity.
Qed.

Lemma plot_lc_returned_pulls o o' plan k wave b model data :
  result (plot_lc E opts o) = Returned tt →
  prepare E opts o = (o', Returned plan) →
  p_models plan = [model] → p_data plan = Some data →
  pulls opts = true → bandoverlap model b = true →
  sorted_bands (p_bands plan) !! k = Some (wave, b) →
  pulls_line E opts plan (Z.of_nat k + 1) wave b model data
    ∈ commands (plot_lc E opts o).
Proof.
  unfold plot_lc. intros Hret Hprep Hmodels Hdata Hpulls Hoverlap Hk.
  rewrite Hprep in *.
  pose proof (render_issues_pulls E opts plan k wave b model data
                Hmodels Hdata Hpulls Hoverlap Hk []) as Hiss.
  destruct (render E opts plan []) as [cmds r]. simpl in *.
  apply Hiss. rewrite Hret. reflexivity.
Qed.

Lemma subplot_command plan r cols n b :
  figure_cmd E opts plan (Subplot r cols n b) →
  ∃ k, sorted_bands (p_bands plan) !! k = Some (wave_eff b, b) ∧
       n = (Z.of_nat k + 1)%Z ∧ r = p_nrow plan ∧ cols = ncol.
Proof.
  simpl. intros (k & w & b' & Hk & Hr & Hc & Hn & Hb). subst b'.
  assert (w = wave_eff b) as ->.
  { apply (sorted_bands_elem w b (p_bands plan)). eapply list_elem_of_lookup_2, Hk. }
  exists k. repeat split; auto; lia.
Qed.

Lemma pull_command plan n x y ls mk col lbl :
  figure_cmd E opts plan (Draw (PullAxes n) (Line x y ls mk col lbl)) →
  ∃ k b, sorted_bands (p_bands plan) !! k = Some (wave_eff b, b) ∧
         n = (Z.of_nat k + 1)%Z ∧ col = band_color E (wave_eff b) ∧
         pull_line E opts plan b y.
Proof.
  simpl. intros (k & w & b & Hk & Hn & Hcol & Hy).
  assert (w = wave_eff b) as ->.
  { apply (sorted_bands_elem w b (p_bands plan)). eapply list_elem_of_lookup_2, Hk. }
  exists k, b. repeat split; auto; lia.
Qed.

Lemma draw_command plan ax a :
  figure_cmd E opts plan (Draw ax a) →
  ∃ k b, sorted_bands (p_bands plan) !! k = Some (wave_eff b, b) ∧
         axes_number ax = (Z.of_nat k + 1)%Z ∧
         artist_of E opts plan (wave_eff b) b ax a.
Proof.
  simpl. intros (k & w & b & Hk & Hn & Ha).
  assert (w = wave_eff b) as ->.
  { apply (sorted_bands_elem w b (p_bands plan)). eapply list_elem_of_lookup_2, Hk. }
  exists k, b. repeat split; auto; lia.
Qed.

(** What is drawn in the axes of a band has the colour of the band. *)
Lemma artist_colour o r cols n b ax a :
  Subplot r cols n b ∈ commands (plot_lc E opts o) →
  Draw ax a ∈ commands (plot_lc E opts o) →
  axes_number ax = n →
  match a with
  | Errorbar _ _ _ color | Line _ _ _ _ color _ => color = band_color E (wave_eff b)
  | _ => True
  end.
Proof.
  intros Hsub Hdraw Hax.
  destruct (plot_lc_command o _ Hsub) as (plan & Hprep & Hfig1).
  destruct (plot_lc_command o _ Hdraw) as (plan' & Hprep' & Hfig2).
  rewrite Hprep in Hprep'. injection Hprep' as <-.
  destruct (subplot_command plan _ _ _ _ Hfig1) as (k & Hk & Hn & _).
  destruct (draw_command plan _ _ Hfig2) as (k' & b' & Hk' & Hn' & Ha).
  assert (k' = k) as -> by lia.
  rewrite Hk in Hk'. injection Hk' as _ <-.
  destruct a; try exact I; simpl in Ha; [exact Ha|apply Ha].
Qed.

Lemma rendered_bands_elem b cmds :
  b ∈ rendered_bands cmds ↔ ∃ r cols n, Subplot r cols n b ∈ cmds.
Proof.
  unfold rendered_bands. rewrite list_elem_of_omap. split.
  - intros (c & Hc & Hb). destruct c; try discriminate.
    injection Hb as ->. eauto.
  - intros (r & cols & n & Hc). eexists. split; [exact Hc|reflexivity].
Qed.

End CallFacts.

(** * Which bands are plotted, where and in what order *)

Section Selection.

Variable E : Extern.
Variable opts : Options.

Local Open Scope Q_scope.

Lemma selected_bands_spec o b :
  b ∈ selected_bands E opts o ↔
  match o_data o, o_bands o with
  | Some d, None =>
      b ∈ bands_in E (normalize_data E (standardize_data E d) (zp opts) (zpsys opts))
  | Some d, Some bs =>
      b ∈ bands_requested E bs ∧
      b ∈ bands_in E (normalize_data E (standardize_data E d) (zp opts) (zpsys opts))
  | None, Some bs => b ∈ bands_requested E bs
  | None, None => False
  end.
Proof.
  unfold selected_bands, select_bands, normalised, bandpass_set, bands_in, bands_requested.
  destruct (o_data o) as [d|], (o_bands o) as [bs|]; simpl.
  - rewrite elem_of_intersection, !elem_of_list_to_set. reflexivity.
  - rewrite elem_of_list_to_set. reflexivity.
  - rewrite elem_of_list_to_set. reflexivity.
  - apply elem_of_empty.
Qed.

(** A subplot is always made for a selected band, and its place in the
    sorted list gives its number. *)
Lemma subplot_of_call o r cols n b :
  Subplot r cols n b ∈ commands (plot_lc E opts o) →
  ∃ k, sorted_bands (elements (selected_bands E opts o)) !! k = Some (wave_eff b, b) ∧
       n = (Z.of_nat k + 1)%Z ∧ cols = ncol ∧
       r = nrow_of (Z.of_nat (size (selected_bands E opts o))).
Proof.
  intros Hc. destruct (plot_lc_command E opts o _ Hc) as (plan & Hprep & Hfig).
  destruct (prepare_returned E opts _ _ _ Hprep) as (_ & Hbands & _ & _ & _ & Hnrow).
  destruct (subplot_command E opts plan _ _ _ _ Hfig) as (k & Hk & Hn & Hr & Hcols).
  exists k. rewrite <- Hbands. repeat split; auto.
  rewrite Hr, Hnrow, Hbands. reflexivity.
Qed.

Lemma subplot_when_returned o b :
  result (plot_lc E opts o) = Returned tt →
  b ∈ selected_bands E opts o →
  ∃ k, Subplot (nrow_of (Z.of_nat (size (selected_bands E opts o)))) ncol
               (Z.of_nat k + 1) b ∈ commands (plot_lc E opts o).
Proof.
  intros Hret Hb. destruct (plot_lc_returned E opts o Hret) as (plan & Hprep & Hiss).
  destruct (prepare_returned E opts _ _ _ Hprep) as (_ & Hbands & _ & _ & _ & Hnrow).
  assert ((wave_eff b, b) ∈ sorted_bands (p_bands plan)) as Hin.
  { apply sorted_bands_elem. split; [reflexivity|].
    rewrite Hbands. apply elem_of_elements, Hb. }
  apply list_elem_of_lookup_1 in Hin as [k Hk]. exists k.
  specialize (Hiss k _ _ Hk). rewrite Hnrow, Hbands in Hiss. exact Hiss.
Qed.

Lemma rendered_iff_selected o b :
  result (plot_lc E opts o) = Returned tt →
  b ∈ rendered_bands (commands (plot_lc E opts o)) ↔ b ∈ selected_bands E opts o.
Proof.
  intros Hret. rewrite rendered_bands_elem. split.
  - intros (r & cols & n & Hc).
    destruct (subplot_of_call o r cols n b Hc) as (k & Hk & _).
    apply list_elem_of_lookup_2, sorted_bands_elem in Hk as [_ Hk].
    apply elem_of_elements, Hk.
  - intros Hb. destruct (subplot_when_returned o b Hret Hb) as [k Hk]. eauto.
Qed.

(** C1: the bands a call selects for plotting (line 143), and makes its
    subplots for, are the bands of the data if no band list was given, the
    requested bands that occur in the data if both were given, and the
    requested bands if no data was given: a subplot is only ever made for such
    a band, and a call that returns has made one for each of them. *)
Theorem rendered_bands_selected o b :
  let chosen :=
    match o_data o, o_bands o with
    | Some d, None =>
        b ∈ bands_in E (normalize_data E (standardize_data E d) (zp opts) (zpsys opts))
    | Some d, Some bs =>
        b ∈ bands_requested E bs ∧
        b ∈ bands_in E (normalize_data E (standardize_data E d) (zp opts) (zpsys opts))
    | None, Some bs => b ∈ bands_requested E bs
    | None, None => False
    end in
  (∀ o' plan, prepare E opts o = (o', Returned plan) → (b ∈ p_bands plan ↔ chosen)) ∧
  (b ∈ rendered_bands (commands (plot_lc E opts o)) → chosen) ∧
  (result (plot_lc E opts o) = Returned tt → chosen →
   b ∈ rendered_bands (commands (plot_lc E opts o))).
Proof.
  intros chosen. split; [|split].
  - intros o' plan Hprep.
    destruct (prepare_returned E opts _ _ _ Hprep) as (_ & Hbands & _).
    rewrite Hbands, elem_of_elements. apply selected_bands_spec.
  - intros Hb. apply selected_bands_spec.
    apply rendered_bands_elem in Hb as (r & cols & n & Hc).
    destruct (subplot_of_call o r cols n b Hc) as (k & Hk & _).
    apply list_elem_of_lookup_2, sorted_bands_elem in Hk as [_ Hk].
    apply elem_of_elements, Hk.
  - intros Hret Hb. apply (rendered_iff_selected o b Hret).
    apply selected_bands_spec, Hb.
Qed.

End Selection.

Lemma nrow_of_ceiling (n : Z) : nrow_of n = Qceiling (inject_Z n / 2)%Q.
Proof.
  unfold nrow_of, ncol, Qceiling, Qfloor, Qdiv, Qmult, Qinv, Qopp, inject_Z. simpl.
  Z.to_euclidean_division_equations. lia.
Qed.



(** C10: of two bands with a subplot each, the one with the smaller effective
    wavelength has the smaller subplot number; and when the call returns,
    every selected band has a subplot. *)
Theorem subplots_by_wavelength E opts o b1 b2 :
  (wave_eff b1 < wave_eff b2)%Q →
  (∀ r1 c1 n1 r2 c2 n2,
      Subplot r1 c1 n1 b1 ∈ commands (plot_lc E opts o) →
      Subplot r2 c2 n2 b2 ∈ commands (plot_lc E opts o) →
      (n1 < n2)%Z) ∧
  (result (plot_lc E opts o) = Returned tt →
   b1 ∈ selected_bands E opts o → b2 ∈ selected_bands E opts o →
   ∃ r c n1 n2,
      Subplot r c n1 b1 ∈ commands (plot_lc E opts o) ∧
      Subplot r c n2 b2 ∈ commands (plot_lc E opts o) ∧ (n1 < n2)%Z).
Proof.
  intros Hw.
  assert (∀ r1 c1 n1 r2 c2 n2,
      Subplot r1 c1 n1 b1 ∈ commands (plot_lc E opts o) →
      Subplot r2 c2 n2 b2 ∈ commands (plot_lc E opts o) →
      (n1 < n2)%Z) as Horder.
  { intros r1 c1 n1 r2 c2 n2 H1 H2.
    destruct (subplot_of_call E opts o _ _ _ _ H1) as (k1 & Hk1 & -> & _).
    destruct (subplot_of_call E opts o _ _ _ _ H2) as (k2 & Hk2 & -> & _).
    destruct (Nat.lt_trichotomy k1 k2) as [Hlt|[Heq|Hgt]]; [lia| |].
    - subst k2. rewrite Hk1 in Hk2. injection Hk2 as Hwave _.
      rewrite Hwave in Hw. exfalso. exact (Qlt_irrefl _ Hw).
    - pose proof (StronglySorted_lookup_le _ _ _ _ _ _
                    (sorted_bands_sorted _) Hgt Hk2 Hk1) as [Hlt|[Heq _]]; simpl in *.
      + exfalso. exact (Qlt_irrefl _ (Qlt_trans _ _ _ Hw Hlt)).
      + rewrite Heq in Hw. exfalso. exact (Qlt_irrefl _ Hw). }
  split; [exact Horder|].
  intros Hret Hb1 Hb2.
  destruct (subplot_when_returned E opts o b1 Hret Hb1) as [k1 H1].
  destruct (subplot_when_returned E opts o b2 Hret Hb2) as [k2 H2].
  eexists _, _, _, _. split; [exact H1|]. split; [exact H2|].
  exact (Horder _ _ _ _ _ _ H1 H2).
Qed.

Lemma subplots_by_wavelength_witness :
  ∃ n1 n2,
    Subplot 1 2 n1 Demo.sdssg ∈ commands (plot_lc Demo.extern default_options Demo.call_data) ∧
    Subplot 1 2 n2 Demo.sdssr ∈ commands (plot_lc Demo.extern default_options Demo.call_data) ∧
    (n1 < n2)%Z.
Proof.
  assert (wave_eff Demo.sdssg < wave_eff Demo.sdssr)%Q as Hw by reflexivity.
  destruct (proj2 (subplots_by_wavelength Demo.extern default_options Demo.call_data
                     Demo.sdssg Demo.sdssr Hw))
    as (r & c & n1 & n2 & H1 & H2 & Hlt).
  - vm_compute. reflexivity.
  - apply (selected_bands_spec Demo.extern default_options Demo.call_data).
    vm_compute. apply list_elem_of_In. simpl. tauto.
  - apply (selected_bands_spec Demo.extern default_options Demo.call_data).
    vm_compute. apply list_elem_of_In. simpl. tauto.
  - exists 1%Z, 2%Z. split; [|split; [|lia]].
    + vm_compute. apply list_elem_of_In. simpl. tauto.
    + vm_compute. apply list_elem_of_In. simpl. tauto.
Defined.

Lemma rendered_bands_selected_witness :
  Demo.sdssg ∈ rendered_bands (commands (plot_lc Demo.extern default_options Demo.call_data)).
Proof.
  apply (proj2 (proj2 (rendered_bands_selected Demo.extern default_options
                         Demo.call_data Demo.sdssg))).
  - vm_compute. reflexivity.
  - vm_compute. apply list_elem_of_In. simpl. tauto.
Defined.

(** * Errors before the figure *)

(** C4: without data, a call with no model raises, and so does a call with
    a model and no band list; both raise before matplotlib receives a
    command, and leave the caller's objects as they were. *)
Theorem plot_lc_requires_inputs E opts o :
  o_data o = None →
  (o_model o = ModelNone →
   plot_lc E opts o =
   mkResult o [] (Raised (ValueError "must specify at least one of: data, model"))) ∧
  (o_model o ≠ ModelNone → o_bands o = None →
   plot_lc E opts o =
   mkResult o [] (Raised (ValueError "must specify bands to plot for model(s)"))).
Proof.
  intros Hdata. unfold plot_lc, prepare, check_arguments, mbind, Prep_bind, prep_bind, arg.
  simpl. rewrite Hdata. split.
  - intros ->. reflexivity.
  - intros Hmodel ->. destruct (o_model o); [contradiction|reflexivity|reflexivity].
Qed.

Lemma plot_lc_requires_inputs_witness :
  plot_lc Demo.extern default_options Demo.call_nothing =
  mkResult Demo.call_nothing []
    (Raised (ValueError "must specify at least one of: data, model")) ∧
  plot_lc Demo.extern default_options Demo.call_model_only =
  mkResult Demo.call_model_only []
    (Raised (ValueError "must specify bands to plot for model(s)")).
Proof.
  split.
  - apply (plot_lc_requires_inputs Demo.extern default_options Demo.call_nothing);
      reflexivity.
  - apply (plot_lc_requires_inputs Demo.extern default_options Demo.call_model_only);
      [reflexivity|discriminate|reflexivity].
Defined.

(** Both figure sizes given: the call raises, and matplotlib receives
    nothing. *)
Lemma figure_size_both opts nrow x y :
  xfigsize opts = Some x → yfigsize opts = Some y →
  figure_size opts nrow = Raised (ValueError "cannot specify both xfigsize and yfigsize").
Proof. intros Hx Hy. unfold figure_size. rewrite Hx, Hy. reflexivity. Qed.

Lemma plot_lc_both_figsizes E opts o x y :
  xfigsize opts = Some x → yfigsize opts = Some y →
  commands (plot_lc E opts o) = [] ∧ ∃ e, result (plot_lc E opts o) = Raised e.
Proof.
  intros Hx Hy. unfold plot_lc.
  destruct (prepare E opts o) as [o' [plan|e]] eqn:Hprep; simpl; [|eauto].
  exfalso. revert Hprep. unfold prepare, mbind, Prep_bind, prep_bind.
  destruct (check_arguments o) as [o1 [[]|e]]; [|discriminate].
  destruct (get_models o1) as [o2 [models|e]]; [|discriminate].
  destruct (get_data E opts o2) as [o3 [data|e]]; [|discriminate].
  destruct (arg o_bands o3) as [o4 [bands|e]]; [|discriminate].
  destruct (prep_lift _ o4) as [o5 [s|e]]; [|discriminate].
  destruct (normalise_offsets E _ o5) as [o6 [[]|e]]; [|discriminate].
  destruct (arg o_offsets o6) as [o7 [offsets|e]]; [|discriminate].
  destruct (build_figtext E models o7) as [o8 [figtext|e]]; [|discriminate].
  unfold prep_lift. rewrite (figure_size_both opts _ x y Hx Hy). discriminate.
Qed.

(** One figure size given and at least one row of subplots: the figure size
    is computed. *)
Lemma figure_size_one opts nrow :
  (xfigsize opts = None ∨ yfigsize opts = None) → nrow ≠ 0%Z →
  is_returned (figure_size opts nrow) = true.
Proof.
  intros Hone Hnrow. unfold figure_size, truediv.
  destruct (xfigsize opts) as [x|], (yfigsize opts) as [y|]; try reflexivity.
  - destruct Hone; discriminate.
  - destruct (Qeq_bool (inject_Z nrow) 0) eqn:Hz; [|reflexivity].
    apply Qeq_bool_eq in Hz. exfalso. apply Hnrow.
    unfold Qeq in Hz. simpl in Hz. lia.
Qed.

(** C7, the call the claim fails on: with [yfigsize] alone and no band to
    plot, line 192 divides by a row count of zero; the same call with
    [xfigsize] alone, or with neither, returns. *)
Theorem yfigsize_alone_divides_by_zero :
  plot_lc Demo.extern Demo.opts_yfigsize Demo.call_no_band =
    mkResult Demo.call_no_band [] (Raised ZeroDivisionError) ∧
  result (plot_lc Demo.extern Demo.opts_xfigsize Demo.call_no_band) = Returned tt ∧
  result (plot_lc Demo.extern default_options Demo.call_no_band) = Returned tt.
Proof. split; [|split]; vm_compute; reflexivity. Qed.

(** * The colour of a band *)

Section Colour.

Variable E : Extern.

Local Open Scope Q_scope.

Lemma color_fraction_affine w : color_fraction w == (10 # 7) + (-1 # 7000) * w.
Proof. unfold color_fraction, cm_wave_range. simpl. field. Qed.

Lemma cmap_under x : x <= 0 → cmap E x = cmap E 0.
Proof.
  intros Hx. unfold cmap. f_equal.
  assert (Qfloor (x * inject_Z cmap_N) ≤ 0)%Z as Hfloor.
  { change 0%Z with (Qfloor 0). apply Qfloor_resp_le.
    unfold cmap_N. change (inject_Z 256) with 256. Lqa.lra. }
  change (Qfloor (0 * inject_Z cmap_N)) with 0%Z. unfold cmap_N in *. lia.
Qed.

Lemma cmap_over x : 1 <= x → cmap E x = cmap E 1.
Proof.
  intros Hx. unfold cmap. f_equal.
  assert (256 ≤ Qfloor (x * inject_Z cmap_N))%Z as Hfloor.
  { change 256%Z with (Qfloor 256). apply Qfloor_resp_le.
    unfold cmap_N. change (inject_Z 256) with 256. Lqa.lra. }
  change (Qfloor (1 * inject_Z cmap_N)) with 256%Z. unfold cmap_N in *. lia.
Qed.

(** C6: what [plot_lc] draws for a band has the colour the map gives to a
    fraction that is an affine function of the effective wavelength, 1 at
    3000 and 0 at 10000; over 3000-10000 the fraction stays within [0, 1] and
    falls as the wavelength grows; and a band outside that range gets the
    colour of the nearer end of the map, the fraction being clamped to [0, 1]
    by the map. *)
Theorem band_color_by_wavelength :
  (∀ opts o r cols n b ax a,
     Subplot r cols n b ∈ commands (plot_lc E opts o) →
     Draw ax a ∈ commands (plot_lc E opts o) →
     axes_number ax = n →
     match a with
     | Errorbar _ _ _ color | Line _ _ _ _ color _ =>
         color = band_color E (wave_eff b)
     | _ => True
     end) ∧
  (∀ w, color_fraction w == (10 # 7) + (-1 # 7000) * w) ∧
  color_fraction 3000 == 1 ∧ color_fraction 10000 == 0 ∧
  (∀ w1 w2, 3000 <= w1 → w1 <= w2 → w2 <= 10000 →
     0 <= color_fraction w2 ∧ color_fraction w2 <= color_fraction w1 ∧
     color_fraction w1 <= 1 ∧
     (w1 < w2 → color_fraction w2 < color_fraction w1)) ∧
  (∀ w, w <= 3000 → band_color E w = cmap E 1) ∧
  (∀ w, 10000 <= w → band_color E w = cmap E 0) ∧
  (∀ w, band_color E w = cmap E (Qmax 0 (Qmin 1 (color_fraction w)))).
Proof.
  split; [intros opts; apply artist_colour|].
  split; [exact color_fraction_affine|].
  split; [reflexivity|]. split; [reflexivity|]. split; [|split; [|split]].
  - intros w1 w2 Hlo Hle Hhi.
    pose proof (color_fraction_affine w1) as H1.
    pose proof (color_fraction_affine w2) as H2.
    revert H1 H2. generalize (color_fraction w1) (color_fraction w2).
    intros f1 f2 H1 H2.
    split; [Lqa.lra|]. split; [Lqa.lra|]. split; [Lqa.lra|]. intros Hlt. Lqa.lra.
  - intros w Hw. unfold band_color. apply cmap_over.
    pose proof (color_fraction_affine w) as H1.
    revert H1. generalize (color_fraction w). intros f H1. Lqa.lra.
  - intros w Hw. unfold band_color. apply cmap_under.
    pose proof (color_fraction_affine w) as H1.
    revert H1. generalize (color_fraction w). intros f H1. Lqa.lra.
  - intros w. unfold band_color. generalize (color_fraction w). intros f.
    destruct (Qlt_le_dec f 0) as [Hneg|Hpos].
    + rewrite cmap_under by Lqa.lra. symmetry. apply cmap_under.
      apply Q.max_lub; [Lqa.lra|].
      apply (Qle_trans _ f); [apply Q.le_min_r|Lqa.lra].
    + destruct (Qlt_le_dec 1 f) as [Hbig|Hsmall].
      * rewrite cmap_over by Lqa.lra. symmetry. apply cmap_over.
        apply (Qle_trans _ (Qmin 1 f)); [|apply Q.le_max_r].
        apply Q.min_glb; Lqa.lra.
      * unfold cmap. f_equal. f_equal. f_equal. apply Qfloor_comp.
        rewrite (Q.min_r 1 f) by exact Hsmall.
        rewrite Q.max_r by exact Hpos. reflexivity.
Qed.

End Colour.

Lemma band_color_by_wavelength_witness :
  (0 <= color_fraction 6200 ∧ color_fraction 6200 <= color_fraction 4700 ∧
   color_fraction 4700 <= 1 ∧ (4700 < 6200 → color_fraction 6200 < color_fraction 4700))%Q ∧
  band_color Demo.extern 2500 = cmap Demo.extern 1 ∧
  band_color Demo.extern 12000 = cmap Demo.extern 0 ∧
  (193 # 255, 62 # 255, 0, 1)%Q = band_color Demo.extern (wave_eff Demo.sdssg).
Proof.
  destruct (band_color_by_wavelength Demo.extern)
    as (Hdrawn & _ & _ & _ & Hmono & Hblue & Hred & _).
  split; [|split; [|split]]; cycle 3.
  { apply (Hdrawn default_options Demo.call_data 1%Z 2%Z 1%Z Demo.sdssg
             (MainAxes 1) (Errorbar [1] [4] [2] (193 # 255, 62 # 255, 0, 1))%Q).
    - vm_compute. apply list_elem_of_In. simpl. tauto.
    - vm_compute. apply list_elem_of_In. simpl. tauto.
    - reflexivity. }
  - apply Hmono; vm_compute; discriminate.
  - apply Hblue. vm_compute. discriminate.
  - apply Hred. vm_compute. discriminate.
Defined.

(** * The pulls *)

Section Pulls.

Variable E : Extern.
Variable opts : Options.

Local Open Scope Q_scope.

(** The array of line 302, point by point. *)
Lemma pull_rows plan model b rows :
  Forall2 Qeq (pull opts plan model b rows)
    ((λ row, (flux row
              - (bandflux model b (time row) (zp opts) (zpsys opts)
                 + default 0 (d ← p_offsets plan; d !! BandObj b)))
             / fluxerr row) <$> rows).
Proof.
  unfold pull, add_offset.
  destruct (p_offsets plan) as [d|]; simpl;
    [destruct (d !! BandObj b) as [off|]; simpl|];
    induction rows as [|row rows IH]; simpl; constructor; auto;
    try reflexivity; unfold Qdiv; ring.
Qed.

(** C5, as the code has it: in a call with data and exactly one model, the
    pulls drawn beneath the subplot of band [b] are, for the rows of the data
    in that band, (flux - m) / fluxerr, where m is the band flux of the model
    at the time of the row plus the entry of the band in the offsets mapping
    (0 when no mapping was given); pulls are only drawn with the pulls flag
    set, for a band the model overlaps; and a call that returns has drawn
    them for every such band it selected. *)
Theorem pulls_are_residuals o model d b :
  o_data o = Some d →
  obs_models (model_list (o_model o)) = [model] →
  let res := plot_lc E opts o in
  let data := normalize_data E (standardize_data E d) (zp opts) (zpsys opts) in
  let off := default 0 (offset_of (objects res) b) in
  let residuals :=
    (λ row, (flux row - (bandflux model b (time row) (zp opts) (zpsys opts) + off))
            / fluxerr row) <$> band_rows E b data in
  (∀ r cols n x y ls mk col lbl,
     Subplot r cols n b ∈ commands res →
     Draw (PullAxes n) (Line x y ls mk col lbl) ∈ commands res →
     Forall2 Qeq y residuals ∧ pulls opts = true ∧ bandoverlap model b = true) ∧
  (result res = Returned tt → b ∈ selected_bands E opts o →
   pulls opts = true → bandoverlap model b = true →
   ∃ r cols n x y col,
     Subplot r cols n b ∈ commands res ∧
     Draw (PullAxes n) (Line x y "None" "." col None) ∈ commands res ∧
     Forall2 Qeq y residuals).
Proof.
  intros Hd Hmodel res data off residuals. split.
  - intros r cols n x y ls mk col lbl Hsub Hpull.
    destruct (plot_lc_command E opts o _ Hsub) as (plan & Hprep & Hfig1).
    destruct (plot_lc_command E opts o _ Hpull) as (plan' & Hprep' & Hfig2).
    rewrite Hprep in Hprep'. injection Hprep' as <-.
    destruct (prepare_returned E opts _ _ _ Hprep)
      as (_ & _ & Hdata & Hmodels & Hoffsets & _).
    destruct (subplot_command E opts plan _ _ _ _ Hfig1) as (k & Hk & Hn & _).
    destruct (pull_command E opts plan _ _ _ _ _ _ _ Hfig2)
      as (k' & b' & Hk' & Hn' & _ & model' & data' & Hm' & Hd' & Hflag & Hover & Hy).
    assert (k' = k) as -> by lia.
    rewrite Hk in Hk'. injection Hk' as _ <-.
    rewrite Hmodels, Hmodel in Hm'. injection Hm' as <-.
    rewrite Hdata in Hd'. unfold normalised in Hd'. rewrite Hd in Hd'.
    simpl in Hd'. injection Hd' as <-.
    split; [|split; assumption].
    subst y. unfold residuals, off, offset_of. fold res in Hoffsets.
    rewrite <- Hoffsets. apply pull_rows.
  - intros Hret Hb Hflag Hover.
    destruct (plot_lc_returned E opts o Hret) as (plan & Hprep & Hiss).
    destruct (prepare_returned E opts _ _ _ Hprep)
      as (_ & Hbands & Hdata & Hmodels & Hoffsets & _).
    assert ((wave_eff b, b) ∈ sorted_bands (p_bands plan)) as Hin.
    { apply sorted_bands_elem. split; [reflexivity|].
      rewrite Hbands. apply elem_of_elements, Hb. }
    apply list_elem_of_lookup_1 in Hin as [k Hk].
    assert (p_data plan = Some data) as Hdata'.
    { rewrite Hdata. unfold normalised. rewrite Hd. reflexivity. }
    pose proof (plot_lc_returned_pulls E opts o _ plan k _ b model data Hret Hprep
                  (eq_trans Hmodels Hmodel) Hdata' Hflag Hover Hk) as Hline.
    eexists _, _, _, _, _, _. split; [exact (Hiss k _ _ Hk)|].
    split; [exact Hline|].
    unfold residuals, off, offset_of. fold res in Hoffsets.
    rewrite <- Hoffsets. apply pull_rows.
Qed.

End Pulls.

Lemma pulls_are_residuals_witness :
  Forall2 Qeq [1 # 2]
    ((λ row, (flux row - (bandflux Demo.salt2 Demo.sdssg (time row) 25 "ab" + 0))
             / fluxerr row) <$> band_rows Demo.extern Demo.sdssg Demo.photometry)%Q.
Proof.
  refine (proj1 (proj1 (pulls_are_residuals Demo.extern default_options
            Demo.call_data_model Demo.salt2 Demo.photometry Demo.sdssg _ _)
            1%Z 2%Z 1%Z [1%Q] [1 # 2]%Q
            "None" "." (193 # 255, 62 # 255, 0, 1)%Q None _ _)).
  - reflexivity.
  - reflexivity.
  - vm_compute. apply list_elem_of_In. simpl. tauto.
  - vm_compute. apply list_elem_of_In. simpl. tauto.
Defined.

(** C5 as it is stated fails where an offset is given for the band: with
    [offsets = {'sdssr': 1.}] the pulls drawn for [sdssr] are 1 and 3, and
    (flux - band flux) / fluxerr is 2 and 4. *)
Lemma pulls_without_offset_counterexample :
  let res := plot_lc Demo.extern default_options Demo.call_offsets in
  o_data Demo.call_offsets = Some Demo.photometry ∧
  obs_models (model_list (o_model Demo.call_offsets)) = [Demo.salt2] ∧
  pulls default_options = true ∧ bandoverlap Demo.salt2 Demo.sdssr = true ∧
  Subplot 1 2 2 Demo.sdssr ∈ commands res ∧
  Draw (PullAxes 2)
    (Line [0; 2] [1; 3] "None" "." (138 # 255, 117 # 255, 0, 1) None)%Q ∈ commands res ∧
  ¬ Forall2 Qeq [1; 3]%Q
      ((λ row, (flux row - bandflux Demo.salt2 Demo.sdssr (time row) 25 "ab")
               / fluxerr row) <$> band_rows Demo.extern Demo.sdssr Demo.photometry)%Q.
Proof.
  repeat split.
  - vm_compute. apply list_elem_of_In. simpl. tauto.
  - vm_compute. apply list_elem_of_In. simpl. tauto.
  - vm_compute. intros H. inversion H as [|? ? ? ? Hhead _]; subst.
    vm_compute in Hhead. discriminate.
Qed.

(** * What a call does to the caller's objects *)

Lemma plot_lc_objects E opts o : objects (plot_lc E opts o) = fst (prepare E opts o).
Proof.
  unfold plot_lc. destruct (prepare E opts o) as [o' [plan|e]]; simpl; [|reflexivity].
  destruct (render E opts plan []); reflexivity.
Qed.

(** C8, as the code has it: a call leaves the data, the models, the list of
    requested bands and the errors mapping as they were, whether it returns or
    raises; an offsets mapping that was given and a figtext given as a list are
    the only objects it writes to.  ([plot_param_samples] and [animate_model]
    write to no argument: they are functions of their arguments here.) *)
Theorem plot_lc_reads_inputs E opts o :
  writes_within o (objects (plot_lc E opts o)).
Proof. rewrite plot_lc_objects. apply prepare_confined. Qed.

(** C8 as it is stated fails on the offsets mapping: called with
    [offsets = {}], [plot_lc] leaves an entry for every selected band in the
    caller's mapping. *)
Lemma plot_lc_writes_offsets_counterexample :
  o_offsets Demo.call_empty_offsets = Some ∅ ∧
  offset_of (objects (plot_lc Demo.extern default_options Demo.call_empty_offsets))
            Demo.sdssg = Some 0%Q ∧
  objects (plot_lc Demo.extern default_options Demo.call_empty_offsets)
    ≠ Demo.call_empty_offsets.
Proof.
  split; [reflexivity|]. split; [vm_compute; reflexivity|].
  intros H. apply (f_equal (λ o, offset_of o Demo.sdssg)) in H.
  vm_compute in H. discriminate.
Qed.

(** * The window of [plot_param_samples] *)

Section Window.

Import Samples.

Local Open Scope R_scope.

Lemma zip_with_Rmult_comm (a b : list R) :
  zip_with Rmult a b = zip_with Rmult b a.
Proof.
  revert b. induction a as [|x a IH]; intros [|y b]; simpl; try reflexivity.
  rewrite IH. f_equal. apply Rmult_comm.
Qed.

(** The sum of weighted squared deviations, expanded. *)
Lemma total_deviations (col w : list R) (mu : R) :
  length w = length col →
  total (zip_with Rmult w ((λ x, (x - mu) * (x - mu)) <$> col)) =
  total (zip_with Rmult w ((λ x, x * x) <$> col))
  - 2 * mu * total (zip_with Rmult w col) + mu * mu * total w.
Proof.
  revert w. induction col as [|x col IH]; intros [|y w] Hlen; simpl in *;
    try discriminate.
  - ring.
  - rewrite IH by congruence. unfold fmap. ring.
Qed.

(** Without weights the window is the mean and five standard deviations
    either way. *)
Lemma lims_unweighted samples i :
  lims samples None i =
  (average (column samples i) None - 5 * np_std (column samples i),
   average (column samples i) None + 5 * np_std (column samples i)).
Proof. reflexivity. Qed.

(** With weights that sum to one the source computes the weighted mean and
    the weighted standard deviation. *)
Lemma lims_normalised_weights samples w i :
  length w = length samples → total w = 1 →
  lims samples (Some w) i =
  (weighted_mean (column samples i) w - 5 * weighted_std (column samples i) w,
   weighted_mean (column samples i) w + 5 * weighted_std (column samples i) w).
Proof.
  intros Hlen Hsum. unfold lims, std, average, weighted_std, weighted_mean.
  rewrite (zip_with_Rmult_comm (column samples i) w).
  set (col := column samples i). set (mu := total (zip_with Rmult w col) / total w).
  assert (length w = length col) as Hcol.
  { unfold col, column. rewrite length_fmap. exact Hlen. }
  rewrite (total_deviations col w mu Hcol).
  assert (total (zip_with Rmult w col) = mu) as Hmu.
  { unfold mu. rewrite Hsum. Lra.lra. }
  rewrite Hmu, Hsum.
  replace ((total (zip_with Rmult w ((λ x, x * x) <$> col)) - 2 * mu * mu + mu * mu * 1) / 1)
    with (total (zip_with Rmult w ((λ x, x * x) <$> col)) - mu * mu) by Lra.lra.
  reflexivity.
Qed.

(** C2, the call the claim fails on: two draws 0 and 2 of one parameter, each
    with weight 1.  Their weighted mean is 1 and their weighted standard
    deviation is 1, as without weights; the window the source computes is
    1 -+ 5 sqrt 3, because line 354 takes the weights as summing to one. *)
Theorem lims_with_unnormalised_weights :
  plot_param_samples ["p"] Demo.samples (Some Demo.weights) =
    [mkPanel 0 0 1 Histogram (1 - 5 * sqrt 3, 1 + 5 * sqrt 3) None] ∧
  weighted_mean (column Demo.samples 0) Demo.weights = 1 ∧
  weighted_std (column Demo.samples 0) Demo.weights = 1 ∧
  lims Demo.samples (Some Demo.weights) 0 ≠ (1 - 5 * 1, 1 + 5 * 1) ∧
  lims Demo.samples None 0 = (1 - 5 * 1, 1 + 5 * 1).
Proof.
  assert (average (column Demo.samples 0) (Some Demo.weights) = 1) as Havg.
  { unfold average, column, Demo.samples, Demo.weights. simpl. Lra.lra. }
  assert (std (column Demo.samples 0) (Some Demo.weights) = sqrt 3) as Hstd.
  { unfold std. rewrite Havg. f_equal.
    unfold column, Demo.samples, Demo.weights. simpl. Lra.lra. }
  assert (lims Demo.samples (Some Demo.weights) 0 = (1 - 5 * sqrt 3, 1 + 5 * sqrt 3))
    as Hlims.
  { unfold lims. rewrite Havg, Hstd. reflexivity. }
  assert (weighted_mean (column Demo.samples 0) Demo.weights = 1) as Hmean.
  { unfold weighted_mean, column, Demo.samples, Demo.weights. simpl. Lra.lra. }
  split; [|split; [|split; [|split]]].
  - unfold plot_param_samples. simpl. rewrite Hlims. reflexivity.
  - exact Hmean.
  - unfold weighted_std. rewrite Hmean.
    unfold column, Demo.samples, Demo.weights. simpl.
    replace ((1 * ((0 - 1) * (0 - 1)) + (1 * ((2 - 1) * (2 - 1)) + 0)) / (1 + (1 + 0)))
      with 1 by Lra.lra.
    apply sqrt_1.
  - rewrite Hlims. intros [= Hlo Hhi].
    assert (sqrt 3 = 1) as Hsqrt by Lra.lra.
    assert (sqrt 3 * sqrt 3 = 3) as Hsq by (apply sqrt_sqrt; Lra.lra).
    rewrite Hsqrt in Hsq. Lra.lra.
  - unfold lims, average, std, np_std, column, Demo.samples. simpl.
    replace ((0 + (2 + 0)) / (1 + 1)) with 1 by Lra.lra.
    replace (((0 - 1) * (0 - 1) + ((2 - 1) * (2 - 1) + 0)) / (1 + 1)) with 1 by Lra.lra.
    rewrite sqrt_1. reflexivity.
Qed.

End Window.

(** * [animate_model]: the models and their time offsets *)

Section Offsets.

Import Animate.

Local Open Scope Q_scope.

Lemma time_offsets_matching opts models first :
  match_refphase opts = true → models !! 0%nat = Some first →
  time_offsets opts models = (λ model, refphase model - refphase first) <$> models.
Proof.
  intros Hmatch Hfirst. unfold time_offsets. rewrite Hmatch. simpl.
  destruct models as [|m ms]; [discriminate|]. injection Hfirst as ->. reflexivity.
Qed.

Lemma time_offsets_not_matching opts models :
  match_refphase opts = false →
  time_offsets opts models = replicate (length models) 0.
Proof. intros Hmatch. unfold time_offsets. rewrite Hmatch. reflexivity. Qed.

(** What lines 495-534 do with an empty list of models. *)
Lemma animate_models_nil opts :
  ∃ e, animate_models opts [] = Raised e ∧
       (fst (time_range opts) = None →
        e = ValueError "min() arg is an empty sequence").
Proof.
  unfold animate_models, time_offsets, truediv.
  destruct (negb (match_refphase opts)); simpl;
    destruct (time_range opts) as [[tmin|] [tmax|]],
             (disp_range opts) as [[dmin|] [dmax|]]; simpl;
    try destruct (Qeq_bool _ _); simpl;
    destruct (match_flux opts); simpl;
    (eexists; split; [reflexivity|]); simpl; intros Hmin;
    first [discriminate Hmin | reflexivity].
Qed.

(** C3: [animate_model] never gets as far as a time offset.  [get_model],
    which line 493 calls on each model given, is a name that plotting.py
    neither imports nor defines: a call with one model or more raises
    [NameError] there, whatever the options, and a call with an empty list
    raises further on, so that no call returns and no model is ever shifted
    in time.  Lines 496-498 taken alone are as claimed: for a list of models
    they give model [k] its reference phase less that of the first model
    with [match_refphase], and zero without. *)
Theorem animate_model_get_model_unbound opts arg :
  (model_specs arg ≠ [] →
   animate_model opts arg =
   Raised (NameError "global name 'get_model' is not defined")) ∧
  is_returned (animate_model opts arg) = false ∧
  (∀ models k m first,
     models !! k = Some m → models !! 0%nat = Some first →
     time_offsets opts models !! k =
     Some (if match_refphase opts then refphase m - refphase first else 0)).
Proof.
  assert (model_specs arg ≠ [] →
          animate_model opts arg =
          Raised (NameError "global name 'get_model' is not defined")) as Hname.
  { intros Hsome. unfold animate_model, get_models.
    destruct (model_specs arg) as [|m l]; [contradiction|]. reflexivity. }
  split; [exact Hname|]. split.
  - destruct (model_specs arg) as [|m l] eqn:Hspecs.
    + unfold animate_model, get_models. rewrite Hspecs. simpl.
      destruct (animate_models_nil opts) as (e & -> & _). reflexivity.
    + rewrite Hname; [reflexivity|discriminate].
  - intros models k m first Hk Hfirst.
    destruct (match_refphase opts) eqn:Hmatch.
    + rewrite (time_offsets_matching opts models first Hmatch Hfirst).
      rewrite list_lookup_fmap, Hk. reflexivity.
    + rewrite (time_offsets_not_matching opts models Hmatch).
      apply lookup_replicate_2. eapply lookup_lt_Some, Hk.
Qed.

End Offsets.

Lemma animate_model_get_model_unbound_witness :
  Animate.animate_model Animate.default_options Demo.both_models =
  Raised (NameError "global name 'get_model' is not defined") ∧
  Animate.time_offsets Animate.default_options [Demo.hsiao; Demo.nugent] !! 1%nat =
  Some (if Animate.match_refphase Animate.default_options
        then Animate.refphase Demo.nugent - Animate.refphase Demo.hsiao else 0)%Q.
Proof.
  destruct (animate_model_get_model_unbound Animate.default_options Demo.both_models)
    as (Hname & _ & Hoffsets).
  split.
  - apply Hname. discriminate.
  - apply (Hoffsets [Demo.hsiao; Demo.nugent] 1%nat Demo.nugent Demo.hsiao); reflexivity.
Defined.

(** * The commands of one band, in full *)

Lemma draws_conj {A} (m : Drawing A) (P P' : Cmd → Prop) (Q Q' : A → Prop) :
  draws m P Q → draws m P' Q' → draws m (λ c, P c ∧ P' c) (λ a, Q a ∧ Q' a).
Proof.
  intros H1 H2 t. destruct (H1 t) as [Hc1 Hq1], (H2 t) as [Hc2 Hq2]. split.
  - apply Forall_and. split; assumption.
  - intros a Ha. split; auto.
Qed.

Section BandDetailFacts.

Variable E : Extern.
Variable opts : Options.
Variable plan : Plan.

Ltac detail_auto := repeat (draws_step; simpl; try done).

Lemma has_pulls_true b model data :
  p_data plan = Some data → p_models plan = [model] →
  pulls opts = true → bandoverlap model b = true →
  has_pulls opts plan b = true.
Proof.
  intros Hdata Hmodels Hpulls Hoverlap. unfold has_pulls.
  rewrite Hdata, Hmodels, Hpulls, Hoverlap. reflexivity.
Qed.

Lemma plot_data_detail axnum b color data :
  p_data plan = Some data →
  draws (plot_data E plan axnum b color data)
        (band_detail E opts plan axnum b) (λ _, True).
Proof.
  intros Hdata. unfold plot_data. cbv zeta.
  destruct (p_models plan) as [|m ms] eqn:Hmodels.
  - apply draws_bind with (Q := λ x, x = time <$> band_rows E b data).
    { apply draws_ret. reflexivity. }
    intros x ->. apply draws_seq; [|intros _; apply draws_ret; exact I].
    apply draws_emit; [|exact I]. simpl. split; [reflexivity|]. split; [exact I|].
    exists data. rewrite Hmodels. auto.
  - apply draws_bind
      with (Q := λ x, ∃ t0, first_model_t0 plan = Returned t0 ∧
                            x = (λ r, time r - t0)%Q <$> band_rows E b data).
    { apply draws_bind with (Q := λ t0, first_model_t0 plan = Returned t0).
      - apply draws_lift. auto.
      - intros t0 Ht0. apply draws_ret. eauto. }
    intros x (t0 & Ht0 & ->).
    apply draws_seq; [|intros _; apply draws_ret; exact I].
    apply draws_emit; [|exact I]. simpl. split; [reflexivity|]. split; [exact I|].
    exists data. rewrite Hmodels. eauto 10.
Qed.

Lemma plot_models_detail axnum b color i ms mins maxes :
  (∀ j m, ms !! j = Some m → p_models plan !! (i + j)%nat = Some m) →
  draws (plot_models opts plan axnum b color i ms mins maxes)
        (band_detail E opts plan axnum b) (λ _, True).
Proof.
  revert i mins maxes. induction ms as [|model ms IH]; intros i mins maxes Hms; simpl.
  - apply draws_ret. exact I.
  - assert (∀ j m, ms !! j = Some m → p_models plan !! (S i + j)%nat = Some m) as Hms'.
    { intros j m Hj. replace (S i + j)%nat with (i + S j)%nat by lia. apply Hms, Hj. }
    destruct (bandoverlap model b) eqn:Hoverlap; [|apply IH, Hms'].
    apply draws_bind with (Q := λ t0, first_model_t0 plan = Returned t0).
    { apply draws_lift. auto. }
    intros t0 Ht0. apply draws_seq.
    { apply draws_emit; [|exact I]. simpl. split; [reflexivity|]. split; [exact I|].
      exists i, model, t0. repeat split; auto.
      rewrite <- (Hms 0%nat model eq_refl). f_equal. lia. }
    intros _. apply draws_seq; [detail_auto|]. intros lo.
    apply draws_seq; [detail_auto|]. intros hi. apply IH, Hms'.
Qed.

Lemma reset_ylim_detail axnum b mins maxes :
  p_models plan ≠ [] →
  draws (reset_ylim E axnum mins maxes) (band_detail E opts plan axnum b) (λ _, True).
Proof.
  intros Hmodels. unfold reset_ylim. destruct mins as [|lo los]; [detail_auto|].
  destruct maxes as [|hi his]; [detail_auto|].
  apply draws_seq; [detail_auto|]. intros t.
  destruct (get_ylim E t) as [ymin ymax].
  apply draws_emit; simpl; auto.
Qed.

Lemma plot_pulls_detail axnum b color :
  draws (plot_pulls opts plan axnum b color (band_rows E b <$> p_data plan))
        (band_detail E opts plan axnum b) (λ _, True).
Proof.
  unfold plot_pulls.
  destruct (p_data plan) as [data|] eqn:Hdata; simpl; [|detail_auto].
  destruct (p_models plan) as [|model [|m2 ms]] eqn:Hmodels; try solve [detail_auto].
  destruct (pulls opts) eqn:Hpulls; simpl; [|detail_auto].
  destruct (bandoverlap model b) eqn:Hoverlap; [|detail_auto].
  pose proof (has_pulls_true b model data Hdata Hmodels Hpulls Hoverlap) as Hhas.
  apply draws_seq; [apply draws_emit; simpl; auto|]. intros _.
  apply draws_seq; [detail_auto|]. intros t0.
  apply draws_seq; [apply draws_emit; simpl; auto|]. intros _.
  apply draws_seq; [apply draws_emit; simpl; auto|]. intros _.
  apply draws_seq; [apply draws_emit; simpl; auto|]. intros _.
  destruct (bool_decide _) eqn:Hodd; [|apply draws_ret; exact I].
  apply bool_decide_eq_true in Hodd. apply draws_emit; simpl; auto.
Qed.

Lemma legend_shown_decide axnum :
  bool_decide (axnum = 1%Z) && bool_decide (2 ≤ length (p_models plan))%nat = true
  ↔ legend_shown plan axnum.
Proof.
  unfold legend_shown. rewrite andb_true_iff, !bool_decide_eq_true. reflexivity.
Qed.

Lemma plot_band_detail axnum wave b :
  draws (plot_band E opts plan axnum wave b)
        (band_detail E opts plan axnum b) (λ _, True).
Proof.
  unfold plot_band. cbv zeta.
  apply draws_seq; [apply draws_emit; simpl; auto|]. intros _.
  apply draws_seq.
  { destruct (bool_decide _) eqn:Hodd; [|apply draws_ret; exact I].
    apply bool_decide_eq_true in Hodd. apply draws_emit; simpl; auto. }
  intros _.
  apply draws_bind with (Q := λ s, xlabel_text E plan = Returned s).
  { apply draws_lift. auto. }
  intros xlabel Hxlabel.
  apply draws_bind with (Q := λ rows, rows = band_rows E b <$> p_data plan).
  { destruct (p_data plan) as [data|] eqn:Hdata; simpl.
    - eapply draws_bind with (Q := λ rows, rows = band_rows E b data).
      + eapply draws_weaken;
          [exact (draws_conj _ _ _ _ _
                    (plot_data_detail axnum b (band_color E wave) data Hdata)
                    (plot_data_draws E opts plan axnum wave b data))| |].
        * intros c [Hc _]. exact Hc.
        * intros rows [_ Hrows]. exact Hrows.
      + intros rows ->. apply draws_ret. reflexivity.
    - apply draws_ret. reflexivity. }
  intros rows ->. apply draws_seq.
  { destruct (p_models plan) as [|m ms] eqn:Hmodels; [apply draws_ret; exact I|].
    apply draws_seq.
    { apply plot_models_detail. intros j m' Hj. rewrite Hmodels. exact Hj. }
    intros mm. apply draws_seq.
    { apply reset_ylim_detail. rewrite Hmodels. discriminate. }
    intros _. destruct (_ && _) eqn:Hleg; [|apply draws_ret; exact I].
    apply draws_emit; [|exact I]. simpl. split; [reflexivity|]. split; [exact I|].
    apply legend_shown_decide. rewrite Hmodels. exact Hleg. }
  intros _. apply draws_seq.
  { destruct (_ && _) eqn:Hleg.
    - apply draws_emit; [|exact I]. simpl. split; [reflexivity|]. split; [exact I|].
      split; [reflexivity|]. split; [reflexivity|]. left.
      split; [|split; reflexivity]. unfold legend_shown.
      apply andb_true_iff in Hleg as [H1 H2].
      apply bool_decide_eq_true in H1, H2. split; [exact H1|lia].
    - apply draws_emit; [|exact I]. simpl. split; [reflexivity|]. split; [exact I|].
      split; [reflexivity|]. split; [reflexivity|]. right.
      split; [|split; reflexivity]. unfold legend_shown. intros [H1 H2].
      apply andb_false_iff in Hleg as [Hleg|Hleg];
        apply bool_decide_eq_false in Hleg; [contradiction|lia]. }
  intros _. apply draws_seq; [apply draws_emit; simpl; auto|]. intros _.
  apply draws_seq; [apply plot_pulls_detail|]. intros _.
  apply draws_emit; [|exact I].
  destruct (has_pulls opts plan b) eqn:Hhas; simpl; rewrite ?Hhas; auto.
Qed.

Lemma plot_bands_detail axnum l :
  draws (plot_bands E opts plan axnum l) (loop_detail E opts plan axnum l) (λ _, True).
Proof.
  revert axnum. induction l as [|[wave b] l IH]; intros axnum; simpl.
  - apply draws_ret. exact I.
  - apply draws_seq.
    + eapply draws_weaken; [apply plot_band_detail| |auto].
      intros c Hc. exists 0%nat, wave, b. split; [reflexivity|].
      replace (axnum + Z.of_nat 0 + 1)%Z with (axnum + 1)%Z by lia. exact Hc.
    + intros _. eapply draws_weaken; [apply IH| |auto].
      intros c (k & w & b' & Hk & Hc). exists (S k), w, b'. split; [exact Hk|].
      replace (axnum + Z.of_nat (S k) + 1)%Z with (axnum + 1 + Z.of_nat k + 1)%Z by lia.
      exact Hc.
Qed.

Lemma render_detail :
  draws (render E opts plan) (figure_detail E opts plan) (λ _, True).
Proof.
  unfold render.
  apply draws_seq; [apply draws_emit; simpl; auto|]. intros _.
  apply draws_seq.
  { destruct (bool_decide _); [|apply draws_ret; exact I].
    apply for_each_draws. intros [i [s|]]; simpl; [|apply draws_ret; exact I].
    apply draws_emit; simpl; auto. }
  intros _. apply draws_seq.
  { eapply draws_weaken; [apply plot_bands_detail| |auto].
    intros c Hc. destruct c; simpl; auto. }
  intros _. apply draws_seq; [detail_auto|]. intros top.
  apply draws_seq; [detail_auto|]. intros _.
  apply draws_seq; [detail_auto|]. intros _. detail_auto.
Qed.

End BandDetailFacts.

(** What a call drew for a band: the band of a [Draw] or [AppendAxes]
    command is the band of the subplot with that number. *)
Section CallDetail.

Variable E : Extern.
Variable opts : Options.

Lemma plot_lc_detail o c :
  c ∈ commands (plot_lc E opts o) →
  ∃ plan, prepare E opts o = (objects (plot_lc E opts o), Returned plan) ∧
          figure_detail E opts plan c.
Proof.
  unfold plot_lc. destruct (prepare E opts o) as [o' [plan|e]]; simpl.
  - pose proof (render_detail E opts plan []) as [Hall _].
    destruct (render E opts plan []) as [cmds r]. simpl in *.
    intros Hc. exists plan. split; [reflexivity|].
    rewrite Forall_forall in Hall. apply Hall, Hc.
  - intros Hc. apply elem_of_nil in Hc. contradiction.
Qed.

Lemma drawn_for_band o r cols n b ax a :
  Subplot r cols n b ∈ commands (plot_lc E opts o) →
  Draw ax a ∈ commands (plot_lc E opts o) →
  axes_number ax = n →
  ∃ plan, prepare E opts o = (objects (plot_lc E opts o), Returned plan) ∧
          (1 ≤ n)%Z ∧
          match ax with PullAxes _ => has_pulls opts plan b = true | MainAxes _ => True end ∧
          artist_detail E opts plan n b ax a.
Proof.
  intros Hsub Hdraw Hax.
  destruct (plot_lc_command E opts o _ Hsub) as (plan & Hprep & Hfig1).
  destruct (plot_lc_detail o _ Hdraw) as (plan' & Hprep' & Hfig2).
  rewrite Hprep in Hprep'. injection Hprep' as <-.
  destruct (subplot_command E opts plan _ _ _ _ Hfig1) as (k & Hk & Hn & _).
  simpl in Hfig2. destruct Hfig2 as (k' & w & b' & Hk' & Hn' & Hpull & Ha).
  assert (k' = k) as -> by lia.
  rewrite Hk in Hk'. injection Hk' as _ <-.
  exists plan. split; [exact Hprep|]. split; [lia|].
  replace n with (0 + Z.of_nat k + 1)%Z by lia. split; assumption.
Qed.

End CallDetail.

(** * What is drawn for a band *)

Section Drawn.

Variable E : Extern.
Variable opts : Options.

Local Open Scope Q_scope.

Lemma first_model_t0_models plan m ms t0 :
  p_models plan = m :: ms → first_model_t0 plan = Returned t0 →
  parameters m !! 1%nat = Some t0.
Proof.
  intros Hmodels. unfold first_model_t0, mbind, outcome_bind, obind, getitem.
  rewrite Hmodels. simpl. destruct (parameters m !! 1%nat); intros [=]. congruence.
Qed.

(** The array of lines 255-258, point by point. *)
Lemma add_offset_times plan model b ts :
  Forall2 Qeq
    (add_offset plan b ((λ t, bandflux model b t (zp opts) (zpsys opts)) <$> ts))
    ((λ t, bandflux model b t (zp opts) (zpsys opts)
           + default 0 (d ← p_offsets plan; d !! BandObj b)) <$> ts).
Proof.
  unfold add_offset.
  destruct (p_offsets plan) as [d|]; simpl;
    [destruct (d !! BandObj b) as [off|]; simpl|];
    induction ts as [|t ts IH]; simpl; constructor; auto; try reflexivity; ring.
Qed.

(** X1: the error bars drawn in the subplot of a band are the fluxes and
    flux errors of the rows of the data in that band, as they are: an offset
    given for the band moves the model curves but not the data.  They are
    drawn against the times of the rows, less [parameters[1]] of the first
    model when a model is given. *)
Theorem error_bars_are_the_data o r cols n b x y yerr color :
  Subplot r cols n b ∈ commands (plot_lc E opts o) →
  Draw (MainAxes n) (Errorbar x y yerr color) ∈ commands (plot_lc E opts o) →
  ∃ d, o_data o = Some d ∧
    let rows := band_rows E b (normalize_data E (standardize_data E d) (zp opts) (zpsys opts)) in
    y = flux <$> rows ∧ yerr = fluxerr <$> rows ∧
    match obs_models (model_list (o_model o)) with
    | [] => x = time <$> rows
    | first :: _ => ∃ t0, parameters first !! 1%nat = Some t0 ∧
                          x = (λ row, time row - t0) <$> rows
    end.
Proof.
  intros Hsub Hdraw.
  destruct (drawn_for_band E opts o _ _ _ _ _ _ Hsub Hdraw eq_refl)
    as (plan & Hprep & _ & _ & data & Hdata & Hy & Hyerr & Hx).
  destruct (prepare_returned E opts _ _ _ Hprep) as (_ & _ & Hnorm & Hmodels & _).
  rewrite Hnorm in Hdata. unfold normalised in Hdata.
  destruct (o_data o) as [d|]; [|discriminate]. simpl in Hdata. injection Hdata as <-.
  exists d. split; [reflexivity|]. simpl. split; [exact Hy|]. split; [exact Hyerr|].
  rewrite <- Hmodels. destruct (p_models plan) as [|first ms] eqn:Hm; [exact Hx|].
  destruct Hx as (t0 & Ht0 & Hx). exists t0. split; [|exact Hx].
  eapply first_model_t0_models; eassumption.
Qed.

(** X2: a curve drawn in the subplot of a band belongs to one of the models
    given, at some index [i], and that model overlaps the band: the curve runs
    over [model.times] less [parameters[1]] of the first model, its fluxes are
    the band fluxes of the model plus the offset of the band, its line style
    is entry [i mod 4] of the four styles, and its label is the model's
    name. *)
Theorem model_curves_drawn o r cols n b x y ls marker color label :
  Subplot r cols n b ∈ commands (plot_lc E opts o) →
  Draw (MainAxes n) (Line x y ls marker color label) ∈ commands (plot_lc E opts o) →
  ∃ i model first t0,
    obs_models (model_list (o_model o)) !! i = Some model ∧
    obs_models (model_list (o_model o)) !! 0%nat = Some first ∧
    parameters first !! 1%nat = Some t0 ∧
    bandoverlap model b = true ∧
    x = (λ t, t - t0) <$> times model ∧
    Forall2 Qeq y
      ((λ t, bandflux model b t (zp opts) (zpsys opts)
             + default 0 (offset_of (objects (plot_lc E opts o)) b)) <$> times model) ∧
    ls = nth (i mod 4) ["-"; "--"; ":"; "-."] "-" ∧
    marker = "None" ∧ label = Some (model_name model).
Proof.
  intros Hsub Hdraw.
  destruct (drawn_for_band E opts o _ _ _ _ _ _ Hsub Hdraw eq_refl)
    as (plan & Hprep & _ & _ & i & model & t0 & Hi & Hover & Ht0 & Hx & Hy & Hls & Hmk & Hlbl).
  destruct (prepare_returned E opts _ _ _ Hprep) as (_ & _ & _ & Hmodels & Hoffsets & _).
  destruct (p_models plan) as [|first ms] eqn:Hm; [discriminate|].
  exists i, model, first, t0. rewrite <- Hmodels.
  split; [exact Hi|]. split; [reflexivity|].
  split; [eapply first_model_t0_models; eassumption|].
  split; [exact Hover|]. split; [exact Hx|]. split.
  { subst y. unfold offset_of. rewrite <- Hoffsets. apply add_offset_times. }
  split; [exact Hls|]. split; assumption.
Qed.

(** X3: a legend is drawn only in the first subplot and only when two or more
    models are given; the name of the band is written at the upper left of
    that subplot in that case, and at the upper right in every other case. *)
Theorem legend_and_band_name o r cols n b :
  Subplot r cols n b ∈ commands (plot_lc E opts o) →
  let models := obs_models (model_list (o_model o)) in
  (Draw (MainAxes n) LegendBox ∈ commands (plot_lc E opts o) →
   n = 1%Z ∧ (2 ≤ length models)%nat) ∧
  (∀ x y s ha,
     Draw (MainAxes n) (AxText x y s ha) ∈ commands (plot_lc E opts o) →
     s = name b ∧
     if bool_decide (n = 1%Z ∧ (2 ≤ length models)%nat)
     then x = 8 # 100 ∧ ha = "left"
     else x = 92 # 100 ∧ ha = "right").
Proof.
  intros Hsub models. split.
  - intros Hdraw.
    destruct (drawn_for_band E opts o _ _ _ _ _ _ Hsub Hdraw eq_refl)
      as (plan & Hprep & _ & _ & Hleg).
    destruct (prepare_returned E opts _ _ _ Hprep) as (_ & _ & _ & Hmodels & _).
    unfold models. rewrite <- Hmodels. exact Hleg.
  - intros x y s ha Hdraw.
    destruct (drawn_for_band E opts o _ _ _ _ _ _ Hsub Hdraw eq_refl)
      as (plan & Hprep & _ & _ & Hs & _ & Hpos).
    destruct (prepare_returned E opts _ _ _ Hprep) as (_ & _ & _ & Hmodels & _).
    split; [exact Hs|]. unfold models. rewrite <- Hmodels.
    destruct Hpos as [(Hleg & Hx & Hha)|(Hleg & Hx & Hha)].
    + rewrite bool_decide_eq_true_2 by exact Hleg. auto.
    + rewrite bool_decide_eq_false_2 by exact Hleg. auto.
Qed.

(** X4: y labels are drawn only in odd-numbered subplots, the left column of
    the two-column grid, and are the flux label on the main axes and "pull" on
    the axes of the pulls. *)
Theorem ylabels_in_left_column o r cols n b ax s :
  Subplot r cols n b ∈ commands (plot_lc E opts o) →
  Draw ax (Ylabel s) ∈ commands (plot_lc E opts o) →
  axes_number ax = n →
  ((n - 1) `mod` ncol = 0)%Z ∧
  match ax with
  | MainAxes _ =>
      s = "flux ($ZP_{" +:+ magsystem_name_upper E (zpsys opts) +:+
          "} = " +:+ str_float E (zp opts) +:+ "$)"
  | PullAxes _ => s = "pull"
  end.
Proof.
  intros Hsub Hdraw Hax.
  destruct (drawn_for_band E opts o _ _ _ _ _ _ Hsub Hdraw Hax)
    as (plan & _ & Hn & _ & Ha).
  destruct ax; simpl in Ha; destruct Ha as [Hodd Hs]; (split; [|exact Hs]);
    unfold ncol; revert Hodd; Z.to_euclidean_division_equations; lia.
Qed.

(** X5: anything drawn beneath a subplot, on the axes of the pulls, is drawn
    in a call with data, exactly one model and the pulls flag, for a band
    that model overlaps; and the x label of a band goes to the axes of the
    pulls exactly when they exist. *)
Theorem pull_axes_need_one_model o r cols n b :
  Subplot r cols n b ∈ commands (plot_lc E opts o) →
  let pulled :=
    is_Some (o_data o) ∧ pulls opts = true ∧
    ∃ model, obs_models (model_list (o_model o)) = [model] ∧
             bandoverlap model b = true in
  (∀ a, Draw (PullAxes n) a ∈ commands (plot_lc E opts o) → pulled) ∧
  (∀ s, Draw (MainAxes n) (Xlabel s) ∈ commands (plot_lc E opts o) → ¬ pulled).
Proof.
  intros Hsub pulled.
  assert (∀ plan, prepare E opts o = (objects (plot_lc E opts o), Returned plan) →
                  has_pulls opts plan b = true ↔ pulled) as Hhas.
  { intros plan Hprep.
    destruct (prepare_returned E opts _ _ _ Hprep) as (_ & _ & Hdata & Hmodels & _).
    unfold has_pulls, pulled. rewrite Hdata, Hmodels. unfold normalised.
    destruct (o_data o) as [d|]; simpl.
    - destruct (obs_models (model_list (o_model o))) as [|model [|m2 ms]]; simpl.
      + split; [discriminate|]. intros (_ & _ & m & [=] & _).
      + rewrite andb_true_iff. split.
        * intros [Hp Hov]. split; [eauto|]. split; [exact Hp|eauto].
        * intros (_ & Hp & m & [= <-] & Hov). auto.
      + split; [discriminate|]. intros (_ & _ & m & [=] & _).
    - split; [discriminate|]. intros ([d Hd] & _). discriminate. }
  split.
  - intros a Hdraw.
    destruct (drawn_for_band E opts o _ _ _ _ _ _ Hsub Hdraw eq_refl)
      as (plan & Hprep & _ & Hp & _).
    apply (Hhas plan Hprep), Hp.
  - intros s Hdraw Hpulled.
    destruct (drawn_for_band E opts o _ _ _ _ _ _ Hsub Hdraw eq_refl)
      as (plan & Hprep & _ & _ & _ & Hax).
    apply (Hhas plan Hprep) in Hpulled. rewrite Hpulled in Hax. discriminate.
Qed.

End Drawn.

(** * Before the figure, in full *)

Section PrepDetail.

Variable E : Extern.
Variable opts : Options.

Local Open Scope Q_scope.

(** X6: a call that passes the checks of lines 112-115 with a model that is
    not an [ObsModel] raises a [TypeError] at once: nothing is drawn and the
    caller's objects are untouched. *)
Theorem not_obsmodel_raises o :
  is_Some (o_data o) ∨ is_Some (o_bands o) →
  forallb isinstance_ObsModel (model_list (o_model o)) = false →
  plot_lc E opts o =
  mkResult o [] (Raised (TypeError "model(s) must be ObsModel instance(s)")).
Proof.
  intros Hgiven Hmodels. unfold plot_lc, prepare.
  unfold mbind at 1. unfold Prep_bind, prep_bind.
  assert (check_arguments o = (o, Returned tt)) as ->.
  { unfold check_arguments, mbind, Prep_bind, prep_bind, arg. simpl.
    destruct (o_model o) eqn:Hm; [discriminate| |];
      destruct (o_data o), (o_bands o); try reflexivity;
      destruct Hgiven as [[? [=]]|[? [=]]]. }
  unfold mbind at 1. unfold Prep_bind, prep_bind.
  rewrite get_models_run, Hmodels. reflexivity.
Qed.

Lemma normalise_offsets_figtext bands o :
  o_figtext (fst (normalise_offsets E bands o)) = o_figtext o.
Proof.
  unfold normalise_offsets. destruct (o_offsets o) as [d|]; [|reflexivity].
  destruct (rekey_offsets E (map_to_list d) d) as [d1 [[]|e]]; reflexivity.
Qed.

Lemma build_figtext_not_single models o :
  length models ≠ 1%nat →
  fst (build_figtext E models o) = o.
Proof.
  intros Hlen. unfold build_figtext, mbind, Prep_bind, prep_bind, arg. simpl.
  destruct models as [|m [|m2 ms]]; try reflexivity. simpl in Hlen. lia.
Qed.

(** The first steps of [prepare] leave the objects alone, and the later ones
    start from the objects [normalise_offsets] leaves. *)
Lemma prepare_steps o :
  (∃ e, prepare E opts o = (o, Raised e) ∧
        (snd (check_arguments o) = Raised e ∨
         forallb isinstance_ObsModel (model_list (o_model o)) = false ∨
         select_bands E (normalised E opts o) (o_bands o) = Raised e)) ∨
  ∃ s, select_bands E (normalised E opts o) (o_bands o) = Returned s ∧
    forallb isinstance_ObsModel (model_list (o_model o)) = true ∧
    let o1 := fst (normalise_offsets E (elements s) o) in
    let models := obs_models (model_list (o_model o)) in
    match snd (normalise_offsets E (elements s) o) with
    | Raised e => prepare E opts o = (o1, Raised e)
    | Returned _ =>
        match build_figtext E models o1 with
        | (o2, Raised e) => prepare E opts o = (o2, Raised e)
        | (o2, Returned figtext) =>
            match figure_size opts (nrow_of (Z.of_nat (length (elements s)))) with
            | Raised e => prepare E opts o = (o2, Raised e)
            | Returned figsize =>
                prepare E opts o =
                (o2, Returned
                   (mkPlan models (normalised E opts o) (elements s) (o_offsets o1) figtext
                      (nrow_of (Z.of_nat (length (elements s))))
                      (if bool_decide (0 < length figtext)%nat
                       then (fst figsize, snd figsize + figtextsize opts)
                       else figsize)
                      (if bool_decide (0 < length figtext)%nat
                       then figtextsize opts else 0)))
            end
        end
    end.
Proof.
  unfold prepare, mbind, Prep_bind, prep_bind.
  pose proof (check_arguments_run o) as Hck.
  destruct (check_arguments o) as [o0 [[]|e]]; simpl in Hck; subst o0;
    [|left; exists e; auto].
  rewrite get_models_run.
  destruct (forallb _ _) eqn:Hall; [|left; eexists; eauto].
  unfold get_data, mbind, Prep_bind, prep_bind, arg, prep_lift. simpl.
  fold (normalised E opts o).
  destruct (select_bands E (normalised E opts o) (o_bands o)) as [s|e];
    [|left; exists e; auto].
  right. exists s. split; [reflexivity|]. split; [reflexivity|]. simpl.
  destruct (normalise_offsets E (elements s) o) as [o1 [[]|e]]; simpl; [|reflexivity].
  destruct (build_figtext E _ o1) as [o2 [figtext|e]]; [|reflexivity].
  destruct (figure_size opts _) as [figsize|e]; [|reflexivity].
  destruct (bool_decide _); reflexivity.
Qed.

(** X7: the caller's [figtext] is written only in a call with exactly one
    model; with none, or with two or more, it is what it was when the call
    returns or raises. *)
Theorem figtext_kept_without_single_model o :
  length (obs_models (model_list (o_model o))) ≠ 1%nat →
  o_figtext (objects (plot_lc E opts o)) = o_figtext o.
Proof.
  intros Hlen. rewrite plot_lc_objects.
  destruct (prepare_steps o) as [(e & -> & _)|(s & _ & _ & Hsteps)]; [reflexivity|].
  simpl in Hsteps.
  pose proof (normalise_offsets_figtext (elements s) o) as Hfig.
  destruct (normalise_offsets E (elements s) o) as [o1 [[]|e]]; simpl in *;
    [|rewrite Hsteps; exact Hfig].
  pose proof (build_figtext_not_single _ o1 Hlen) as Hsame.
  destruct (build_figtext E _ o1) as [o2 [figtext|e]]; simpl in Hsame; subst o2;
    [|rewrite Hsteps; exact Hfig].
  destruct (figure_size opts _); rewrite Hsteps; exact Hfig.
Qed.

End PrepDetail.

(** * The offsets mapping, the captions and the figure *)

Section OffsetsFacts.

Variable E : Extern.

Local Open Scope Q_scope.

Lemma fill_offsets_keeps bands (d : gmap BandSpec Q) k v :
  d !! k = Some v → fill_offsets bands d !! k = Some v.
Proof.
  revert d. induction bands as [|b bands IH]; intros d Hk; simpl; [exact Hk|].
  apply IH. destruct (d !! BandObj b) eqn:Hb; [exact Hk|].
  rewrite lookup_insert_ne; [exact Hk|]. intros <-. congruence.
Qed.

Lemma fill_offsets_covers bands (d : gmap BandSpec Q) b :
  b ∈ bands → is_Some (fill_offsets bands d !! BandObj b).
Proof.
  revert d. induction bands as [|b' bands IH]; intros d Hb.
  - inversion Hb.
  - simpl. apply elem_of_cons in Hb as [->|Hb]; [|apply IH, Hb].
    destruct (d !! BandObj b') eqn:Hb'.
    + eexists. apply fill_offsets_keeps. exact Hb'.
    + eexists. apply fill_offsets_keeps. apply lookup_insert_eq.
Qed.

Lemma fill_offsets_default bands (d : gmap BandSpec Q) b :
  b ∈ bands → d !! BandObj b = None → fill_offsets bands d !! BandObj b = Some 0.
Proof.
  revert d. induction bands as [|b' bands IH]; intros d Hb Hnone.
  - inversion Hb.
  - simpl. destruct (decide (b' = b)) as [->|Hne].
    + rewrite Hnone. apply fill_offsets_keeps, lookup_insert_eq.
    + apply elem_of_cons in Hb as [->|Hb]; [contradiction|].
      apply IH; [exact Hb|].
      destruct (d !! BandObj b'); [exact Hnone|].
      rewrite lookup_insert_ne; [exact Hnone|]. intros [=]. contradiction.
Qed.

(** The keys the first loop leaves: those it has not visited, and the
    bandpasses of those it has. *)
Lemma rekey_offsets_keys items (acc d1 : gmap BandSpec Q) key :
  rekey_offsets E items acc = (d1, Returned tt) →
  is_Some (d1 !! key) →
  (is_Some (acc !! key) ∧ key ∉ items.*1) ∨
  ∃ k, k ∈ items.*1 ∧ key = BandObj (get_bandpass E k).
Proof.
  revert acc. induction items as [|[k0 v0] rest IH]; intros acc Hrun Hkey; simpl in *.
  - injection Hrun as ->. left. split; [exact Hkey|]. apply not_elem_of_nil.
  - destruct (acc !! k0) as [v|] eqn:Hk0; [|discriminate].
    destruct (delete k0 acc !! BandObj (get_bandpass E k0)) eqn:Hband; [discriminate|].
    destruct (IH _ Hrun Hkey) as [[Hacc Hrest]|(k & Hk & ->)].
    + destruct (decide (key = BandObj (get_bandpass E k0))) as [->|Hne].
      * right. exists k0. split; [left|reflexivity].
      * rewrite lookup_insert_ne in Hacc by congruence.
        destruct (decide (key = k0)) as [->|Hne0].
        { rewrite lookup_delete_eq in Hacc. destruct Hacc as [? [=]]. }
        rewrite lookup_delete_ne in Hacc by congruence.
        left. split; [exact Hacc|]. intros [->|Hin]%elem_of_cons; [congruence|contradiction].
    + right. exists k. split; [right; exact Hk|reflexivity].
Qed.

Lemma rekey_offsets_resolved (d d1 : gmap BandSpec Q) key :
  rekey_offsets E (map_to_list d) d = (d1, Returned tt) →
  is_Some (d1 !! key) →
  ∃ k, is_Some (d !! k) ∧ key = BandObj (get_bandpass E k).
Proof.
  intros Hrun Hkey.
  destruct (rekey_offsets_keys _ _ _ _ Hrun Hkey) as [[[v Hv] Hnot]|(k & Hk & ->)].
  - exfalso. apply Hnot. apply list_elem_of_fmap. exists (key, v).
    split; [reflexivity|]. apply elem_of_map_to_list. exact Hv.
  - apply list_elem_of_fmap in Hk as ([k' v] & -> & Hin).
    apply elem_of_map_to_list in Hin. exists k'. split; [eauto|reflexivity].
Qed.

End OffsetsFacts.

Section PrepareRuns.

Variable E : Extern.
Variable opts : Options.

Local Open Scope Q_scope.

(** The run of [prepare] behind a plan. *)
Lemma prepare_inv o o' plan :
  prepare E opts o = (o', Returned plan) →
  ∃ s o1 figtext figsize,
    select_bands E (normalised E opts o) (o_bands o) = Returned s ∧
    normalise_offsets E (elements s) o = (o1, Returned tt) ∧
    build_figtext E (obs_models (model_list (o_model o))) o1 = (o', Returned figtext) ∧
    figure_size opts (nrow_of (Z.of_nat (length (elements s)))) = Returned figsize ∧
    plan = mkPlan (obs_models (model_list (o_model o))) (normalised E opts o)
             (elements s) (o_offsets o1) figtext
             (nrow_of (Z.of_nat (length (elements s))))
             (if bool_decide (0 < length figtext)%nat
              then (fst figsize, snd figsize + figtextsize opts)
              else figsize)
             (if bool_decide (0 < length figtext)%nat then figtextsize opts else 0).
Proof.
  intros Hprep.
  destruct (prepare_steps E opts o) as [(e & He & _)|(s & Hs & _ & Hsteps)];
    [rewrite He in Hprep; discriminate|].
  exists s. simpl in Hsteps.
  destruct (normalise_offsets E (elements s) o) as [o1 [[]|e]] eqn:Hnorm; simpl in Hsteps;
    [|rewrite Hsteps in Hprep; discriminate].
  destruct (build_figtext E _ o1) as [o2 [figtext|e]] eqn:Hfig;
    [|rewrite Hsteps in Hprep; discriminate].
  destruct (figure_size opts _) as [figsize|e] eqn:Hsize;
    [|rewrite Hsteps in Hprep; discriminate].
  rewrite Hsteps in Hprep. injection Hprep as <- <-.
  exists o1, figtext, figsize. auto.
Qed.

Lemma normalise_offsets_given bands o o1 d :
  o_offsets o = Some d →
  normalise_offsets E bands o = (o1, Returned tt) →
  ∃ d1, rekey_offsets E (map_to_list d) d = (d1, Returned tt) ∧
        o_offsets o1 = Some (fill_offsets bands d1).
Proof.
  unfold normalise_offsets. intros ->.
  destruct (rekey_offsets E (map_to_list d) d) as [d1 [[]|e]]; intros [= <-].
  exists d1. split; reflexivity.
Qed.

(** X8: where the caller passes an offsets mapping, the mapping has, once a
    band has its subplot, an entry for that band under the bandpass itself,
    and the entry is 0 where no key of the mapping passed in names the
    band. *)
Theorem offsets_cover_subplots o d r cols n b :
  o_offsets o = Some d →
  Subplot r cols n b ∈ commands (plot_lc E opts o) →
  ∃ d', o_offsets (objects (plot_lc E opts o)) = Some d' ∧
    is_Some (d' !! BandObj b) ∧
    ((∀ k, is_Some (d !! k) → get_bandpass E k ≠ b) → d' !! BandObj b = Some 0).
Proof.
  intros Hd Hsub.
  destruct (plot_lc_command E opts o _ Hsub) as (plan & Hprep & Hfig).
  destruct (subplot_command E opts plan _ _ _ _ Hfig) as (k & Hk & _).
  destruct (prepare_inv _ _ _ Hprep) as (s & o1 & figtext & figsize & _ & Hnorm & Hbuild & _ & ->).
  simpl in Hk.
  assert (b ∈ elements s) as Hb.
  { apply (sorted_bands_elem (wave_eff b) b (elements s)).
    eapply list_elem_of_lookup_2. exact Hk. }
  destruct (normalise_offsets_given _ _ _ _ Hd Hnorm) as (d1 & Hrekey & Ho1).
  pose proof (build_figtext_offsets E (obs_models (model_list (o_model o))) o1) as Hsame.
  rewrite Hbuild in Hsame. simpl in Hsame.
  exists (fill_offsets (elements s) d1). split; [congruence|].
  split; [apply fill_offsets_covers, Hb|].
  intros Hnone. apply fill_offsets_default; [exact Hb|].
  destruct (d1 !! BandObj b) as [v|] eqn:Hv; [|reflexivity].
  destruct (rekey_offsets_resolved E d d1 (BandObj b) Hrekey) as (k' & Hk' & [= Heq]);
    [eauto|].
  exfalso. apply (Hnone k' Hk'). congruence.
Qed.

Lemma mapM_length {A B} (f : A → outcome B) (l : list A) (l' : list B) :
  mapM f l = Returned l' → length l' = length l.
Proof.
  revert l'. induction l as [|a l IH]; intros l'; simpl.
  - intros [= <-]. reflexivity.
  - unfold mbind, outcome_bind, obind, mret, outcome_ret.
    destruct (f a); [|discriminate].
    destruct (mapM f l) as [bs|] eqn:Hm; [|discriminate].
    intros [= <-]. simpl. rewrite (IH bs); reflexivity.
Qed.

Lemma build_figtext_single model o o' figtext :
  build_figtext E [model] o = (o', Returned figtext) →
  ∃ lines,
    mapM (param_line E model (default ∅ (o_errors o)))
         (seq 0 (length (param_names model))) = Returned lines ∧
    let n := (length (param_names model) - length (param_names model) / 2)%nat in
    let given := match o_figtext o with
                 | FigNone => []
                 | FigStr s => [Some s]
                 | FigList l => l
                 end in
    figtext = given ++ [Some (join newline (take n lines));
                        Some (join newline (drop n lines))] ∧
    match o_figtext o with
    | FigList _ => o_figtext o' = FigList figtext
    | f => o_figtext o' = f
    end.
Proof.
  unfold build_figtext, mbind, Prep_bind, prep_bind, arg, prep_lift, figtext_append.
  simpl.
  destruct (mapM _ _) as [lines|e]; [|discriminate].
  destruct (o_figtext o) as [|s|l] eqn:Hfig; simpl; rewrite ?Hfig; simpl;
    intros [= <- <-]; exists lines; (split; [reflexivity|]); simpl;
    rewrite <- ?app_assoc; simpl; rewrite ?Hfig; auto.
Qed.

Lemma check_arguments_passes o :
  is_Some (o_data o) ∨ (o_model o ≠ ModelNone ∧ is_Some (o_bands o)) →
  snd (check_arguments o) = Returned tt.
Proof.
  intros Hgiven. unfold check_arguments, mbind, Prep_bind, prep_bind, arg. simpl.
  destruct (o_model o); destruct (o_data o), (o_bands o); try reflexivity;
    destruct Hgiven as [[? [=]]|[Hm [? [=]]]]; contradiction.
Qed.

Lemma select_bands_returns o :
  is_Some (o_data o) ∨ is_Some (o_bands o) →
  is_returned (select_bands E (normalised E opts o) (o_bands o)) = true.
Proof.
  intros Hgiven. unfold select_bands, normalised.
  destruct (o_data o), (o_bands o); try reflexivity;
    destruct Hgiven as [[? [=]]|[? [=]]].
Qed.

(** X9: in a call with exactly one model, no offsets and a list given as
    [figtext], the caller's list has two more items after the call, whether
    the call returns or raises later on (for the figure size, or while
    drawing): the lines of the parameters, one for each parameter name,
    split into two columns of which the first has the extra line. *)
Theorem figtext_list_grows o model l lines :
  is_Some (o_data o) ∨ is_Some (o_bands o) →
  model_list (o_model o) = [Obs model] →
  o_offsets o = None →
  o_figtext o = FigList l →
  mapM (param_line E model (default ∅ (o_errors o)))
       (seq 0 (length (param_names model))) = Returned lines →
  let n := (length (param_names model) - length (param_names model) / 2)%nat in
  length lines = length (param_names model) ∧
  o_figtext (objects (plot_lc E opts o)) =
  FigList (l ++ [Some (join newline (take n lines));
                 Some (join newline (drop n lines))]).
Proof.
  intros Hgiven Hmodel Hoffsets Hfig Hlines n. split.
  { rewrite (mapM_length _ _ _ Hlines). apply length_seq. }
  rewrite plot_lc_objects.
  destruct (prepare_steps E opts o) as [(e & _ & [Hck|[Hall|Hsel]])|(s & _ & _ & Hsteps)].
  - rewrite check_arguments_passes in Hck; [discriminate|].
    destruct Hgiven as [Hd|Hb]; [left; exact Hd|right].
    split; [|exact Hb]. intros Hnone. rewrite Hnone in Hmodel. discriminate.
  - rewrite Hmodel in Hall. discriminate.
  - pose proof (select_bands_returns o Hgiven) as Hret. rewrite Hsel in Hret. discriminate.
  - simpl in Hsteps. rewrite Hmodel in Hsteps. simpl in Hsteps.
    assert (normalise_offsets E (elements s) o = (o, Returned tt)) as Hnorm
      by (unfold normalise_offsets; rewrite Hoffsets; reflexivity).
    rewrite Hnorm in Hsteps. simpl in Hsteps.
    destruct (build_figtext E [model] o) as [o2 [figtext|e]] eqn:Hbuild.
    + destruct (build_figtext_single _ _ _ _ Hbuild) as (lines' & Hlines' & Htext & Hout).
      rewrite Hlines in Hlines'. injection Hlines' as <-.
      rewrite Hfig in Hout, Htext. simpl in Htext.
      destruct (figure_size opts _); rewrite Hsteps; simpl; rewrite Hout, Htext; reflexivity.
    + exfalso. revert Hbuild.
      unfold build_figtext, mbind, Prep_bind, prep_bind, arg, prep_lift, figtext_append.
      simpl. rewrite Hlines, Hfig. discriminate.
Qed.

End PrepareRuns.

(** * The figure around the bands *)

Section FigureFacts.

Variable E : Extern.
Variable opts : Options.

Local Open Scope Q_scope.

Lemma for_each_draws_elem {A} (l : list A) (body : A → Drawing unit) (P : Cmd → Prop) :
  (∀ x, x ∈ l → draws (body x) P (λ _, True)) → draws (for_each l body) P (λ _, True).
Proof.
  induction l as [|x l IH]; intros Hbody; simpl.
  - apply draws_ret. exact I.
  - apply draws_seq.
    + apply Hbody. left.
    + intros _. apply IH. intros y Hy. apply Hbody. right. exact Hy.
Qed.

Lemma write_figtext_draws plan :
  draws (write_figtext (p_figtext plan)) (before_layout plan) (λ _, True).
Proof.
  unfold write_figtext. apply for_each_draws_elem. intros [i [s|]] Hin; simpl.
  - apply draws_emit; [|exact I]. simpl.
    apply elem_of_lookup_imap in Hin as (i' & x & [= -> <-] & Hx).
    exists i'. auto.
  - apply draws_ret. exact I.
Qed.

Lemma plot_bands_before_layout plan axnum l :
  draws (plot_bands E opts plan axnum l) (before_layout plan) (λ _, True).
Proof.
  eapply draws_weaken; [apply plot_bands_draws| |auto].
  intros c (k & w & b & _ & Hc). destruct c; simpl in *; auto; contradiction.
Qed.

(** A run of lines 202-319: the commands up to the bands, and then either
    an exception or the three closing commands. *)
Lemma render_run plan :
  ∃ pre,
    Forall (before_layout plan) (Figure (fst (p_figsize plan)) (snd (p_figsize plan)) :: pre) ∧
    ((∃ e, render E opts plan [] =
           (Figure (fst (p_figsize plan)) (snd (p_figsize plan)) :: pre, Raised e)) ∨
     ∃ top, truediv (p_figtextsize plan) (snd (p_figsize plan)) = Returned top ∧
       render E opts plan [] =
       (Figure (fst (p_figsize plan)) (snd (p_figsize plan)) :: pre ++ closing opts top,
        Returned tt)).
Proof.
  unfold render.
  set (fig := Figure _ _).
  set (ft := if bool_decide _ then write_figtext _ else mret tt).
  assert (draws ft (before_layout plan) (λ _, True)) as Hft.
  { unfold ft. destruct (bool_decide _); [apply write_figtext_draws|].
    apply draws_ret. exact I. }
  assert (before_layout plan fig) as Hfig.
  { unfold fig. simpl. destruct (p_figsize plan). reflexivity. }
  unfold mbind, Drawing_bind, draw_bind, emit. simpl.
  destruct (Hft [fig]) as [Hc1 _].
  destruct (ft [fig]) as [c1 [[]|e]]; simpl in *.
  2:{ exists c1. split; [constructor; assumption|]. left. eauto. }
  destruct (plot_bands_before_layout plan 0 (sorted_bands (p_bands plan)) (fig :: c1))
    as [Hc2 _].
  destruct (plot_bands E opts plan 0 (sorted_bands (p_bands plan)) (fig :: c1))
    as [c2 [[]|e]]; simpl in *.
  2:{ exists (c1 ++ c2). split; [constructor; [assumption|apply Forall_app; auto]|].
      left. eauto. }
  unfold draw_lift. simpl.
  destruct (truediv (p_figtextsize plan) (snd (p_figsize plan))) as [top|e]; simpl.
  2:{ exists (c1 ++ c2). rewrite app_nil_r.
      split; [constructor; [assumption|apply Forall_app; auto]|]. left. eauto. }
  exists (c1 ++ c2). split; [constructor; [assumption|apply Forall_app; auto]|].
  right. exists top. split; [reflexivity|]. unfold closing.
  destruct (fname opts); simpl; rewrite <- app_assoc; reflexivity.
Qed.

End FigureFacts.

Section FigureCalls.

Variable E : Extern.
Variable opts : Options.

Local Open Scope Q_scope.

(** A call, split at [plt.tight_layout]. *)
Lemma plot_lc_run o :
  (∃ e, plot_lc E opts o = mkResult (objects (plot_lc E opts o)) [] (Raised e)) ∨
  ∃ plan pre,
    prepare E opts o = (objects (plot_lc E opts o), Returned plan) ∧
    let fig := Figure (fst (p_figsize plan)) (snd (p_figsize plan)) in
    Forall (before_layout plan) (fig :: pre) ∧
    ((∃ e, commands (plot_lc E opts o) = fig :: pre ∧
           result (plot_lc E opts o) = Raised e) ∨
     ∃ top, truediv (p_figtextsize plan) (snd (p_figsize plan)) = Returned top ∧
       commands (plot_lc E opts o) = fig :: pre ++ closing opts top ∧
       result (plot_lc E opts o) = Returned tt).
Proof.
  unfold plot_lc. destruct (prepare E opts o) as [o' [plan|e]]; simpl; [|eauto].
  right. exists plan.
  destruct (render_run E opts plan) as (pre & Hpre & [[e Hrun]|(top & Htop & Hrun)]);
    exists pre; rewrite Hrun; simpl; (split; [reflexivity|]); (split; [exact Hpre|]).
  - left. eauto.
  - right. eauto.
Qed.

Lemma before_layout_closing plan c top :
  before_layout plan c → c ∉ closing opts top.
Proof.
  unfold closing. intros Hc Hin.
  repeat (apply elem_of_cons in Hin as [->|Hin]); simpl in Hc; try contradiction.
  - destruct (fname opts); contradiction.
  - inversion Hin.
Qed.

(** X10: a call that returns has issued, after the figure and the bands,
    [tight_layout], then [show] when no file name is given and otherwise
    [savefig] with the file name and the keyword arguments as they were
    passed, then [close], each once and in this order; a call that raises
    has issued none of the three, so that a figure it has created stays
    open. *)
Theorem figure_closed_only_on_return o :
  let res := plot_lc E opts o in
  let ending c :=
    match c with
    | TightLayout _ | Show | Savefig _ _ | Close => True
    | _ => False
    end in
  (result res = Returned tt →
   ∃ w h pre top,
     commands res =
     Figure w h :: pre ++
       [TightLayout top;
        match fname opts with None => Show | Some f => Savefig f (kwargs opts) end;
        Close] ∧
     Forall (λ c, ¬ ending c) (Figure w h :: pre)) ∧
  (∀ e, result res = Raised e → Forall (λ c, ¬ ending c) (commands res)).
Proof.
  intros res ending.
  assert (∀ plan l, Forall (before_layout plan) l → Forall (λ c, ¬ ending c) l) as Hnot.
  { intros plan l Hl. eapply Forall_impl; [exact Hl|].
    intros c Hc. destruct c; simpl in *; auto. }
  unfold res.
  destruct (plot_lc_run o) as [[e He]|(plan & pre & _ & Hpre & [(e & Hc & Hr)|(top & _ & Hc & Hr)])].
  - rewrite He. simpl. split; [discriminate|]. intros _ _. constructor.
  - rewrite Hc, Hr. split; [discriminate|]. intros _ _. exact (Hnot _ _ Hpre).
  - rewrite Hc, Hr. split; [|discriminate]. intros _.
    exists (fst (p_figsize plan)), (snd (p_figsize plan)), pre, (1 - top).
    split; [reflexivity|]. exact (Hnot _ _ Hpre).
Qed.

Lemma plot_lc_before_layout o c :
  c ∈ commands (plot_lc E opts o) →
  match c with TightLayout _ | Show | Savefig _ _ | Close => False | _ => True end →
  ∃ plan, prepare E opts o = (objects (plot_lc E opts o), Returned plan) ∧
          before_layout plan c.
Proof.
  intros Hin Hc.
  destruct (plot_lc_run o) as [[e He]|(plan & pre & Hprep & Hpre & [(e & Hcs & _)|(top & _ & Hcs & _)])].
  - rewrite He in Hin. simpl in Hin. inversion Hin.
  - exists plan. split; [exact Hprep|]. rewrite Hcs in Hin.
    rewrite Forall_forall in Hpre. apply Hpre, Hin.
  - exists plan. split; [exact Hprep|]. rewrite Hcs in Hin.
    rewrite app_comm_cons in Hin. apply elem_of_app in Hin as [Hin|Hin].
    + rewrite Forall_forall in Hpre. apply Hpre, Hin.
    + unfold closing in Hin.
      repeat (apply elem_of_cons in Hin as [->|Hin]); try contradiction.
      * destruct (fname opts); contradiction.
      * inversion Hin.
Qed.

Lemma build_figtext_returned models o o' figtext :
  build_figtext E models o = (o', Returned figtext) →
  let given := match o_figtext o with
               | FigNone => []
               | FigStr s => [Some s]
               | FigList l => l
               end in
  match models with
  | [_] => ∃ c1 c2, figtext = given ++ [Some c1; Some c2]
  | _ => figtext = given
  end.
Proof.
  intros Hbuild. destruct models as [|m [|m2 ms]].
  - revert Hbuild. unfold build_figtext, mbind, Prep_bind, prep_bind, arg. simpl.
    intros [= _ <-]. reflexivity.
  - destruct (build_figtext_single E _ _ _ _ Hbuild) as (lines & _ & Htext & _).
    simpl in *. eauto.
  - revert Hbuild. unfold build_figtext, mbind, Prep_bind, prep_bind, arg. simpl.
    intros [= _ <-]. reflexivity.
Qed.

Lemma figure_size_aspect nrow w h :
  figure_size opts nrow = Returned (w, h) →
  3 * inject_Z nrow * w == 4 * inject_Z ncol * h ∧
  (∀ x, xfigsize opts = Some x → w = x) ∧
  (∀ y, yfigsize opts = Some y → h = y) ∧
  (xfigsize opts = None → yfigsize opts = None → w == 8 ∧ h == 3 * inject_Z nrow).
Proof.
  unfold figure_size, truediv, mbind, outcome_bind, obind.
  destruct (xfigsize opts) as [x|], (yfigsize opts) as [y|]; try discriminate.
  - intros [= <- <-]. split; [|split; [|split]]; try discriminate.
    + unfold ncol. field.
    + intros ? [= <-]. reflexivity.
  - destruct (Qeq_bool (inject_Z nrow) 0) eqn:Hz; [discriminate|].
    intros [= <- <-]. apply Qeq_bool_neq in Hz.
    split; [|split; [|split]]; try discriminate.
    + unfold ncol. field. exact Hz.
    + intros ? [= <-]. reflexivity.
  - intros [= <- <-]. split; [|split; [|split]]; try discriminate.
    + unfold ncol. ring.
    + intros _ _. split; reflexivity.
Qed.

(** X11: the figure is sized so that each panel of the grid is four wide to
    three high, whichever of the two sizes is given, with the height of the
    captions, if there are any, on top: three times the rows times the width
    is four times the columns times the height that is left for the
    panels.  A size that is given is taken as it is. *)
Theorem figure_panels_four_by_three o w h :
  Figure w h ∈ commands (plot_lc E opts o) →
  let nrow := nrow_of (Z.of_nat (size (selected_bands E opts o))) in
  ∃ text,
    (text = 0 ∨ text = figtextsize opts) ∧
    (length (obs_models (model_list (o_model o))) = 1%nat → text = figtextsize opts) ∧
    (length (obs_models (model_list (o_model o))) ≠ 1%nat → o_figtext o = FigNone →
     text = 0) ∧
    3 * inject_Z nrow * w == 4 * inject_Z ncol * (h - text) ∧
    (∀ x, xfigsize opts = Some x → w = x) ∧
    (∀ y, yfigsize opts = Some y → h == y + text) ∧
    (xfigsize opts = None → yfigsize opts = None →
     w == 8 ∧ h == 3 * inject_Z nrow + text).
Proof.
  intros Hin nrow.
  destruct (plot_lc_before_layout o _ Hin I) as (plan & Hprep & Hfig). simpl in Hfig.
  destruct (prepare_returned E opts _ _ _ Hprep) as (Hsel & _).
  destruct (prepare_inv E opts _ _ _ Hprep)
    as (s & o1 & figtext & [fw fh] & Hs & Hnorm & Hbuild & Hsize & ->).
  rewrite Hsel in Hs. injection Hs as <-. simpl in Hfig.
  assert (length (elements (selected_bands E opts o)) = size (selected_bands E opts o))
    as Hlen by reflexivity.
  rewrite Hlen in Hsize. fold nrow in Hsize.
  destruct (figure_size_aspect _ _ _ Hsize) as (Hasp & Hx & Hy & Hdef).
  pose proof (build_figtext_returned _ _ _ _ Hbuild) as Htext. simpl in Htext.
  pose proof (normalise_offsets_figtext E (elements (selected_bands E opts o)) o) as Hf1.
  rewrite Hnorm in Hf1. simpl in Hf1. rewrite Hf1 in Htext.
  destruct (bool_decide (0 < length figtext)%nat) eqn:Hcap; simpl in Hfig;
    injection Hfig as -> ->.
  - exists (figtextsize opts). split; [auto|]. split; [auto|]. split.
    { intros Hlen1 Hnone. rewrite Hnone in Htext.
      apply bool_decide_eq_true_1 in Hcap.
      destruct (obs_models (model_list (o_model o))) as [|m [|m2 ms]];
        simpl in *; try lia; subst figtext; simpl in Hcap; lia. }
    split; [rewrite Hasp; ring|]. split; [exact Hx|]. split.
    + intros y Hyy. rewrite (Hy y Hyy). reflexivity.
    + intros Hnx Hny. destruct (Hdef Hnx Hny) as [Hw Hh]. split; [exact Hw|].
      rewrite Hh. reflexivity.
  - exists 0. split; [auto|]. split.
    { intros Hlen1. apply bool_decide_eq_false_1 in Hcap.
      destruct (obs_models (model_list (o_model o))) as [|m [|m2 ms]];
        simpl in *; try lia.
      destruct Htext as (c1 & c2 & ->). rewrite length_app in Hcap. simpl in Hcap. lia. }
    split; [auto|].
    split; [rewrite Hasp; ring|]. split; [exact Hx|]. split.
    + intros y Hyy. rewrite (Hy y Hyy). ring.
    + intros Hnx Hny. destruct (Hdef Hnx Hny) as [Hw Hh]. split; [exact Hw|].
      rewrite Hh. ring.
Qed.

End FigureCalls.

Section GridFacts.

Variable E : Extern.
Variable opts : Options.

Local Open Scope Q_scope.

Lemma sorted_bands_NoDup bands : NoDup bands → NoDup (sorted_bands bands).
Proof.
  intros Hnodup. unfold sorted_bands.
  rewrite merge_sort_Permutation, zip_waves.
  apply NoDup_fmap_2; [|exact Hnodup]. intros b1 b2 [= _ ->]. reflexivity.
Qed.

(** X12: the subplots are numbered 1, 2, ... without a gap or a repeat:
    the number of a subplot is at least one, at most the number of bands
    selected, and within the grid; and two subplots have the same number
    exactly when they are for the same band, so that no band is plotted
    twice. *)
Theorem subplot_numbers_fit_grid o r cols n b :
  Subplot r cols n b ∈ commands (plot_lc E opts o) →
  (1 ≤ n ≤ Z.of_nat (size (selected_bands E opts o)))%Z ∧
  (n ≤ r * cols)%Z ∧
  ∀ r' cols' n' b',
    Subplot r' cols' n' b' ∈ commands (plot_lc E opts o) → (n = n' ↔ b = b').
Proof.
  intros Hsub.
  destruct (subplot_of_call E opts o _ _ _ _ Hsub) as (k & Hk & -> & -> & ->).
  pose proof (lookup_lt_Some _ _ _ Hk) as Hlt.
  rewrite sorted_bands_length in Hlt.
  change (length (elements (selected_bands E opts o)))
    with (size (selected_bands E opts o)) in Hlt.
  split; [lia|]. split.
  { unfold nrow_of, ncol. Z.to_euclidean_division_equations. lia. }
  intros r' cols' n' b' Hsub'.
  destruct (subplot_of_call E opts o _ _ _ _ Hsub') as (k' & Hk' & -> & _).
  split.
  - intros Heq. assert (k' = k) as -> by lia. congruence.
  - intros <-. f_equal. f_equal.
    eapply NoDup_lookup; [|exact Hk|exact Hk'].
    apply sorted_bands_NoDup, NoDup_elements.
Qed.

(** X13: each caption is written at height 0.95 and at x = 0.05 + 0.9 i / n,
    where it is item [i] of the [n] items of [figtext] (with the two columns
    of parameters appended when there is exactly one model): the captions
    start left to right between 0.05 and 0.95, and an item that is [None]
    leaves its place empty. *)
Theorem captions_left_to_right o x y s :
  FigText x y s ∈ commands (plot_lc E opts o) →
  let given := match o_figtext o with
               | FigNone => []
               | FigStr s => [Some s]
               | FigList l => l
               end in
  ∃ captions i,
    match obs_models (model_list (o_model o)) with
    | [_] => ∃ c1 c2, captions = given ++ [Some c1; Some c2]
    | _ => captions = given
    end ∧
    captions !! i = Some (Some s) ∧
    y = 95 # 100 ∧
    x = (5 # 100) + (9 # 10) *
        (inject_Z (Z.of_nat i) / inject_Z (Z.of_nat (length captions))) ∧
    5 # 100 <= x ∧ x < 95 # 100.
Proof.
  intros Hin given.
  destruct (plot_lc_before_layout E opts o _ Hin I) as (plan & Hprep & i & Hi & Hy & Hx).
  destruct (prepare_inv E opts _ _ _ Hprep)
    as (sel & o1 & figtext & figsize & _ & Hnorm & Hbuild & _ & ->).
  simpl in Hi, Hx.
  pose proof (build_figtext_returned E _ _ _ _ Hbuild) as Htext. simpl in Htext.
  pose proof (normalise_offsets_figtext E (elements sel) o) as Hf1.
  rewrite Hnorm in Hf1. simpl in Hf1. rewrite Hf1 in Htext.
  exists figtext, i. split; [exact Htext|]. split; [exact Hi|]. split; [exact Hy|].
  split; [exact Hx|].
  pose proof (lookup_lt_Some _ _ _ Hi) as Hlt.
  assert (0 < inject_Z (Z.of_nat (length figtext))) as Hpos.
  { change 0 with (inject_Z 0). rewrite <- Zlt_Qlt. lia. }
  assert (0 <= inject_Z (Z.of_nat i) / inject_Z (Z.of_nat (length figtext))) as Hlo.
  { apply Qle_shift_div_l; [exact Hpos|]. rewrite Qmult_0_l.
    change 0 with (inject_Z 0). rewrite <- Zle_Qle. lia. }
  assert (inject_Z (Z.of_nat i) / inject_Z (Z.of_nat (length figtext)) < 1) as Hhi.
  { apply Qlt_shift_div_r; [exact Hpos|]. rewrite Qmult_1_l.
    rewrite <- Zlt_Qlt. lia. }
  subst x. revert Hlo Hhi.
  generalize (inject_Z (Z.of_nat i) / inject_Z (Z.of_nat (length figtext))).
  intros q Hlo Hhi. split; Lqa.lra.
Qed.

Lemma build_figtext_not_single_returned models o :
  length models ≠ 1%nat →
  build_figtext E models o =
  (o, Returned match o_figtext o with
               | FigNone => []
               | FigStr s => [Some s]
               | FigList l => l
               end).
Proof.
  intros Hlen. unfold build_figtext, mbind, Prep_bind, prep_bind, arg. simpl.
  destruct models as [|m [|m2 ms]]; try reflexivity. simpl in Hlen. lia.
Qed.

(** X14: a call for which no band is selected, with no caption and not
    exactly one model, never returns: where it gets as far as the figure, the
    figure has height 0, nothing else is drawn, [tight_layout] divides by
    that height, and the figure is left open. *)
Theorem no_band_no_caption_raises o :
  selected_bands E opts o = ∅ →
  o_figtext o = FigNone ∨ o_figtext o = FigList [] →
  length (obs_models (model_list (o_model o))) ≠ 1%nat →
  ∃ e, result (plot_lc E opts o) = Raised e ∧
    (commands (plot_lc E opts o) = [] ∨
     e = ZeroDivisionError ∧
     ∃ w h, h == 0 ∧ commands (plot_lc E opts o) = [Figure w h]).
Proof.
  intros Hsel Hfig Hlen.
  destruct (prepare E opts o) as [o' [plan|e]] eqn:Hprep.
  2:{ exists e. unfold plot_lc. rewrite Hprep. simpl. auto. }
  destruct (prepare_returned E opts _ _ _ Hprep) as (Hs & _).
  destruct (prepare_inv E opts _ _ _ Hprep)
    as (s & o1 & figtext & [fw fh] & Hs' & Hnorm & Hbuild & Hsize & ->).
  rewrite Hs in Hs'. injection Hs' as <-. rewrite Hsel in *.
  rewrite elements_empty in *. simpl in Hsize.
  pose proof (normalise_offsets_figtext E [] o) as Hf1.
  rewrite Hnorm in Hf1. simpl in Hf1.
  rewrite (build_figtext_not_single_returned _ o1 Hlen), Hf1 in Hbuild.
  assert (figtext = []) as ->.
  { destruct Hfig as [Hf|Hf]; rewrite Hf in Hbuild; injection Hbuild as _ <-; reflexivity. }
  assert (fh == 0) as Hzero.
  { revert Hsize. unfold figure_size, truediv, mbind, outcome_bind, obind.
    change (nrow_of (Z.of_nat 0)) with 0%Z. change (inject_Z 0) with 0.
    change (inject_Z ncol) with 2.
    destruct (xfigsize opts) as [x|], (yfigsize opts) as [y|]; try discriminate.
    - intros [= _ <-]. field.
    - intros [= _ <-]. reflexivity. }
  exists ZeroDivisionError. unfold plot_lc. rewrite Hprep.
  unfold render, mbind, Drawing_bind, draw_bind, emit, draw_lift, truediv. simpl.
  apply Qeq_bool_iff in Hzero. rewrite Hzero. simpl.
  split; [reflexivity|]. right. split; [reflexivity|].
  exists fw, fh. split; [apply Qeq_bool_iff, Hzero|reflexivity].
Qed.

(** X15: where a band has model curves, the y limits are reset to a window
    inside the one matplotlib chose: the upper limit is at most twice the
    largest model flux, and the room left beneath the smallest model flux is
    at most the room left above the largest. *)
Theorem reset_ylim_never_widens axnum lo los hi his t :
  let mflux_min := foldl Qmin lo los in
  let mflux_max := foldl Qmax hi his in
  ∃ ymin ymax,
    reset_ylim E axnum (lo :: los) (hi :: his) t =
    ([Draw (MainAxes axnum) (Ylim ymin ymax)], Returned tt) ∧
    fst (get_ylim E t) <= ymin ∧ ymax <= snd (get_ylim E t) ∧
    ymax <= 2 * mflux_max ∧
    mflux_min - ymin <= ymax - mflux_max.
Proof.
  intros mflux_min mflux_max.
  unfold reset_ylim, mbind, Drawing_bind, draw_bind, drawn_so_far, emit. simpl.
  fold mflux_min mflux_max.
  destruct (get_ylim E t) as [ymin0 ymax0]. simpl.
  eexists _, _. split; [reflexivity|].
  pose proof (Q.le_max_l ymin0 (mflux_min - (Qmin ymax0 (2 * mflux_max) - mflux_max))).
  pose proof (Q.le_max_r ymin0 (mflux_min - (Qmin ymax0 (2 * mflux_max) - mflux_max))).
  pose proof (Q.le_min_l ymax0 (2 * mflux_max)).
  pose proof (Q.le_min_r ymax0 (2 * mflux_max)).
  revert H H0 H1 H2.
  generalize (Qmax ymin0 (mflux_min - (Qmin ymax0 (2 * mflux_max) - mflux_max))).
  generalize (Qmin ymax0 (2 * mflux_max)).
  intros q1 q2 H H0 H1 H2.
  split; [exact H|]. split; [exact H1|]. split; [exact H2|]. Lqa.lra.
Qed.

End GridFacts.

(** * [animate_model] without a model *)

Section AnimateFacts.

Import Animate.

Variable opts : Animate.Options.

(** X16: [animate_model] cannot animate an empty list of models: whatever
    the options, the call raises, and with no start of the time range given
    the exception is the [ValueError] of [min] on an empty sequence. *)
Theorem animate_model_needs_a_model arg :
  model_specs arg = [] →
  ∃ e, animate_model opts arg = Raised e ∧
       (fst (time_range opts) = None →
        e = ValueError "min() arg is an empty sequence").
Proof.
  intros Hnone. unfold animate_model, get_models. rewrite Hnone. simpl.
  apply animate_models_nil.
Qed.

End AnimateFacts.

(** * [animate_model]: the files written *)

Section MovieFacts.

Import Movie.

Lemma rfind_after base e :
  rfind dot e = (-1)%Z →
  rfind dot (base +:+ String dot e) = Z.of_nat (String.length base).
Proof.
  intros He. induction base as [|a base IH]; simpl.
  - rewrite He. reflexivity.
  - rewrite IH. destruct (0 <=? Z.of_nat (String.length base))%Z eqn:Hle; [lia|].
    apply Z.leb_gt in Hle. lia.
Qed.

Lemma take_chars_app base s : take_chars (String.length base) (base +:+ s) = base.
Proof.
  induction base as [|a base IH]; simpl.
  - destruct s; reflexivity.
  - rewrite IH. reflexivity.
Qed.

Lemma drop_chars_app base c e :
  drop_chars (S (String.length base)) (base +:+ String c e) = e.
Proof. induction base as [|a base IH]; simpl; [reflexivity|exact IH]. Qed.

(** X20: for a file name with an extension, [base.ext] where [ext] has no
    dot, the still image is written to [base.png], the extension is [ext],
    and the codec is chosen by it: libx264 for mp4, libvpx for webm and mpeg4
    for anything else.  [base] may itself contain dots. *)
Theorem still_image_replaces_extension base e :
  rfind dot e = (-1)%Z →
  stillfname (base +:+ String dot e) = base +:+ ".png" ∧
  ext (base +:+ String dot e) = e ∧
  codec (base +:+ String dot e) =
  if String.eqb e "mp4" then "libx264"
  else if String.eqb e "webm" then "libvpx" else "mpeg4".
Proof.
  intros He.
  assert (ext (base +:+ String dot e) = e) as Hext.
  { unfold ext, slice_from. rewrite (rfind_after base e He).
    replace (Z.to_nat (Z.of_nat (String.length base) + 1)) with (S (String.length base))
      by lia.
    apply drop_chars_app. }
  split; [|split; [exact Hext|unfold codec; rewrite Hext; reflexivity]].
  unfold stillfname, slice_to. rewrite (rfind_after base e He).
  destruct (Z.of_nat (String.length base) <? 0)%Z eqn:Hneg;
    [apply Z.ltb_lt in Hneg; lia|].
  rewrite Nat2Z.id, take_chars_app. reflexivity.
Qed.

(** X21: a file name without a dot is not taken as it is: [rfind] gives -1,
    so that the name of the still image is the file name less its last
    character, with [.png], and the whole file name is taken as the
    extension. *)
Theorem name_without_dot_loses_a_character fname :
  rfind dot fname = (-1)%Z →
  stillfname fname = take_chars (String.length fname - 1) fname +:+ ".png" ∧
  ext fname = fname.
Proof.
  intros Hnone. unfold stillfname, ext, slice_to, slice_from. rewrite Hnone. simpl.
  split.
  - replace (Z.to_nat (Z.of_nat (String.length fname) + -1))
      with (String.length fname - 1)%nat by lia.
    reflexivity.
  - destruct fname; reflexivity.
Qed.

End MovieFacts.

(** * [plot_param_samples]: the grid *)

Section GridOfPanels.

Import Samples.

Lemma length_bind_singleton {A B} (g : A → B) (l : list A) :
  length (l ≫= λ i, [g i]) = length l.
Proof. induction l as [|a l IH]; simpl; [reflexivity|]. f_equal. exact IH. Qed.

Lemma length_triangle {B} (g : nat → nat → B) a n :
  (2 * length (seq a n ≫= λ j, seq 0 (j + 1) ≫= λ i, [g j i]) = n * (2 * a + n + 1))%nat.
Proof.
  revert a. induction n as [|n IH]; intros a; simpl; [reflexivity|].
  rewrite length_app.
  pose proof (length_bind_singleton (g a) (seq 0 (a + 1))) as Hrow.
  simpl in Hrow. rewrite length_seq in Hrow.
  pose proof (IH (S a)) as Hrest. simpl in Hrest.
  unfold mbind in *. rewrite Hrow. nia.
Qed.

Lemma plot_param_samples_elem names samples weights p :
  p ∈ plot_param_samples names samples weights ↔
  ∃ j i, (i ≤ j < length names)%nat ∧
    p = mkPanel j i (j * length names + i + 1)
          (if bool_decide (i = j) then Histogram else Contour)
          (lims samples weights i)
          (if bool_decide (i = j) then None else Some (lims samples weights j)).
Proof.
  unfold plot_param_samples. rewrite list_elem_of_bind. split.
  - intros (j & Hp & Hj). apply list_elem_of_bind in Hp as (i & Hp & Hi).
    apply elem_of_seq in Hj, Hi. apply list_elem_of_singleton in Hp.
    exists j, i. split; [lia|]. rewrite Hp. destruct (bool_decide (i = j)); reflexivity.
  - intros (j & i & Hij & ->). exists j. split; [|apply elem_of_seq; lia].
    apply list_elem_of_bind. exists i. split; [|apply elem_of_seq; lia].
    apply list_elem_of_singleton. destruct (bool_decide (i = j)); reflexivity.
Qed.

(** X22: the panels of [plot_param_samples] are the lower triangle of an
    [npar] by [npar] grid, the diagonal included, one panel for each place:
    the panel in row [j] and column [i <= j] has subplot number
    [j npar + i + 1], which is within the grid and the number of no other
    panel; it is a histogram on the diagonal and a contour plot beneath it;
    its x window is that of parameter [i] and, beneath the diagonal, its y
    window is that of parameter [j], so that the panels of a column share
    their x axis and the panels of a row their y axis.  There are
    [npar (npar + 1) / 2] panels. *)
Theorem panels_fill_lower_triangle names samples weights :
  let npar := length names in
  let panels := plot_param_samples names samples weights in
  (∀ p, p ∈ panels ↔
        ∃ j i, (i ≤ j < npar)%nat ∧
          p = mkPanel j i (j * npar + i + 1)
                (if bool_decide (i = j) then Histogram else Contour)
                (lims samples weights i)
                (if bool_decide (i = j) then None else Some (lims samples weights j))) ∧
  (2 * length panels = npar * (npar + 1))%nat ∧
  (∀ p, p ∈ panels → (1 ≤ panel_number p ≤ npar * npar)%nat) ∧
  (∀ p q, p ∈ panels → q ∈ panels → panel_number p = panel_number q → p = q).
Proof.
  intros npar panels.
  pose proof (plot_param_samples_elem names samples weights) as Hspec.
  fold npar panels in Hspec.
  split; [exact Hspec|]. split.
  { unfold panels, plot_param_samples. fold npar.
    rewrite (length_triangle
               (λ j i, if bool_decide (i = j)
                       then mkPanel j i (j * npar + i + 1) Histogram
                              (lims samples weights i) None
                       else mkPanel j i (j * npar + i + 1) Contour
                              (lims samples weights i) (Some (lims samples weights j)))
               0 npar).
    lia. }
  split.
  - intros p (j & i & Hij & ->)%Hspec. simpl. nia.
  - intros p q (j & i & Hij & ->)%Hspec (j' & i' & Hij' & ->)%Hspec. simpl.
    intros Hnum. assert (j = j') as <- by nia. assert (i = i') as <- by nia.
    reflexivity.
Qed.

Local Open Scope R_scope.

(** X23: with weights that sum to one, one for each draw, the windows are
    the five standard deviations about the mean that the bins are described
    by: the x window of every panel is the weighted mean of the panel's
    column of the samples, less and plus five times the weighted standard
    deviation of that column. *)
Theorem windows_with_normalised_weights names samples w p :
  length w = length samples → total w = 1 →
  p ∈ plot_param_samples names samples (Some w) →
  let col := column samples (panel_col p) in
  panel_xlim p = (weighted_mean col w - 5 * weighted_std col w,
                  weighted_mean col w + 5 * weighted_std col w).
Proof.
  intros Hlen Hsum Hp.
  apply plot_param_samples_elem in Hp as (j & i & _ & ->).
  simpl. apply lims_normalised_weights; assumption.
Qed.

End GridOfPanels.

(** * [plot_param_samples]: labels *)

Section TickFacts.

Import Ticks.

(** X24: tick labels and axis labels are on the outer edge of the grid only.
    For the panel in row [j] and column [i <= j] the setup never fails; the
    x axis is labelled, with the name of parameter [i], in the bottom row and
    nowhere else; the y axis is labelled, with the name of parameter [j], in
    the first column except its top panel, and nowhere else, so that a
    histogram never has a y label; an axis without a label has the null
    formatter, and the y axis has ticks except on the diagonal. *)
Theorem labels_on_outer_edge names j i :
  (i ≤ j < length names)%nat →
  ∃ setup name_i name_j,
    axis_setup names j i = Returned setup ∧
    names !! i = Some name_i ∧ names !! j = Some name_j ∧
    x_label setup = (if bool_decide (j = length names - 1)%nat
                     then Some name_i else None) ∧
    y_label setup = (if bool_decide (i = 0%nat ∧ j ≠ 0%nat)
                     then Some name_j else None) ∧
    (x_formatter setup = NullFormatter ↔ x_label setup = None) ∧
    (y_formatter setup = NullFormatter ↔ y_label setup = None) ∧
    x_locator setup = AutoLocator 6 ∧
    (y_locator setup = NullLocator ↔ i = j).
Proof.
  intros Hij.
  destruct (lookup_lt_is_Some_2 names i) as [name_i Hi]; [lia|].
  destruct (lookup_lt_is_Some_2 names j) as [name_j Hj]; [lia|].
  unfold axis_setup, mbind, outcome_bind, obind, getitem. rewrite Hi, Hj.
  repeat case_bool_decide; simpl;
    eexists _, name_i, name_j; (split; [reflexivity|]); simpl;
    repeat case_bool_decide; try lia;
    repeat split; auto; try discriminate; try lia;
    intros; try lia; try discriminate; try congruence.
Qed.

End TickFacts.

(** * What a call that returns has drawn *)

Section DrawnForSure.

Variable E : Extern.
Variable opts : Options.
Variable plan : Plan.

Lemma plot_data_issues axnum wave b data :
  issues (plot_data E plan axnum b (band_color E wave) data)
         (errorbar_cmd E plan axnum wave b data).
Proof.
  unfold plot_data, errorbar_cmd, plotted_t0. cbv zeta.
  destruct (p_models plan) as [|m ms].
  - apply issues_bind_val
      with (P := λ _, True) (Q := λ x, x = time <$> band_rows E b data).
    { apply draws_ret. reflexivity. }
    intros x ->. apply issues_bind_l, issues_emit.
  - apply issues_bind_val
      with (P := λ _, True)
           (Q := λ x, ∃ t0, first_model_t0 plan = Returned t0 ∧
                            x = (λ r, time r - t0)%Q <$> band_rows E b data).
    { apply draws_bind with (Q := λ t0, first_model_t0 plan = Returned t0).
      - apply draws_lift. auto.
      - intros t0 Ht0. apply draws_ret. eauto. }
    intros x (t0 & Ht0 & ->). rewrite Ht0. apply issues_bind_l, issues_emit.
Qed.

Lemma plot_models_issues axnum wave b i ms mins maxes j model :
  ms !! j = Some model → bandoverlap model b = true →
  issues (plot_models opts plan axnum b (band_color E wave) i ms mins maxes)
         (curve_cmd E opts plan axnum wave b (i + j) model).
Proof.
  revert i j mins maxes. induction ms as [|m ms IH]; intros i j mins maxes Hj Hover;
    [discriminate|].
  simpl. destruct j as [|j]; simpl in Hj.
  - injection Hj as ->. rewrite Hover. replace (i + 0)%nat with i by lia.
    apply issues_bind_val
      with (P := λ _, True) (Q := λ t0, first_model_t0 plan = Returned t0).
    { apply draws_lift. auto. }
    intros t0 Ht0. unfold curve_cmd, plotted_t0. rewrite Ht0.
    apply issues_bind_l, issues_emit.
  - replace (i + S j)%nat with (S i + j)%nat by lia.
    destruct (bandoverlap m b).
    + do 4 (apply issues_bind_r; intros ?). apply IH; assumption.
    + apply IH; assumption.
Qed.

Lemma plot_band_issues_errorbar axnum wave b data :
  p_data plan = Some data →
  issues (plot_band E opts plan axnum wave b) (errorbar_cmd E plan axnum wave b data).
Proof.
  intros Hdata. unfold plot_band. cbv zeta.
  do 3 (apply issues_bind_r; intros ?).
  apply issues_bind_l. rewrite Hdata. apply issues_bind_l, plot_data_issues.
Qed.

Lemma plot_band_issues_curve axnum wave b i model :
  p_models plan !! i = Some model → bandoverlap model b = true →
  issues (plot_band E opts plan axnum wave b) (curve_cmd E opts plan axnum wave b i model).
Proof.
  intros Hi Hover. unfold plot_band. cbv zeta.
  do 4 (apply issues_bind_r; intros ?).
  apply issues_bind_l.
  destruct (p_models plan) as [|m0 ms] eqn:Hmodels; [discriminate|].
  apply issues_bind_l.
  apply (plot_models_issues axnum wave b 0 (m0 :: ms) [] [] i model); assumption.
Qed.

Lemma plot_bands_issues_at (c : Z → Cmd) axnum l k wave b :
  (∀ n, issues (plot_band E opts plan n wave b) (c n)) →
  l !! k = Some (wave, b) →
  issues (plot_bands E opts plan axnum l) (c (axnum + Z.of_nat k + 1)%Z).
Proof.
  intros Hband. revert axnum k.
  induction l as [|[w b'] l IH]; intros axnum k Hk; [discriminate|].
  simpl. destruct k as [|k]; simpl in Hk.
  - injection Hk as -> ->. apply issues_bind_l.
    replace (axnum + Z.of_nat 0 + 1)%Z with (axnum + 1)%Z by lia. apply Hband.
  - apply issues_bind_r. intros _.
    replace (axnum + Z.of_nat (S k) + 1)%Z with (axnum + 1 + Z.of_nat k + 1)%Z by lia.
    apply IH, Hk.
Qed.

Lemma render_issues_at (c : Z → Cmd) k wave b :
  (∀ n, issues (plot_band E opts plan n wave b) (c n)) →
  sorted_bands (p_bands plan) !! k = Some (wave, b) →
  issues (render E opts plan) (c (Z.of_nat k + 1)%Z).
Proof.
  intros Hband Hk. unfold render.
  apply issues_bind_r. intros _. apply issues_bind_r. intros _.
  apply issues_bind_l.
  apply (plot_bands_issues_at c 0 _ k wave b Hband Hk).
Qed.

End DrawnForSure.

Section ReturnedCalls.

Variable E : Extern.
Variable opts : Options.

Lemma plot_lc_issued o o' plan c :
  result (plot_lc E opts o) = Returned tt →
  prepare E opts o = (o', Returned plan) →
  issues (render E opts plan) c →
  c ∈ commands (plot_lc E opts o).
Proof.
  unfold plot_lc. intros Hret Hprep Hiss. rewrite Hprep in *.
  specialize (Hiss []). destruct (render E opts plan []) as [cmds r]. simpl in *.
  apply Hiss. rewrite Hret. reflexivity.
Qed.

(** X25: a call that returns has drawn, for every band selected, in the
    subplot of the band and in the colour of the band: the error bars of the
    rows of the data in the band, when data are given, and a curve for each
    model that overlaps the band, in the line style of the index of the
    model and labelled with the name of the model. *)
Theorem returned_call_draws_data_and_models o b :
  result (plot_lc E opts o) = Returned tt →
  b ∈ selected_bands E opts o →
  let res := plot_lc E opts o in
  let color := band_color E (wave_eff b) in
  ∃ r cols n,
    Subplot r cols n b ∈ commands res ∧
    (∀ d, o_data o = Some d →
       let rows := band_rows E b
                     (normalize_data E (standardize_data E d) (zp opts) (zpsys opts)) in
       ∃ x, Draw (MainAxes n) (Errorbar x (flux <$> rows) (fluxerr <$> rows) color)
              ∈ commands res) ∧
    (∀ i model,
       obs_models (model_list (o_model o)) !! i = Some model →
       bandoverlap model b = true →
       ∃ x y, Draw (MainAxes n)
                (Line x y (nth (i mod 4) ["-"; "--"; ":"; "-."] "-") "None" color
                      (Some (model_name model))) ∈ commands res).
Proof.
  intros Hret Hb res color.
  destruct (plot_lc_returned E opts o Hret) as (plan & Hprep & Hsub).
  destruct (prepare_returned E opts _ _ _ Hprep) as (_ & Hbands & Hdata & Hmodels & _).
  assert ((wave_eff b, b) ∈ sorted_bands (p_bands plan)) as Hin.
  { apply sorted_bands_elem. split; [reflexivity|].
    rewrite Hbands. apply elem_of_elements, Hb. }
  apply list_elem_of_lookup_1 in Hin as [k Hk].
  exists (p_nrow plan), ncol, (Z.of_nat k + 1)%Z.
  split; [apply (Hsub k _ _ Hk)|]. split.
  - intros d Hd rows. eexists.
    apply (plot_lc_issued o _ plan _ Hret Hprep).
    apply (render_issues_at E opts plan
             (λ n, errorbar_cmd E plan n (wave_eff b) b
                     (normalize_data E (standardize_data E d) (zp opts) (zpsys opts)))
             k (wave_eff b) b); [|exact Hk].
    intros n. apply plot_band_issues_errorbar.
    rewrite Hdata. unfold normalised. rewrite Hd. reflexivity.
  - intros i model Hi Hover. eexists _, _.
    apply (plot_lc_issued o _ plan _ Hret Hprep).
    apply (render_issues_at E opts plan
             (λ n, curve_cmd E opts plan n (wave_eff b) b i model)
             k (wave_eff b) b); [|exact Hk].
    intros n. apply plot_band_issues_curve; [|exact Hover].
    rewrite Hmodels. exact Hi.
Qed.

End ReturnedCalls.

(** * The properties above, on sample calls *)

Lemma error_bars_are_the_data_witness :
  ∃ d, o_data Demo.call_offsets = Some d ∧
    let rows := band_rows Demo.extern Demo.sdssr
                  (normalize_data Demo.extern (standardize_data Demo.extern d) 25 "ab") in
    [5; 7]%Q = flux <$> rows ∧ [1; 1]%Q = fluxerr <$> rows ∧
    match obs_models (model_list (o_model Demo.call_offsets)) with
    | [] => [0; 2]%Q = time <$> rows
    | first :: _ => ∃ t0, parameters first !! 1%nat = Some t0 ∧
                          [0; 2]%Q = (λ row, time row - t0)%Q <$> rows
    end.
Proof.
  apply (error_bars_are_the_data Demo.extern default_options Demo.call_offsets
           1%Z 2%Z 2%Z Demo.sdssr [0; 2]%Q [5; 7]%Q [1; 1]%Q
           (138 # 255, 117 # 255, 0, 1)%Q).
  - vm_compute. apply list_elem_of_In. simpl. tauto.
  - vm_compute. apply list_elem_of_In. simpl. tauto.
Defined.

Lemma model_curves_drawn_witness :
  ∃ i model first t0,
    obs_models (model_list (o_model Demo.call_offsets)) !! i = Some model ∧
    obs_models (model_list (o_model Demo.call_offsets)) !! 0%nat = Some first ∧
    parameters first !! 1%nat = Some t0 ∧
    bandoverlap model Demo.sdssr = true ∧
    [0; 10]%Q = (λ t, t - t0)%Q <$> times model ∧
    Forall2 Qeq [4; 4]%Q
      ((λ t, bandflux model Demo.sdssr t 25 "ab"
             + default 0 (offset_of (objects (plot_lc Demo.extern default_options
                                                Demo.call_offsets)) Demo.sdssr))%Q
         <$> times model) ∧
    "-" = nth (i mod 4) ["-"; "--"; ":"; "-."] "-" ∧
    "None" = "None" ∧ Some "salt2" = Some (model_name model).
Proof.
  apply (model_curves_drawn Demo.extern default_options Demo.call_offsets
           1%Z 2%Z 2%Z Demo.sdssr [0; 10]%Q [4; 4]%Q "-" "None"
           (138 # 255, 117 # 255, 0, 1)%Q (Some "salt2")).
  - vm_compute. apply list_elem_of_In. simpl. tauto.
  - vm_compute. apply list_elem_of_In. simpl. tauto.
Defined.

Lemma legend_and_band_name_witness :
  "sdssr" = name Demo.sdssr ∧
  if bool_decide (2%Z = 1%Z ∧
                  (2 ≤ length (obs_models (model_list (o_model Demo.call_offsets))))%nat)
  then (92 # 100)%Q = (8 # 100)%Q ∧ "right" = "left"
  else (92 # 100)%Q = (92 # 100)%Q ∧ "right" = "right".
Proof.
  refine (proj2 (legend_and_band_name Demo.extern default_options Demo.call_offsets
                   1%Z 2%Z 2%Z Demo.sdssr _)
                (92 # 100)%Q (92 # 100)%Q "sdssr" "right" _).
  - vm_compute. apply list_elem_of_In. simpl. tauto.
  - vm_compute. apply list_elem_of_In. simpl. tauto.
Defined.

Lemma ylabels_in_left_column_witness :
  ((1 - 1) `mod` ncol = 0)%Z ∧ "pull" = "pull".
Proof.
  apply (ylabels_in_left_column Demo.extern default_options Demo.call_offsets
           1%Z 2%Z 1%Z Demo.sdssg (PullAxes 1) "pull").
  - vm_compute. apply list_elem_of_In. simpl. tauto.
  - vm_compute. apply list_elem_of_In. simpl. tauto.
  - reflexivity.
Defined.

Lemma pull_axes_need_one_model_witness :
  is_Some (o_data Demo.call_offsets) ∧ pulls default_options = true ∧
  ∃ model, obs_models (model_list (o_model Demo.call_offsets)) = [model] ∧
           bandoverlap model Demo.sdssr = true.
Proof.
  refine (proj1 (pull_axes_need_one_model Demo.extern default_options Demo.call_offsets
                   1%Z 2%Z 2%Z Demo.sdssr _) (Axhline 0) _).
  - vm_compute. apply list_elem_of_In. simpl. tauto.
  - vm_compute. apply list_elem_of_In. simpl. tauto.
Defined.

Lemma not_obsmodel_raises_witness :
  plot_lc Demo.extern default_options Demo.call_not_a_model =
  mkResult Demo.call_not_a_model []
    (Raised (TypeError "model(s) must be ObsModel instance(s)")).
Proof.
  apply not_obsmodel_raises.
  - left. simpl. eauto.
  - reflexivity.
Defined.

Lemma figtext_kept_without_single_model_witness :
  o_figtext (objects (plot_lc Demo.extern default_options Demo.call_data)) =
  o_figtext Demo.call_data.
Proof.
  apply figtext_kept_without_single_model. simpl. lia.
Defined.

Lemma offsets_cover_subplots_witness :
  ∃ d', o_offsets (objects (plot_lc Demo.extern default_options Demo.call_offsets))
        = Some d' ∧
    is_Some (d' !! BandObj Demo.sdssr) ∧
    ((∀ k, is_Some (({[ BandName "sdssr" := 1%Q ]} : gmap BandSpec Q) !! k) →
           get_bandpass Demo.extern k ≠ Demo.sdssr) →
     d' !! BandObj Demo.sdssr = Some 0%Q).
Proof.
  apply (offsets_cover_subplots Demo.extern default_options Demo.call_offsets
           {[ BandName "sdssr" := 1%Q ]} 1%Z 2%Z 2%Z Demo.sdssr).
  - reflexivity.
  - vm_compute. apply list_elem_of_In. simpl. tauto.
Defined.

Lemma figtext_list_grows_witness :
  length ["$z = 0.0000$"; "$t_0 = 0.0000$"; "$x_0 = 0.0000$"]
    = length (param_names Demo.salt2) ∧
  o_figtext (objects (plot_lc Demo.extern default_options Demo.call_captions)) =
  FigList ([Some "SN 2011fe"] ++
           [Some (join newline ["$z = 0.0000$"; "$t_0 = 0.0000$"]);
            Some (join newline ["$x_0 = 0.0000$"])]).
Proof.
  apply (figtext_list_grows Demo.extern default_options Demo.call_captions Demo.salt2
           [Some "SN 2011fe"] ["$z = 0.0000$"; "$t_0 = 0.0000$"; "$x_0 = 0.0000$"]).
  - left. simpl. eauto.
  - reflexivity.
  - reflexivity.
  - reflexivity.
  - reflexivity.
Defined.

Lemma figure_closed_only_on_return_witness :
  ∃ w h pre top,
    commands (plot_lc Demo.extern default_options Demo.call_data) =
    Figure w h :: pre ++ [TightLayout top; Show; Close] ∧
    Forall (λ c, ¬ match c with
                   | TightLayout _ | Show | Savefig _ _ | Close => True
                   | _ => False
                   end) (Figure w h :: pre).
Proof.
  apply (proj1 (figure_closed_only_on_return Demo.extern default_options Demo.call_data)).
  vm_compute. reflexivity.
Defined.

Lemma figure_panels_four_by_three_witness :
  ∃ text,
    (text = 0 ∨ text = figtextsize default_options)%Q ∧
    (length (obs_models (model_list (o_model Demo.call_offsets))) = 1%nat →
     text = figtextsize default_options) ∧
    (length (obs_models (model_list (o_model Demo.call_offsets))) ≠ 1%nat →
     o_figtext Demo.call_offsets = FigNone → text = 0%Q) ∧
    (3 * inject_Z (nrow_of (Z.of_nat (size (selected_bands Demo.extern default_options
                                              Demo.call_offsets)))) * 8
     == 4 * inject_Z ncol * (4 - text))%Q ∧
    (∀ x, xfigsize default_options = Some x → 8%Q = x) ∧
    (∀ y, yfigsize default_options = Some y → (4 == y + text)%Q) ∧
    (xfigsize default_options = None → yfigsize default_options = None →
     (8 == 8)%Q ∧
     (4 == 3 * inject_Z (nrow_of (Z.of_nat (size (selected_bands Demo.extern
                                                    default_options Demo.call_offsets))))
           + text)%Q).
Proof.
  apply (figure_panels_four_by_three Demo.extern default_options Demo.call_offsets 8 4).
  vm_compute. apply list_elem_of_In. simpl. tauto.
Defined.

Lemma subplot_numbers_fit_grid_witness :
  (1 ≤ 2 ≤ Z.of_nat (size (selected_bands Demo.extern default_options
                              Demo.call_offsets)))%Z ∧
  (2 ≤ 1 * 2)%Z ∧
  ∀ r' cols' n' b',
    Subplot r' cols' n' b'
      ∈ commands (plot_lc Demo.extern default_options Demo.call_offsets) →
    (2%Z = n' ↔ Demo.sdssr = b').
Proof.
  apply (subplot_numbers_fit_grid Demo.extern default_options Demo.call_offsets
           1%Z 2%Z 2%Z Demo.sdssr).
  vm_compute. apply list_elem_of_In. simpl. tauto.
Defined.

Lemma captions_left_to_right_witness :
  ∃ captions i,
    match obs_models (model_list (o_model Demo.call_offsets)) with
    | [_] => ∃ c1 c2,
        captions = match o_figtext Demo.call_offsets with
                   | FigNone => []
                   | FigStr s => [Some s]
                   | FigList l => l
                   end ++ [Some c1; Some c2]
    | _ => captions = match o_figtext Demo.call_offsets with
                      | FigNone => []
                      | FigStr s => [Some s]
                      | FigList l => l
                      end
    end ∧
    captions !! i = Some (Some "$x_0 = 0.0000$") ∧
    (95 # 100)%Q = (95 # 100)%Q ∧
    (1000 # 2000)%Q =
    ((5 # 100) + (9 # 10) *
       (inject_Z (Z.of_nat i) / inject_Z (Z.of_nat (length captions))))%Q ∧
    (5 # 100 <= 1000 # 2000)%Q ∧ (1000 # 2000 < 95 # 100)%Q.
Proof.
  apply (captions_left_to_right Demo.extern default_options Demo.call_offsets
           (1000 # 2000)%Q (95 # 100)%Q "$x_0 = 0.0000$").
  vm_compute. apply list_elem_of_In. simpl. tauto.
Defined.

Lemma no_band_no_caption_raises_witness :
  ∃ e, result (plot_lc Demo.extern default_options Demo.call_no_band_no_model)
       = Raised e ∧
    (commands (plot_lc Demo.extern default_options Demo.call_no_band_no_model) = [] ∨
     e = ZeroDivisionError ∧
     ∃ w h, (h == 0)%Q ∧
       commands (plot_lc Demo.extern default_options Demo.call_no_band_no_model)
       = [Figure w h]).
Proof.
  apply no_band_no_caption_raises.
  - vm_compute. reflexivity.
  - left. reflexivity.
  - simpl. lia.
Defined.

Lemma animate_model_needs_a_model_witness :
  ∃ e, Animate.animate_model Animate.default_options (Animate.Several []) = Raised e ∧
       (fst (Animate.time_range Animate.default_options) = None →
        e = ValueError "min() arg is an empty sequence").
Proof.
  apply animate_model_needs_a_model. reflexivity.
Defined.

Lemma still_image_replaces_extension_witness :
  Movie.stillfname ("movie" +:+ String Movie.dot "mp4") = "movie" +:+ ".png" ∧
  Movie.ext ("movie" +:+ String Movie.dot "mp4") = "mp4" ∧
  Movie.codec ("movie" +:+ String Movie.dot "mp4") =
  if String.eqb "mp4" "mp4" then "libx264"
  else if String.eqb "mp4" "webm" then "libvpx" else "mpeg4".
Proof.
  apply (still_image_replaces_extension "movie" "mp4"). reflexivity.
Defined.

Lemma name_without_dot_loses_a_character_witness :
  Movie.stillfname "movie" = Movie.take_chars (String.length "movie" - 1) "movie" +:+ ".png" ∧
  Movie.ext "movie" = "movie".
Proof.
  apply (name_without_dot_loses_a_character "movie"). reflexivity.
Defined.

Lemma windows_with_normalised_weights_witness :
  (Samples.lims Demo.samples (Some Demo.half_weights) 0 =
   (Samples.weighted_mean (Samples.column Demo.samples 0) Demo.half_weights
    - 5 * Samples.weighted_std (Samples.column Demo.samples 0) Demo.half_weights,
    Samples.weighted_mean (Samples.column Demo.samples 0) Demo.half_weights
    + 5 * Samples.weighted_std (Samples.column Demo.samples 0) Demo.half_weights))%R.
Proof.
  apply (windows_with_normalised_weights ["p"] Demo.samples Demo.half_weights
           (Samples.mkPanel 0 0 1 Samples.Histogram
              (Samples.lims Demo.samples (Some Demo.half_weights) 0) None)).
  - reflexivity.
  - unfold Samples.total, Demo.half_weights. simpl. Lra.lra.
  - apply list_elem_of_singleton. reflexivity.
Defined.

Lemma labels_on_outer_edge_witness :
  ∃ setup name_i name_j,
    Ticks.axis_setup ["a"; "b"] 1 0 = Returned setup ∧
    ["a"; "b"] !! 0%nat = Some name_i ∧ ["a"; "b"] !! 1%nat = Some name_j ∧
    Ticks.x_label setup = (if bool_decide (1 = length ["a"; "b"] - 1)%nat
                           then Some name_i else None) ∧
    Ticks.y_label setup = (if bool_decide (0%nat = 0%nat ∧ 1%nat ≠ 0%nat)
                           then Some name_j else None) ∧
    (Ticks.x_formatter setup = Ticks.NullFormatter ↔ Ticks.x_label setup = None) ∧
    (Ticks.y_formatter setup = Ticks.NullFormatter ↔ Ticks.y_label setup = None) ∧
    Ticks.x_locator setup = Ticks.AutoLocator 6 ∧
    (Ticks.y_locator setup = Ticks.NullLocator ↔ 0%nat = 1%nat).
Proof.
  apply (labels_on_outer_edge ["a"; "b"] 1 0). simpl. lia.
Defined.

Lemma returned_call_draws_data_and_models_witness :
  ∃ r cols n,
    Subplot r cols n Demo.sdssr
      ∈ commands (plot_lc Demo.extern default_options Demo.call_offsets) ∧
    (∀ d, o_data Demo.call_offsets = Some d →
       ∃ x, Draw (MainAxes n)
              (Errorbar x
                 (flux <$> band_rows Demo.extern Demo.sdssr
                    (normalize_data Demo.extern (standardize_data Demo.extern d)
                       (zp default_options) (zpsys default_options)))
                 (fluxerr <$> band_rows Demo.extern Demo.sdssr
                    (normalize_data Demo.extern (standardize_data Demo.extern d)
                       (zp default_options) (zpsys default_options)))
                 (band_color Demo.extern (wave_eff Demo.sdssr)))
              ∈ commands (plot_lc Demo.extern default_options Demo.call_offsets)) ∧
    (∀ i model,
       obs_models (model_list (o_model Demo.call_offsets)) !! i = Some model →
       bandoverlap model Demo.sdssr = true →
       ∃ x y, Draw (MainAxes n)
                (Line x y (nth (i mod 4) ["-"; "--"; ":"; "-."] "-") "None"
                      (band_color Demo.extern (wave_eff Demo.sdssr))
                      (Some (model_name model)))
                ∈ commands (plot_lc Demo.extern default_options Demo.call_offsets)).
Proof.
  apply (returned_call_draws_data_and_models Demo.extern default_options
           Demo.call_offsets Demo.sdssr).
  - vm_compute. reflexivity.
  - apply elem_of_elements. vm_compute. apply list_elem_of_In. simpl. tauto.
Defined.
